(** * Video QA backend: a shallow embedding of the analysis engine and of the
      job orchestrator, with the properties of its specification.

    Sources embedded here:
    - [backend/video_analyzer.py]  (class [VideoAnalyzer])
    - [backend/analysis_tasks.py]  (Celery task [analyze_video], Redis store)
    - [backend/app_simple.py]      (thread worker [analyze_video_sync], dict store)
    - [backend/test_simple.py]     (the stand-alone [analyze_video_simple])

    Numbers.  Python floats are embedded as exact rationals ([Q]): every
    finite double is a rational, and comparisons, [//], [%] and [/] are read
    with their exact meaning.  Rounding of the binary representation is not
    part of the model.  Quantities that the code obtains from numerical
    libraries through logarithms, square roots or perceptual filters
    (pyloudnorm, librosa) are inputs of the model: they are fields of the
    decoded-media handle, so every theorem holds whatever those libraries
    return. *)

From Stdlib Require Import ZArith QArith Qround Qabs Lia Lqa.
From Stdlib Require Import Ascii String DecimalString DecimalN.
From Stdlib Require Import List Permutation Sorted.
From stdpp Require Import base option list gmap strings.

Local Open Scope string_scope.
Local Open Scope list_scope.
Local Open Scope Z_scope.

(** ** Python numerics on exact rationals *)

Module Py.

(** [x // d] on floats, returned as the integer [int(x // d)]. *)
Definition floordiv (x d : Q) : Z := Qfloor (x / d).

(** [x % d] for a positive divisor: the remainder of the floor division. *)
Definition fmod (x d : Q) : Q := (x - inject_Z (floordiv x d) * d)%Q.

(** Rounding to the nearest integer, ties to even: the rounding that the
    [%.3f] conversion of CPython applies to the exact value it prints. *)
Definition round_half_even (x : Q) : Z :=
  let f := Qfloor x in
  let r := (x - inject_Z f)%Q in
  match (r ?= 1 # 2)%Q with
  | Lt => f
  | Gt => f + 1
  | Eq => if Z.even f then f else f + 1
  end.

(** Decimal digits of a natural number, as [str(n)] prints them. *)
Definition digits (n : N) : string := NilEmpty.string_of_uint (N.to_uint n).

(** The format [{z:02d}]: sign, then at least two characters in all. *)
Definition fmt_02d (z : Z) : string :=
  if z <? 0 then "-" +:+ digits (Z.to_N (- z))
  else if z <? 10 then "0" +:+ digits (Z.to_N z)
  else digits (Z.to_N z).

Definition digit_char (d : Z) : ascii := ascii_of_nat (48 + Z.to_nat d).

(** The three decimals of [m] thousandths, [0 <= m < 1000]. *)
Definition fmt_frac3 (m : Z) : string :=
  String (digit_char (m / 100))
    (String (digit_char (m / 10 mod 10))
       (String (digit_char (m mod 10)) EmptyString)).

(** The format [{x:06.3f}] for a non-negative [x]: three decimals, and the
    integer part padded with zeros to two digits (six characters in all). *)
Definition fmt_06_3f (x : Q) : string :=
  let ms := round_half_even (x * 1000) in
  fmt_02d (ms / 1000) +:+ "." +:+ fmt_frac3 (ms mod 1000).

(** [s.split(c)] *)
Fixpoint split_on (c : ascii) (s : string) : list string :=
  match s with
  | EmptyString => [EmptyString]
  | String a r =>
      if Ascii.eqb a c then EmptyString :: split_on c r
      else match split_on c r with
           | p :: ps => String a p :: ps
           | [] => [String a EmptyString]
           end
  end.

(** [int(s)] on an optionally signed string of decimal digits; [None] is the
    [ValueError].  (CPython also accepts blanks and underscores; the analyzer
    never feeds it any.) *)
Definition parse_nat (s : string) : option N :=
  N.of_uint <$> NilEmpty.uint_of_string s.

Definition parse_int (s : string) : option Z :=
  match s with
  | EmptyString => None
  | String c r =>
      if Ascii.eqb c "-"%char then
        match r with EmptyString => None | _ => (fun n => - Z.of_N n) <$> parse_nat r end
      else if Ascii.eqb c "+"%char then
        match r with EmptyString => None | _ => Z.of_N <$> parse_nat r end
      else Z.of_N <$> parse_nat s
  end.

(** [float(s)] on [digits] or [digits.digits]; [None] is the [ValueError].
    (Exponents, signs, [inf] and [nan] never occur in a timestamp.) *)
Definition parse_float (s : string) : option Q :=
  match split_on "."%char s with
  | [i] => match i with
           | EmptyString => None
           | _ => (fun n => inject_Z (Z.of_N n)) <$> parse_nat i
           end
  | [i; f] =>
      match i, f with
      | EmptyString, EmptyString => None
      | _, _ =>
          ip ← parse_nat i;
          fp ← parse_nat f;
          Some (inject_Z (Z.of_N ip)
                + inject_Z (Z.of_N fp) / inject_Z (10 ^ Z.of_nat (String.length f)))%Q
      end
  | _ => None
  end.

(** Character classes used to reason about the printed strings. *)
Fixpoint string_forall (p : ascii -> bool) (s : string) : bool :=
  match s with
  | EmptyString => true
  | String a r => p a && string_forall p r
  end.

Definition is_digit (c : ascii) : bool :=
  (48 <=? nat_of_ascii c)%nat && (nat_of_ascii c <=? 57)%nat.

Definition differs (c a : ascii) : bool := negb (Ascii.eqb a c).

End Py.

(** ** Timestamps ([VideoAnalyzer._seconds_to_timestamp] and its inverse) *)

Definition _seconds_to_timestamp (seconds : Q) : string :=
  let hours := Py.floordiv seconds 3600 in
  let minutes := Py.floordiv (Py.fmod seconds 3600) 60 in
  let secs := Py.fmod seconds 60 in
  Py.fmt_02d hours +:+ ":" +:+ Py.fmt_02d minutes +:+ ":" +:+ Py.fmt_06_3f secs.

(** [None] stands for the [IndexError] or [ValueError] of the source. *)
Definition _timestamp_to_seconds (timestamp : string) : option Q :=
  match Py.split_on ":"%char timestamp with
  | p0 :: p1 :: p2 :: _ =>
      hours ← Py.parse_int p0;
      minutes ← Py.parse_int p1;
      seconds ← Py.parse_float p2;
      Some (inject_Z (hours * 3600 + minutes * 60) + seconds)%Q
  | _ => None
  end.

(** The general format [{x:.kf}]: sign, integer part, [k] decimals. *)
Module PyFmt.

Fixpoint zero_pad (width : nat) (s : string) : string :=
  match width with
  | O => s
  | S w => if (String.length s <? width)%nat then "0" +:+ zero_pad w s else s
  end.

Definition fmt_f (k : nat) (x : Q) : string :=
  let scaled := Py.round_half_even (Qabs x * inject_Z (10 ^ Z.of_nat k)) in
  let ip := Py.digits (Z.to_N (scaled / 10 ^ Z.of_nat k)) in
  let fp := zero_pad k (Py.digits (Z.to_N (scaled mod 10 ^ Z.of_nat k))) in
  (if Qlt_le_dec x 0 then "-" else EmptyString) +:+ ip +:+ "." +:+ fp.

(** [str(n)] for an integer. *)
Definition str_int (z : Z) : string :=
  if z <? 0 then "-" +:+ Py.digits (Z.to_N (- z)) else Py.digits (Z.to_N z).

End PyFmt.

(** ** Exceptions *)

(** A Python call either returns or raises; [Raise msg] carries [str(e)]. *)
Inductive Exc (A : Type) : Type :=
  | Ok (a : A)
  | Raise (msg : string).
Arguments Ok {A} a.
Arguments Raise {A} msg.

(** ** Issues *)

(** The dictionary built for every detected event.  [i_type] and
    [i_duration] are the entries ['type'] and ['duration']. *)
Record Issue : Type := mkIssue {
  i_type : string;
  timestamp : string;
  i_duration : Q;
  severity : string;
  description : string;
  suggested_fix : string
}.

(** ** numpy on lists *)

Module Np.

Definition sumQ (l : list Q) : Q := fold_right Qplus 0%Q l.

(** [np.mean]; the mean of an empty array is [nan], rendered as [None]. *)
Definition mean (l : list Q) : option Q :=
  match l with
  | [] => None
  | _ => Some (sumQ l / inject_Z (Z.of_nat (length l)))%Q
  end.

(** [np.any] on a boolean array. *)
Definition any (flags : list bool) : bool := existsb id flags.

(** [.astype(int)] on a boolean array. *)
Definition astype_int (flags : list bool) : list Z :=
  map (fun b : bool => if b then 1 else 0) flags.

(** [np.diff]: consecutive differences. *)
Fixpoint diff (l : list Z) : list Z :=
  match l with
  | a :: (b :: _) as t => (b - a) :: diff t
  | _ => []
  end.

(** [np.where(d == v)[0]]: the indices holding [v], counted from [i]. *)
Fixpoint where_eq_from (i : Z) (v : Z) (d : list Z) : list Z :=
  match d with
  | [] => []
  | x :: r => if x =? v then i :: where_eq_from (i + 1) v r
              else where_eq_from (i + 1) v r
  end.

Definition where_eq (d : list Z) (v : Z) : list Z := where_eq_from 0 v d.

(** [np.arange(0, stop, 1.0)]: [0.0, 1.0, ...] below [stop]. *)
Definition arange (stop : Q) : list Q :=
  map (fun k : nat => inject_Z (Z.of_nat k)) (seq 0 (Z.to_nat (Qceiling stop))).

End Np.

(** The grouping shared by [_detect_clipping] and [_detect_silences]:
[[
    diff   = np.diff(np.concatenate([[False], flags, [False]]).astype(int))
    starts = np.where(diff == 1)[0]
    ends   = np.where(diff == -1)[0]
    zip(starts, ends)
]] *)
Definition consecutive_regions (flags : list bool) : list (Z * Z) :=
  let d := Np.diff (Np.astype_int ([false] ++ flags ++ [false])) in
  let starts := Np.where_eq d 1 in
  let ends := Np.where_eq d (-1) in
  combine starts ends.


(** ** The decoded-media handle *)

(** A gray frame: the pixels of [cv2.cvtColor(frame, COLOR_RGB2GRAY)], an
    array of [uint8], flattened. *)
Definition GrayFrame : Type := list Z.

(** What [audio_clip.to_soundarray()] returns: a one-dimensional array, or a
    two-dimensional one of shape [(len rows, 1 + extra_channels)], each row
    holding the first channel and the [extra_channels] other ones. *)
Inductive SoundArray : Type :=
  | Mono (samples : list Q)
  | MultiChannel (extra_channels : nat) (rows : list (Q * list Q)).

(** The integrated loudness reported by pyloudnorm: a finite value in LUFS
    or an infinite one (a silent signal). *)
Inductive Loudness : Type :=
  | Lufs (q : Q)
  | LufsInf.

(** The audio track.  The last three fields are what the numerical
    libraries compute on the mono signal of this track:
    - [integrated_loudness]: [pyln.Meter(rate).integrated_loudness(mono)];
    - [glitch_frames]: the boolean array [(zcr > zcr_threshold) &
      (rms < rms_threshold)] that [_detect_voice_glitches] derives from
      librosa's zero-crossing rate and RMS with [np.percentile];
    - [crest_factor_db]: [20 * np.log10(peak / rms)]. *)
Record AudioClip : Type := mkAudioClip {
  to_soundarray : Exc SoundArray;
  audio_fps : positive;
  integrated_loudness : Exc Loudness;
  glitch_frames : Exc (list bool);
  crest_factor_db : Q
}.

(** [VideoFileClip]: [get_frame t] stands for [get_frame(t)] followed by the
    conversion to gray; it raises when either does. *)
Record VideoClip : Type := mkVideoClip {
  duration : Q;
  fps : Q;
  w : Z;
  h : Z;
  audio : option AudioClip;
  get_frame : Q -> Exc GrayFrame
}.

(** One stream of [ffmpeg.probe(path)['streams']]. *)
Record ProbeStream : Type := mkProbeStream {
  codec_type : option string;
  codec_name : option string;
  stream_sample_rate : option string
}.

(** An uploaded file as the libraries see it. *)
Record MediaFile : Type := mkMediaFile {
  open_clip : Exc VideoClip;          (* VideoFileClip(path) *)
  getsize : Z;                        (* os.path.getsize(path) *)
  probe : Exc (list ProbeStream)      (* ffmpeg.probe(path) *)
}.

(** ** [class VideoAnalyzer] *)

Record VideoAnalyzer : Type := mkVideoAnalyzer {
  file_path : string;
  video_clip : option VideoClip;
  audio_data : option (list Q);
  sample_rate : option positive
}.

(** [VideoAnalyzer(file_path)] *)
Definition __init__ (path : string) : VideoAnalyzer :=
  {| file_path := path; video_clip := None; audio_data := None; sample_rate := None |}.

Definition rate (sr : positive) : Q := inject_Z (Z.pos sr).

(** *** [_analyze_loudness] *)
Definition _analyze_loudness (meter : Exc Loudness) (data : list Q) (sr : positive)
  : list Issue :=
  match meter with
  | Raise _ => []                                   (* except: pass *)
  | Ok LufsInf => []
  | Ok (Lufs loudness) =>
      if Qlt_le_dec loudness (-28) then
        [ {| i_type := "low_loudness";
             timestamp := "00:00:00.000";
             i_duration := inject_Z (Z.of_nat (length data)) / rate sr;
             severity := "medium";
             description := "Audio too quiet: " +:+ PyFmt.fmt_f 1 loudness
                            +:+ " LUFS (target: -28 to -12 LUFS)";
             suggested_fix := "Increase audio levels or apply normalization" |} ]
      else if Qlt_le_dec (-12) loudness then
        [ {| i_type := "high_loudness";
             timestamp := "00:00:00.000";
             i_duration := inject_Z (Z.of_nat (length data)) / rate sr;
             severity := "medium";
             description := "Audio too loud: " +:+ PyFmt.fmt_f 1 loudness
                            +:+ " LUFS (target: -28 to -12 LUFS)";
             suggested_fix := "Reduce audio levels to prevent distortion" |} ]
      else []
  end.

(** *** [_detect_clipping] *)
Definition clip_threshold : Q := 0.99.

Definition clipped (x : Q) : bool := Qle_bool clip_threshold (Qabs x).

Definition clipping_issue (sr : positive) (region : Z * Z) : Issue :=
  let '(start, end_) := region in
  let duration := (inject_Z (end_ - start) / rate sr)%Q in
  let timestamp := (inject_Z start / rate sr)%Q in
  {| i_type := "clipping";
     timestamp := _seconds_to_timestamp timestamp;
     i_duration := duration;
     severity := "high";
     description := "Audio clipping detected for " +:+ PyFmt.fmt_f 3 duration +:+ " seconds";
     suggested_fix := "Reduce input gain or apply limiting" |}.

Definition _detect_clipping (data : list Q) (sr : positive) : list Issue :=
  let clipped_samples := map clipped data in
  if Np.any clipped_samples
  then map (clipping_issue sr) (consecutive_regions clipped_samples)
  else [].

(** *** [_detect_silences] *)

(** [20 * np.log10(np.abs(x) + 1e-10) < -40]: the logarithm is increasing,
    so the sample is flagged exactly when [|x| + 1e-10 < 10 ** -2]. *)
Definition silent (x : Q) : bool :=
  negb (Qle_bool (1 # 100) (Qabs x + (1 # 10000000000))).

Definition min_silence_duration : Q := 1.

Definition silence_issue (sr : positive) (region : Z * Z) : Issue :=
  let '(start, end_) := region in
  let duration := (inject_Z (end_ - start) / rate sr)%Q in
  let timestamp := (inject_Z start / rate sr)%Q in
  {| i_type := "silence";
     timestamp := _seconds_to_timestamp timestamp;
     i_duration := duration;
     severity := if Qlt_le_dec duration 3 then "low" else "medium";
     description := "Silence detected for " +:+ PyFmt.fmt_f 1 duration +:+ " seconds";
     suggested_fix := "Check for intentional silence or audio gaps" |}.

Definition long_enough (sr : positive) (region : Z * Z) : bool :=
  Qle_bool min_silence_duration (inject_Z (snd region - fst region) / rate sr).

Definition _detect_silences (data : list Q) (sr : positive) : list Issue :=
  let silent_samples := map silent data in
  if Np.any silent_samples
  then map (silence_issue sr)
           (List.filter (long_enough sr) (consecutive_regions silent_samples))
  else [].


(** *** [_detect_voice_glitches] *)

(** [hop_length = int(0.010 * sample_rate)]: for an integer rate the product
    truncates to the integer quotient by 100. *)
Definition hop_length (sr : positive) : Z := Z.pos sr / 100.

(** The loop that groups consecutive glitch frames: [current] is
    [current_group], [prev] is [glitch_indices[i-1]]. *)
Fixpoint group_glitch_frames (current : list Z) (prev : Z) (rest : list Z)
  : list (list Z) :=
  match rest with
  | [] => [current]                                  (* groups.append(current_group) *)
  | i :: r =>
      if i - prev <=? 2
      then group_glitch_frames (current ++ [i]) i r
      else current :: group_glitch_frames [i] i r
  end.

Definition glitch_issue (sr : positive) (group : list Z) : option Issue :=
  let start_frame := hd 0 group in
  let end_frame := List.last group 0 in
  let timestamp := (inject_Z (start_frame * hop_length sr) / rate sr)%Q in
  let duration := (inject_Z ((end_frame - start_frame + 1) * hop_length sr) / rate sr)%Q in
  if Qlt_le_dec (5 # 100) duration then
    Some {| i_type := "voice_glitch";
            timestamp := _seconds_to_timestamp timestamp;
            i_duration := duration;
            severity := "medium";
            description := "Potential voice glitch detected (" +:+ PyFmt.fmt_f 3 duration
                           +:+ " seconds)";
            suggested_fix := "Check for audio artifacts or encoding issues" |}
  else None.

Definition _detect_voice_glitches (scan : Exc (list bool)) (data : list Q) (sr : positive)
  : list Issue :=
  match scan with
  | Raise _ => []                                   (* except: pass *)
  | Ok flags =>
      if Np.any flags then
        match Np.where_eq (Np.astype_int flags) 1 with
        | [] => []
        | i0 :: rest => omap (glitch_issue sr) (group_glitch_frames [i0] i0 rest)
        end
      else []
  end.

(** *** [sorted(issues, key=lambda x: self._timestamp_to_seconds(x['timestamp']))] *)

(** Insertion before the first element with a key that is not smaller:
    together with [foldr] this is a stable sort, which is what [sorted]
    guarantees. *)
Fixpoint insert_by_key (x : Q * Issue) (l : list (Q * Issue)) : list (Q * Issue) :=
  match l with
  | [] => [x]
  | y :: r => if Qle_bool (fst x) (fst y) then x :: y :: r
              else y :: insert_by_key x r
  end.

Definition stable_sort (l : list (Q * Issue)) : list (Q * Issue) :=
  fold_right insert_by_key [] l.

(** The keys are computed first; a key that cannot be computed raises. *)
Fixpoint timestamp_keys (issues : list Issue) : Exc (list (Q * Issue)) :=
  match issues with
  | [] => Ok []
  | i :: r =>
      match _timestamp_to_seconds (timestamp i) with
      | None => Raise "invalid timestamp"
      | Some k => match timestamp_keys r with
                  | Ok ks => Ok ((k, i) :: ks)
                  | Raise m => Raise m
                  end
      end
  end.

Definition sorted_by_timestamp (issues : list Issue) : Exc (list Issue) :=
  match timestamp_keys issues with
  | Ok ks => Ok (map snd (stable_sort ks))
  | Raise m => Raise m
  end.

(** *** [analyze_audio] *)

(** The four checks of [analyze_audio], to record which of them ran. *)
Inductive AudioCheck : Type :=
  | LoudnessCheck | ClippingCheck | SilenceCheck | VoiceGlitchCheck.

(** [np.mean(audio_array, axis=1)] for a two-dimensional array. *)
Definition to_mono (arr : SoundArray) : list Q :=
  match arr with
  | Mono samples => samples
  | MultiChannel _ rows =>
      map (fun row : Q * list Q =>
             (Np.sumQ (fst row :: snd row)
              / inject_Z (Z.of_nat (length (fst row :: snd row))))%Q) rows
  end.

(** The outcome of a call: the returned list (or the exception), the checks
    that were run, and the analyzer with its updated attributes. *)
Record AudioRun : Type := mkAudioRun {
  audio_result : Exc (list Issue);
  checks_run : list AudioCheck;
  audio_self : VideoAnalyzer
}.

Definition analyze_audio (self : VideoAnalyzer) : AudioRun :=
  match video_clip self with
  | None => mkAudioRun (Ok []) [] self
  | Some clip =>
      match audio clip with
      | None => mkAudioRun (Ok []) [] self
      | Some audio_clip =>
          match to_soundarray audio_clip with
          | Raise e =>
              let issues :=
                [ {| i_type := "audio_analysis_error";
                     timestamp := "00:00:00.000";
                     i_duration := 0;
                     severity := "high";
                     description := "Audio analysis failed: " +:+ e;
                     suggested_fix := "Check audio format compatibility" |} ] in
              mkAudioRun (sorted_by_timestamp issues) [] self
          | Ok audio_array =>
              let audio_mono := to_mono audio_array in
              let sr := audio_fps audio_clip in
              let self' := {| file_path := file_path self;
                              video_clip := video_clip self;
                              audio_data := Some audio_mono;
                              sample_rate := Some sr |} in
              let issues :=
                _analyze_loudness (integrated_loudness audio_clip) audio_mono sr
                ++ _detect_clipping audio_mono sr
                ++ _detect_silences audio_mono sr
                ++ _detect_voice_glitches (glitch_frames audio_clip) audio_mono sr in
              mkAudioRun (sorted_by_timestamp issues)
                         [LoudnessCheck; ClippingCheck; SilenceCheck; VoiceGlitchCheck]
                         self'
          end
      end
  end.


(** *** [analyze_video] *)

Definition sample_interval : Q := 1.

(** [np.mean(gray_frame)] *)
Definition mean_brightness (gray : GrayFrame) : option Q :=
  Np.mean (map inject_Z gray).

(** [np.mean((gray_frame - prev_frame) ** 2)].  Both frames are [uint8]
    arrays, so the difference and its square wrap around modulo 256 before
    the mean is taken.  Frames of different sizes cannot be subtracted. *)
Fixpoint squared_diff (gray prev : GrayFrame) : Exc (list Z) :=
  match gray, prev with
  | [], [] => Ok []
  | a :: g, b :: p =>
      match squared_diff g p with
      | Ok r => Ok ((((a - b) mod 256) ^ 2) mod 256 :: r)
      | Raise m => Raise m
      end
  | _, _ => Raise "operands could not be broadcast together"
  end.

Definition frame_mse (gray prev : GrayFrame) : Exc (option Q) :=
  match squared_diff gray prev with
  | Ok sq => Ok (Np.mean (map inject_Z sq))
  | Raise m => Raise m
  end.

(** [psnr > 45] where [psnr] is infinite when [mse == 0] and
    [20 * np.log10(255.0 / np.sqrt(mse))] otherwise.  For a positive [mse]
    the comparison amounts to [255 ** 2 / mse > 10 ** 4.5], that is
    [mse ** 2 * 10 ** 9 < 255 ** 4].  A [nan] mean (empty frames) compares
    false. *)
Definition psnr_above_45 (mse : option Q) : bool :=
  match mse with
  | None => false
  | Some m =>
      if Qeq_bool m 0 then true
      else negb (Qle_bool (inject_Z (255 ^ 4)) (m * m * inject_Z (10 ^ 9)))
  end.

(** The local variables of the sampling loop. *)
Record FrameLoop : Type := mkFrameLoop {
  issues : list Issue;
  prev_frame : option GrayFrame;
  frozen_start : option Q;
  frozen_duration : Q
}.

Definition black_frame_issue (t : Q) (brightness : Q) : Issue :=
  {| i_type := "black_frame";
     timestamp := _seconds_to_timestamp t;
     i_duration := sample_interval;
     severity := "medium";
     description := "Black frame detected (brightness: " +:+ PyFmt.fmt_f 1 brightness
                    +:+ "/255)";
     suggested_fix := "Check for encoding issues or intentional black frames" |}.

Definition frozen_frame_issue (start : Q) (frozen : Q) : Issue :=
  {| i_type := "frozen_frame";
     timestamp := _seconds_to_timestamp start;
     i_duration := frozen;
     severity := if Qlt_le_dec 5 frozen then "high" else "medium";
     description := "Frozen frames for " +:+ PyFmt.fmt_f 1 frozen +:+ " seconds";
     suggested_fix := "Check encoding settings or source material" |}.

Definition frame_error_issue (t : Q) (e : string) : Issue :=
  {| i_type := "frame_analysis_error";
     timestamp := _seconds_to_timestamp t;
     i_duration := 0;
     severity := "low";
     description := "Frame analysis error at " +:+ _seconds_to_timestamp t +:+ ": " +:+ e;
     suggested_fix := "Frame may be corrupted" |}.

(** The issue appended when a frozen sequence is closed, if it is long
    enough: [frozen_start is not None and frozen_duration > 2]. *)
Definition close_frozen (st : FrameLoop) : list Issue :=
  match frozen_start st with
  | Some start =>
      if Qlt_le_dec 2 (frozen_duration st)
      then [frozen_frame_issue start (frozen_duration st)]
      else []
  | None => []
  end.

(** One iteration of [for t in np.arange(0, duration, sample_interval)]. *)
Definition frame_step (clip : VideoClip) (st : FrameLoop) (t : Q) : FrameLoop :=
  match get_frame clip t with
  | Raise e =>
      mkFrameLoop (issues st ++ [frame_error_issue t e])
                  (prev_frame st) (frozen_start st) (frozen_duration st)
  | Ok gray_frame =>
      (* 1. black frame detection *)
      let issues1 :=
        match mean_brightness gray_frame with
        | Some b => if Qlt_le_dec b 8 then issues st ++ [black_frame_issue t b]
                    else issues st
        | None => issues st
        end in
      (* 2. frozen frame detection *)
      match prev_frame st with
      | None => mkFrameLoop issues1 (Some gray_frame) (frozen_start st) (frozen_duration st)
      | Some prev =>
          match frame_mse gray_frame prev with
          | Raise e =>
              mkFrameLoop (issues1 ++ [frame_error_issue t e])
                          (prev_frame st) (frozen_start st) (frozen_duration st)
          | Ok mse =>
              if psnr_above_45 mse then
                mkFrameLoop issues1 (Some gray_frame)
                  (match frozen_start st with
                   | None => Some (t - sample_interval)%Q
                   | Some s => Some s
                   end)
                  (frozen_duration st + sample_interval)%Q
              else
                mkFrameLoop (issues1 ++ close_frozen st) (Some gray_frame) None 0%Q
          end
      end
  end.

Definition frame_loop (clip : VideoClip) (times : list Q) : FrameLoop :=
  fold_left (frame_step clip) times (mkFrameLoop [] None None 0%Q).

(** Nothing in the outer [try] block raises outside the per-frame handler,
    so the handler that would append [video_analysis_error] is never
    entered for a decoded handle. *)
Definition analyze_video (self : VideoAnalyzer) : Exc (list Issue) :=
  match video_clip self with
  | None => Ok []
  | Some clip =>
      let st := frame_loop clip (Np.arange (duration clip)) in
      (* handle the final frozen frame sequence *)
      sorted_by_timestamp (issues st ++ close_frozen st)
  end.


(** *** [extract_metadata] *)

Record Metadata : Type := mkMetadata {
  md_duration : Q;
  md_fps : Q;
  md_width : Z;
  md_height : Z;
  has_audio : bool;
  file_size : Z;
  video_codec : option string;
  audio_codec : option string;
  md_sample_rate : option Z
}.

(** The loop over [probe['streams']]; any exception in it is caught by the
    bare [except] that installs the default codec entries. *)
Fixpoint probe_streams (streams : list ProbeStream) (md : Metadata) : Exc Metadata :=
  match streams with
  | [] => Ok md
  | stream :: r =>
      match codec_type stream with
      | None => Raise "KeyError: 'codec_type'"
      | Some ty =>
          if String.eqb ty "video" then
            probe_streams r
              (mkMetadata (md_duration md) (md_fps md) (md_width md) (md_height md)
                 (has_audio md) (file_size md)
                 (Some (default "unknown" (codec_name stream)))
                 (audio_codec md) (md_sample_rate md))
          else if String.eqb ty "audio" then
            match match stream_sample_rate stream with
                  | None => Some 0                   (* int(0) *)
                  | Some s => Py.parse_int s
                  end with
            | None => Raise "ValueError: invalid literal for int()"
            | Some sr =>
                probe_streams r
                  (mkMetadata (md_duration md) (md_fps md) (md_width md) (md_height md)
                     (has_audio md) (file_size md) (video_codec md)
                     (Some (default "unknown" (codec_name stream))) (Some sr))
            end
          else probe_streams r md
      end
  end.

Definition is_not_None {A : Type} (o : option A) : bool :=
  match o with Some _ => true | None => false end.

(** The files on disk, by path. *)
Definition Files : Type := gmap string MediaFile.

Definition extract_metadata (fs : Files) (self : VideoAnalyzer)
  : Exc Metadata * VideoAnalyzer :=
  match fs !! file_path self with
  | None => (Raise "Failed to extract metadata: file does not exist", self)
  | Some file =>
      match open_clip file with
      | Raise e => (Raise ("Failed to extract metadata: " +:+ e), self)
      | Ok clip =>
          let self' := {| file_path := file_path self;
                          video_clip := Some clip;
                          audio_data := audio_data self;
                          sample_rate := sample_rate self |} in
          let metadata :=
            mkMetadata (duration clip) (fps clip) (w clip) (h clip)
                       (is_not_None (audio clip)) (getsize file)
                       None None None in
          let with_codecs :=
            match match probe file with
                  | Ok streams => probe_streams streams metadata
                  | Raise e => Raise e
                  end with
            | Ok md => md
            | Raise _ =>
                mkMetadata (duration clip) (fps clip) (w clip) (h clip)
                           (is_not_None (audio clip)) (getsize file)
                           (Some "unknown") (Some "unknown") (Some 44100)
            end in
          (Ok with_codecs, self')
      end
  end.

(** *** [compute_metrics] *)

(** A value stored in the metrics dictionary. *)
Inductive MetricValue : Type :=
  | MStr (s : string)
  | MNum (q : Q).

(** [round(x, 2)] *)
Definition round2 (x : Q) : Q := (inject_Z (Py.round_half_even (x * 100)) / 100)%Q.

(** The two entries computed from the audio signal.  [rms > 0] holds when
    some sample is not zero; [np.max] raises on an empty signal. *)
Definition lufs_metric (meter : Exc Loudness) : MetricValue :=
  match meter with
  | Ok (Lufs l) => MNum (round2 l)
  | Ok LufsInf => MStr "N/A"
  | Raise _ => MStr "N/A"
  end.

Definition dynamic_range_metric (data : list Q) (crest_db : Q) : MetricValue :=
  match data with
  | [] => MStr "N/A"
  | _ => if forallb (fun x => Qeq_bool x 0) data then MStr "N/A"
         else MNum (round2 crest_db)
  end.

Definition compute_metrics (fs : Files) (self : VideoAnalyzer)
  : Exc (gmap string MetricValue) :=
  match video_clip self with
  | None => Ok ∅
  | Some clip =>
      if h clip =? 0 then Raise "division by zero"
      else
        match fs !! file_path self with
        | None => Raise "No such file or directory"
        | Some file =>
            let metrics : gmap string MetricValue :=
              <["file_size_mb" := MNum (round2 (inject_Z (getsize file) / inject_Z (1024 * 1024)))]>
              (<["aspect_ratio" := MNum (round2 (inject_Z (w clip) / inject_Z (h clip)))]>
              (<["resolution" := MStr (PyFmt.str_int (w clip) +:+ "x" +:+ PyFmt.str_int (h clip))]>
              (<["fps" := MNum (fps clip)]>
              (<["duration_formatted" := MStr (_seconds_to_timestamp (duration clip))]> ∅)))) in
            match audio_data self, sample_rate self with
            | Some data, Some sr =>
                let meter := match audio clip with
                             | Some a => integrated_loudness a
                             | None => Raise "no audio"
                             end in
                let crest := match audio clip with
                             | Some a => crest_factor_db a
                             | None => 0%Q
                             end in
                Ok (<["dynamic_range_db" := dynamic_range_metric data crest]>
                    (<["audio_sample_rate" := MNum (rate sr)]>
                    (<["integrated_lufs" := lufs_metric meter]> metrics)))
            | _, _ => Ok metrics
            end
        end
  end.

(** *** [generate_summary] *)

(** The bullet points, each an f-string kept with its arguments.  The type
    names are a Python [set], joined in an order that Python leaves open. *)
Inductive SummaryPoint : Type :=
  | NoIssuesPoint
  | AudioIssuesPoint (count : nat) (types : gset string)
  | VideoIssuesPoint (count : nat) (types : gset string)
  | HighSeverityPoint (count : nat)
  | VideoPoint (duration_str resolution : MetricValue)
  | LevelsTooQuiet (lufs : Q)
  | LevelsTooLoud (lufs : Q)
  | LevelsAcceptable (lufs : Q).

Record Summary : Type := mkSummary {
  status : string;
  total_issues : nat;
  high_severity_issues : nat;
  points : list SummaryPoint
}.

Definition is_high (i : Issue) : bool := String.eqb (severity i) "high".
Definition is_medium (i : Issue) : bool := String.eqb (severity i) "medium".

Definition issue_types (l : list Issue) : gset string := list_to_set (map i_type l).

Definition generate_summary (audio_issues video_issues : list Issue)
    (metrics : gmap string MetricValue) : Exc Summary :=
  let total_issues := (length audio_issues + length video_issues)%nat in
  let high_severity := length (List.filter is_high (audio_issues ++ video_issues)) in
  (* determine overall status *)
  let status :=
    if (0 <? high_severity)%nat then "FAIL"
    else if (5 <? total_issues)%nat then "FAIL"
    else "PASS" in
  (* generate bullet points *)
  let summary_points :=
    (if (total_issues =? 0)%nat then [NoIssuesPoint]
     else
       (match audio_issues with
        | [] => []
        | _ => [AudioIssuesPoint (length audio_issues) (issue_types audio_issues)]
        end)
       ++ (match video_issues with
           | [] => []
           | _ => [VideoIssuesPoint (length video_issues) (issue_types video_issues)]
           end)
       ++ (if (0 <? high_severity)%nat then [HighSeverityPoint high_severity] else []))
    ++ [VideoPoint (default (MStr "Unknown") (metrics !! "duration_formatted"))
                   (default (MStr "Unknown") (metrics !! "resolution"))] in
  let finish (pts : list SummaryPoint) : Exc Summary :=
    Ok (mkSummary status total_issues high_severity (take 5 pts)) in
  match default (MStr "N/A") (metrics !! "integrated_lufs") with
  | MStr s =>
      if String.eqb s "N/A" then finish summary_points
      else Raise "'<' not supported between instances of 'str' and 'int'"
  | MNum lufs =>
      if Qlt_le_dec lufs (-28) then finish (summary_points ++ [LevelsTooQuiet lufs])
      else if Qlt_le_dec (-12) lufs then finish (summary_points ++ [LevelsTooLoud lufs])
      else finish (summary_points ++ [LevelsAcceptable lufs])
  end.


(** ** The job orchestrator ([analysis_tasks.py], [app_simple.py]) *)

(** The status dictionary; [error] is present only when a non-empty message
    was passed.  [st_timestamp] is the clock reading of
    [datetime.utcnow()]; the synthetic status of an unknown job has none. *)
Record Status : Type := mkStatus {
  st_job_id : string;
  state : string;
  progress : Z;
  stage : string;
  st_timestamp : option nat;
  error : option string
}.

(** The result dictionary. *)
Record Result : Type := mkResult {
  r_job_id : string;
  filename : string;
  analysis_timestamp : nat;
  metadata : Metadata;
  audio_issues : list Issue;
  video_issues : list Issue;
  metrics : gmap string MetricValue;
  summary : Summary
}.

(** The job store: [put]/[get] for statuses and for results. *)
Class JobStore (S : Type) : Type := {
  empty_store : S;
  put_status : string -> Status -> S -> S;
  get_status : S -> string -> option Status;
  put_result : string -> Result -> S -> S;
  get_result : S -> string -> option Result
}.

(** [app_simple.py]: the two module-level dictionaries [job_status] and
    [job_storage]. *)
Record DictStore : Type := mkDictStore {
  job_status : gmap string Status;
  job_storage : gmap string Result
}.

#[export] Instance dict_store : JobStore DictStore := {
  empty_store := mkDictStore ∅ ∅;
  put_status job_id st s := mkDictStore (<[job_id := st]> (job_status s)) (job_storage s);
  get_status s job_id := job_status s !! job_id;
  put_result job_id r s := mkDictStore (job_status s) (<[job_id := r]> (job_storage s));
  get_result s job_id := job_storage s !! job_id
}.

(** [analysis_tasks.py]: Redis, with the keys [job_status:<id>] and
    [job_result:<id>] and a time to live of 3600 seconds.  The two key
    prefixes are kept as two maps; a value is the serialized dictionary
    with its time to live. *)
Record RedisStore : Type := mkRedisStore {
  status_keys : gmap string (Status * Z);
  result_keys : gmap string (Result * Z)
}.

#[export] Instance redis_store : JobStore RedisStore := {
  empty_store := mkRedisStore ∅ ∅;
  put_status job_id st s :=
    mkRedisStore (<["job_status:" +:+ job_id := (st, 3600)]> (status_keys s)) (result_keys s);
  get_status s job_id := fst <$> status_keys s !! ("job_status:" +:+ job_id);
  put_result job_id r s :=
    mkRedisStore (status_keys s) (<["job_result:" +:+ job_id := (r, 3600)]> (result_keys s));
  get_result s job_id := fst <$> result_keys s !! ("job_result:" +:+ job_id)
}.

(** Everything a run reads or writes: the store, the upload folder, the
    clock, and the history of the statuses written so far (kept to state
    properties of runs; the code has no such list). *)
Record World (S : Type) : Type := mkWorld {
  store : S;
  disk : Files;
  clock : nat;
  written : list Status
}.
Arguments mkWorld {S}.
Arguments store {S}.
Arguments disk {S}.
Arguments clock {S}.
Arguments written {S}.

(** Computations that read and write the world and may raise. *)
Definition Run (S A : Type) : Type := World S -> Exc A * World S.

Definition ret {S A} (a : A) : Run S A := fun wld => (Ok a, wld).

Definition bind {S A B} (m : Run S A) (k : A -> Run S B) : Run S B :=
  fun wld => match m wld with
             | (Ok a, wld') => k a wld'
             | (Raise e, wld') => (Raise e, wld')
             end.

Definition lift {S A} (r : Exc A) : Run S A := fun wld => (r, wld).

(** [try: body except Exception as e: handler(str(e))] *)
Definition try_except {S A} (body : Run S A) (handler : string -> Run S A) : Run S A :=
  fun wld => match body wld with
             | (Ok a, wld') => (Ok a, wld')
             | (Raise e, wld') => handler e wld'
             end.

Declare Scope run_scope.
Delimit Scope run_scope with run.
Notation "x <-- m ; k" := (bind m (fun x => k))
  (at level 20, m at level 100, k at level 200, only parsing) : run_scope.
Notation "m >>> k" := (bind m (fun _ => k))
  (at level 100, k at level 200, right associativity, only parsing) : run_scope.

Section Orchestrator.
Context {S : Type} `{JobStore S}.
Local Open Scope run_scope.

(** [datetime.utcnow()]: reading the clock advances it. *)
Definition utcnow : Run S nat :=
  fun wld => (Ok (clock wld),
              mkWorld (store wld) (disk wld) (Datatypes.S (clock wld)) (written wld)).

(** [update_job_status(job_id, state, progress, stage, error)] *)
Definition update_job_status (job_id state : string) (progress : Z) (stage : string)
    (error : option string) : Run S unit :=
  now <-- utcnow ;
  let status :=
    mkStatus job_id state progress stage (Some now)
      (match error with
       | Some e => if String.eqb e EmptyString then None else Some e     (* if error: *)
       | None => None
       end) in
  fun wld => (Ok tt, mkWorld (put_status job_id status (store wld)) (disk wld)
                             (clock wld) (written wld ++ [status])).

(** [update_job_result] / [job_storage[job_id] = result] *)
Definition update_job_result (job_id : string) (result : Result) : Run S unit :=
  fun wld => (Ok tt, mkWorld (put_result job_id result (store wld)) (disk wld)
                             (clock wld) (written wld)).

(** [try: os.remove(file_path) except OSError: pass] *)
Definition remove_upload (path : string) : Run S unit :=
  fun wld => (Ok tt, mkWorld (store wld) (delete path (disk wld)) (clock wld) (written wld)).

Definition read_disk : Run S Files := fun wld => (Ok (disk wld), wld).

(** [os.path.basename(file_path)]: what follows the last ['/']. *)
Definition basename (path : string) : string :=
  List.last (Py.split_on "/"%char path) EmptyString.

(** The body of the [try] block of both workers. *)
Definition run_stages (job_id path : string) : Run S Result :=
  update_job_status job_id "RUNNING" 0 "Starting analysis..." None >>>
  let analyzer := __init__ path in
  update_job_status job_id "RUNNING" 10 "Extracting metadata..." None >>>
  fs <-- read_disk ;
  let '(md, analyzer) := extract_metadata fs analyzer in
  metadata <-- lift md ;
  update_job_status job_id "RUNNING" 30 "Analyzing audio..." None >>>
  let audio_run := analyze_audio analyzer in
  let analyzer := audio_self audio_run in
  audio_issues <-- lift (audio_result audio_run) ;
  update_job_status job_id "RUNNING" 60 "Analyzing video frames..." None >>>
  video_issues <-- lift (analyze_video analyzer) ;
  update_job_status job_id "RUNNING" 80 "Computing metrics..." None >>>
  metrics <-- lift (compute_metrics fs analyzer) ;
  update_job_status job_id "RUNNING" 90 "Compiling report..." None >>>
  now <-- utcnow ;
  summary <-- lift (generate_summary audio_issues video_issues metrics) ;
  let result := mkResult job_id (basename path) now metadata
                         audio_issues video_issues metrics summary in
  update_job_result job_id result >>>
  update_job_status job_id "DONE" 100 "Analysis complete" None >>>
  remove_upload path >>>
  ret result.

(** [analyze_video_sync] of [app_simple.py]: the handler records the error
    and returns. *)
Definition analyze_video_sync (job_id path : string) : Run S unit :=
  try_except
    (run_stages job_id path >>> ret tt)
    (fun error_msg =>
       update_job_status job_id "ERROR" 0 "Analysis failed" (Some error_msg) >>>
       remove_upload path).

(** The Celery task [analyze_video] of [analysis_tasks.py]: the handler
    records the error with the traceback and raises again. *)
Definition analyze_video_task (traceback : string -> string) (job_id path : string)
  : Run S Result :=
  try_except
    (run_stages job_id path)
    (fun error_msg =>
       update_job_status job_id "ERROR" 0 "Analysis failed"
         (Some (error_msg +:+ "
" +:+ traceback error_msg)) >>>
       remove_upload path >>>
       lift (Raise error_msg)).

(** [get_job_status]: the stored status, or the synthetic one. *)
Definition not_found_status (job_id : string) : Status :=
  mkStatus job_id "NOT_FOUND" 0 EmptyString None None.

Definition get_job_status (s : S) (job_id : string) : Status :=
  match get_status s job_id with
  | Some status => status
  | None => not_found_status job_id
  end.

(** [get_job_result] *)
Definition get_job_result (s : S) (job_id : string) : option Result :=
  get_result s job_id.

End Orchestrator.


(** ** The stand-alone analyzer of [test_simple.py] *)

(** The status decision at the end of [analyze_video_simple]. *)
Definition simple_status (audio_issues video_issues : list Issue) : string :=
  let total_issues := (length audio_issues + length video_issues)%nat in
  let high_severity := length (List.filter is_high (audio_issues ++ video_issues)) in
  let medium_severity := length (List.filter is_medium (audio_issues ++ video_issues)) in
  if (0 <? high_severity)%nat then "FAIL"
  else if (2 <? medium_severity)%nat || (5 <? total_issues)%nat then "WARNING"
  else "PASS".

(** The checks of the audio stage of [analyze_video_simple]. *)
Inductive SimpleCheck : Type :=
  | SimpleClipping | SimpleVolume | SimpleDcOffset | SimpleMonoInStereo | SimpleSilence.

Section SimpleAudio.

(** [np.sqrt], which the stage applies to mean squares and variances. *)
Variable np_sqrt : Q -> Q.

(** [audio_mono]: the row means when there are several channels, else the
    flattened array. *)
Definition simple_mono (arr : SoundArray) : list Q :=
  match arr with
  | Mono samples => samples
  | MultiChannel O rows => map fst rows
  | MultiChannel _ rows => to_mono arr
  end.

Definition simple_clipping (video_duration : Q) (mono : list Q) : list Issue :=
  let clipped_samples := map (fun x => Qle_bool 0.95 (Qabs x)) mono in
  if Np.any clipped_samples then
    let clip_percentage :=
      (inject_Z (Z.of_nat (length (List.filter id clipped_samples)))
       / inject_Z (Z.of_nat (length mono)) * 100)%Q in
    if Qlt_le_dec 0.01 clip_percentage then
      [mkIssue "clipping" "00:00:00.000" video_duration
         (if Qlt_le_dec 0.5 clip_percentage then "high" else "medium")
         ("Audio clipping detected (" +:+ PyFmt.fmt_f 3 clip_percentage +:+ "% of samples)")
         "Reduce input gain or apply limiting before encoding"]
    else []
  else [].

Definition simple_volume (video_duration : Q) (mono : list Q) : list Issue :=
  match Np.mean (map (fun x => x * x)%Q mono) with
  | None => []                                        (* nan compares false *)
  | Some mean_square =>
      let rms := np_sqrt mean_square in
      if Qlt_le_dec rms 0.05 then
        [mkIssue "low_volume" "00:00:00.000" video_duration "medium"
           ("Audio levels very low (RMS: " +:+ PyFmt.fmt_f 4 rms +:+ ")")
           "Increase audio levels or apply normalization"]
      else if Qlt_le_dec 0.8 rms then
        [mkIssue "high_volume" "00:00:00.000" video_duration "medium"
           ("Audio levels very high (RMS: " +:+ PyFmt.fmt_f 4 rms +:+ ")")
           "Reduce audio levels to prevent distortion"]
      else []
  end.

Definition simple_dc_offset (video_duration : Q) (mono : list Q) : list Issue :=
  match Np.mean mono with
  | None => []
  | Some dc_offset =>
      if Qlt_le_dec 0.01 (Qabs dc_offset) then
        [mkIssue "dc_offset" "00:00:00.000" video_duration "low"
           ("DC offset detected (" +:+ PyFmt.fmt_f 4 dc_offset +:+ ")")
           "Apply high-pass filter to remove DC component"]
      else []
  end.

(** [np.corrcoef(left, right)[0, 1]]: the covariance divided by both
    standard deviations, clipped to [[-1, 1]]. *)
Definition covariance (xs ys : list Q) : Q :=
  let n := inject_Z (Z.of_nat (length xs)) in
  let mx := (Np.sumQ xs / n)%Q in
  let my := (Np.sumQ ys / n)%Q in
  (Np.sumQ (map (fun p : Q * Q => (fst p - mx) * (snd p - my))%Q (combine xs ys))
   / (n - 1))%Q.

Definition corrcoef (xs ys : list Q) : Q :=
  let c := (covariance xs ys / np_sqrt (covariance xs xs)
            / np_sqrt (covariance ys ys))%Q in
  if Qlt_le_dec 1 c then 1%Q else if Qlt_le_dec c (-1) then (-1)%Q else c.

Definition simple_mono_in_stereo (video_duration : Q) (arr : SoundArray) : list Issue :=
  match arr with
  | MultiChannel 1 rows =>
      let left_channel := map fst rows in
      let right_channel := map (fun row : Q * list Q => hd 0%Q (snd row)) rows in
      let correlation := corrcoef left_channel right_channel in
      if Qlt_le_dec 0.99 correlation then
        [mkIssue "mono_in_stereo" "00:00:00.000" video_duration "low"
           ("Mono audio in stereo file (correlation: " +:+ PyFmt.fmt_f 3 correlation +:+ ")")
           "Convert to true mono or add stereo content"]
      else []
  | _ => []
  end.

(** [for i in range(0, len(audio_mono) - window_size, window_size)], with
    [fuel] bounding the number of windows. *)
Fixpoint simple_windows (fuel : nat) (sr : positive) (window_size : Z) (i : Z)
    (mono : list Q) : list Issue :=
  match fuel with
  | O => []
  | Datatypes.S fuel' =>
      if i <? Z.of_nat (length mono) - window_size then
        let window := take (Z.to_nat window_size) (drop (Z.to_nat i) mono) in
        let here :=
          match Np.mean (map (fun x => x * x)%Q window) with
          | None => []
          | Some mean_square =>
              let window_rms := np_sqrt mean_square in
              if Qlt_le_dec window_rms 0.001 then
                [mkIssue "silence" (_seconds_to_timestamp (inject_Z i / rate sr)) 0.5 "low"
                   ("Silent section detected (RMS: " +:+ PyFmt.fmt_f 6 window_rms +:+ ")")
                   "Check for unintended gaps in audio"]
              else []
          end in
        here ++ simple_windows fuel' sr window_size (i + window_size) mono
      else []
  end.

(** The audio stage of [analyze_video_simple]: the issues appended to
    [result['audio_issues']] and the checks that ran. *)
Definition simple_audio_stage (video : VideoClip) : list Issue * list SimpleCheck :=
  match audio video with
  | Some audio_clip =>
      match to_soundarray audio_clip with
      | Raise e =>
          ([mkIssue "analysis_error" "00:00:00.000" 0 "low"
              ("Audio analysis failed: " +:+ e) "Check audio format compatibility"], [])
      | Ok audio_array =>
          let audio_mono := simple_mono audio_array in
          let sr := audio_fps audio_clip in
          let first_checks :=
            simple_clipping (duration video) audio_mono
            ++ simple_volume (duration video) audio_mono
            ++ simple_dc_offset (duration video) audio_mono
            ++ simple_mono_in_stereo (duration video) audio_array in
          let window_size := Z.pos sr / 2 in          (* int(sample_rate * 0.5) *)
          if window_size =? 0 then
            (* range() arg 3 must not be zero *)
            (first_checks
             ++ [mkIssue "analysis_error" "00:00:00.000" 0 "low"
                   "Audio analysis failed: range() arg 3 must not be zero"
                   "Check audio format compatibility"],
             [SimpleClipping; SimpleVolume; SimpleDcOffset; SimpleMonoInStereo])
          else
            (first_checks
             ++ simple_windows (length audio_mono) sr window_size 0 audio_mono,
             [SimpleClipping; SimpleVolume; SimpleDcOffset; SimpleMonoInStereo;
              SimpleSilence])
      end
  | None =>
      (* no audio track *)
      ([mkIssue "no_audio" "00:00:00.000" (duration video) "medium"
          "No audio track detected in video file"
          "Add audio track if audio is expected"], [])
  end.

End SimpleAudio.


(* ================================================================== *)
(** * Vocabulary of the specification *)
(* ================================================================== *)

(** ** Summary policy *)

(** The canonical status policy in the words of the specification: FAIL if
    there is a high-severity issue; else WARNING if more than two issues
    are of medium severity or there are more than five issues; else PASS. *)
Definition canonical_status (audio_issues video_issues : list Issue) : string :=
  let all := audio_issues ++ video_issues in
  let high := length (List.filter is_high all) in
  let medium := length (List.filter is_medium all) in
  let total := length all in
  if (0 <? high)%nat then "FAIL"
  else if (2 <? medium)%nat || (5 <? total)%nat then "WARNING"
  else "PASS".

(** The metrics dictionaries on which [generate_summary] does not raise:
    the loudness entry is absent, a number, or the string ['N/A']. *)
Definition lufs_entry_ok (metrics : gmap string MetricValue) : Prop :=
  forall s, metrics !! "integrated_lufs" = Some (MStr s) -> s = "N/A".

(** ** Sample handles used in the examples *)

(** A clip without audio whose frames are all the gray frame [frame]. *)
Definition still_clip (seconds : Q) (frame : GrayFrame) : VideoClip :=
  mkVideoClip seconds 25 1280 720 None (fun _ => Ok frame).

(** A clip without audio none of whose frames can be decoded. *)
Definition broken_clip (seconds : Q) : VideoClip :=
  mkVideoClip seconds 25 1280 720 None (fun _ => Raise "decode error").

(** An analyzer on which [extract_metadata] has loaded [clip]. *)
Definition loaded (clip : VideoClip) : VideoAnalyzer :=
  mkVideoAnalyzer "uploads/clip.mp4" (Some clip) None None.

(** An upload folder that holds one file, three seconds of black frames. *)
Definition one_upload : Files :=
  {[ "uploads/7c3d_b.mp4" :=
       mkMediaFile (Ok (still_clip 3 [0; 0; 0; 0])) 1048576 (Raise "ffprobe not found") ]}.


(** An upload folder that holds one file, which does not open as a video. *)
Definition corrupt_upload : Files :=
  {[ "uploads/5d0e_c.mp4" :=
       mkMediaFile (Raise "moov atom not found") 2048 (Raise "ffprobe not found") ]}.

(** Eight seconds of video whose frame changes at every sample except from
    2 s to 5 s, where four consecutive samples show the same frame. *)
Definition paused_clip : VideoClip :=
  mkVideoClip 8 25 1280 720 None
    (fun t => Ok (if Qle_bool 2 t && Qle_bool t 5
                  then [200; 200; 200; 200]
                  else [10 * Qfloor t; 90; 10 * Qfloor t; 90])).

(** Eight seconds of video that flickers: the sampled frames alternate
    between a uniform gray of 40 and a uniform gray of 200. *)
Definition flicker_clip : VideoClip :=
  mkVideoClip 8 25 1280 720 None
    (fun t => Ok (if Z.even (Qfloor t) then [40; 40; 40; 40] else [200; 200; 200; 200])).

(** ** Job traces *)

Definition is_terminal (s : Status) : Prop := state s = "DONE" \/ state s = "ERROR".

(** The statuses written for one job, oldest first. *)
Definition job_writes {S : Type} (job_id : string) (wld : World S) : list Status :=
  List.filter (fun s => String.eqb (st_job_id s) job_id) (written wld).

(** The claim as it is written: progress never decreases among the writes
    of the run up to and including the first terminal one. *)
Definition progress_monotone_through_terminal (tr : list Status) : Prop :=
  forall (i j : nat) (si sj : Status),
    (i <= j)%nat -> tr !! i = Some si -> tr !! j = Some sj ->
    (forall (k : nat) (sk : Status), (k < j)%nat -> tr !! k = Some sk -> ~ is_terminal sk) ->
    progress si <= progress sj.

(** The same with one exception: an ERROR write is not compared with the
    writes before it.  The RUNNING writes and a DONE write are. *)
Definition progress_monotone_through_done (tr : list Status) : Prop :=
  forall (i j : nat) (si sj : Status),
    (i <= j)%nat -> tr !! i = Some si -> tr !! j = Some sj ->
    (forall (k : nat) (sk : Status), (k < j)%nat -> tr !! k = Some sk -> ~ is_terminal sk) ->
    state sj <> "ERROR" ->
    progress si <= progress sj.

(** The progress carried by the last write: 100 with DONE, 0 with ERROR. *)
Definition terminal_progress (tr : list Status) : Prop :=
  forall (earlier : list Status) (s : Status),
    tr = earlier ++ [s] ->
    (state s = "DONE" -> progress s = 100) /\ (state s = "ERROR" -> progress s = 0).

(** Once a terminal status has been written, no later write is RUNNING. *)
Definition no_running_after_terminal (tr : list Status) : Prop :=
  forall (i j : nat) (si sj : Status),
    (i < j)%nat -> tr !! i = Some si -> is_terminal si -> tr !! j = Some sj ->
    state sj <> "RUNNING".

(** The last write is terminal. *)
Definition ends_terminal (tr : list Status) : Prop :=
  exists earlier s, tr = earlier ++ [s] /\ is_terminal s.

(** RUNNING writes of [job_id] with non-decreasing progress. *)
Definition checkpoints (job_id : string) (running : list Status) : Prop :=
  Forall (fun s => st_job_id s = job_id /\ state s = "RUNNING") running
  /\ StronglySorted Z.le (map progress running).

(** The shape of the writes of one run: checkpoints, then one terminal
    status. *)
Definition run_shape (job_id : string) (new : list Status) : Prop :=
  exists running terminal,
    new = running ++ [terminal]
    /\ checkpoints job_id running
    /\ st_job_id terminal = job_id
    /\ is_terminal terminal
    /\ (state terminal = "DONE" ->
        progress terminal = 100 /\ Forall (fun p => p <= 100) (map progress running))
    /\ (state terminal = "ERROR" -> progress terminal = 0).

(** A world in which nothing has run yet. *)
Definition fresh_world {S : Type} `{JobStore S} (files : Files) : World S :=
  mkWorld empty_store files 0 [].


(** ** Runs of flagged samples *)

(** The flag at position [i]; positions outside the array are not flagged. *)
Definition flag_at (flags : list bool) (i : Z) : bool :=
  if i <? 0 then false else nth (Z.to_nat i) flags false.

(** [[s, e)] is a maximal contiguous run of flagged positions: every
    position in it is flagged, and the positions just before and just after
    it are not (or lie outside the array). *)
Definition maximal_run (flags : list bool) (s e : Z) : Prop :=
  0 <= s < e /\ e <= Z.of_nat (length flags)
  /\ (forall i, s <= i < e -> flag_at flags i = true)
  /\ flag_at flags (s - 1) = false
  /\ flag_at flags e = false.

(** Spans listed in increasing order with a gap before each next one:
    pairwise disjoint, and not even adjacent. *)
Definition separated (spans : list (Z * Z)) : Prop :=
  StronglySorted (fun a b : Z * Z => snd a < fst b) spans.

(** A left-to-right scan for the runs, used to reason about the array
    pipeline: [cur] is the start of the run that is open at position [i]. *)
Fixpoint runs_from (i : Z) (cur : option Z) (flags : list bool) : list (Z * Z) :=
  match flags with
  | [] => match cur with Some s => [(s, i)] | None => [] end
  | true :: r => runs_from (i + 1) (Some (default i cur)) r
  | false :: r =>
      match cur with
      | Some s => (s, i) :: runs_from (i + 1) None r
      | None => runs_from (i + 1) None r
      end
  end.

(** What the scan knows at position [i]. *)
Definition scan_state (flags : list bool) (i : Z) (cur : option Z) : Prop :=
  match cur with
  | None => flag_at flags (i - 1) = false
  | Some s => 0 <= s < i /\ (forall j, s <= j < i -> flag_at flags j = true)
              /\ flag_at flags (s - 1) = false
  end.


(** ** Ordered issue lists *)

(** Every timestamp of the list converts to seconds, and the converted
    values are in ascending order. *)
Definition ascending_by_timestamp (l : list Issue) : Prop :=
  exists keys : list Q,
    Forall2 (fun i k => _timestamp_to_seconds (timestamp i) = Some k) l keys
    /\ StronglySorted Qle keys.

(** The timestamp of the issue converts to seconds. *)
Definition valid_timestamp (i : Issue) : Prop :=
  exists k, _timestamp_to_seconds (timestamp i) = Some k.


(** The order on keyed issues, and the issues paired with their own key. *)
Definition key_le (a b : Q * Issue) : Prop := (fst a <= fst b)%Q.

Definition keyed (p : Q * Issue) : Prop :=
  _timestamp_to_seconds (timestamp (snd p)) = Some (fst p).


(** ** Frozen spans *)

(** The tests that the sampling loop of [analyze_video] performs, in order:
    the time of the sample and the outcome of the loop's own test,
    [psnr_above_45] on the mean of the squares that the byte arithmetic of
    [frame_mse] yields.  This is the test of the code, not the PSNR of the
    two pictures: see [psnr_exceeds_45] for that.  The first analysed frame
    and the samples that cannot be analysed give no test. *)
Fixpoint loop_tests (clip : VideoClip) (prev : option GrayFrame) (times : list Q)
  : list (Q * bool) :=
  match times with
  | [] => []
  | t :: r =>
      match get_frame clip t with
      | Raise _ => loop_tests clip prev r
      | Ok g =>
          match prev with
          | None => loop_tests clip (Some g) r
          | Some p =>
              match frame_mse g p with
              | Raise _ => loop_tests clip prev r
              | Ok mse => (t, psnr_above_45 mse) :: loop_tests clip (Some g) r
              end
          end
      end
  end.

(** The similarity test between a frame and the one sampled before it. *)
Definition similar (gray prev : GrayFrame) : bool :=
  match frame_mse gray prev with
  | Ok mse => psnr_above_45 mse
  | Raise _ => false
  end.

(** The tests between consecutive frames of a fully decoded sequence. *)
Fixpoint consecutive_tests (prev : GrayFrame) (samples : list (Q * GrayFrame))
  : list (Q * bool) :=
  match samples with
  | [] => []
  | (t, g) :: r => (t, similar g prev) :: consecutive_tests g r
  end.

Definition is_frozen (i : Issue) : bool := String.eqb (i_type i) "frozen_frame".

(** A run of [e - s] similar samples spans more than two seconds. *)
Definition long_run (span : Z * Z) : bool := 2 <? snd span - fst span.

(** The issue that reports the run [[s, e)] of the tests [comps]: it starts
    one sampling interval before the first similar sample, lasts one
    interval per similar sample, and is of high severity beyond five
    seconds. *)
Definition reports_frozen_run (comps : list (Q * bool)) (span : Z * Z) (issue : Issue)
  : Prop :=
  i_type issue = "frozen_frame"
  /\ timestamp issue
     = _seconds_to_timestamp
         (fst (nth (Z.to_nat (fst span)) comps (0%Q, false)) - sample_interval)
  /\ (i_duration issue == inject_Z (snd span - fst span))%Q
  /\ severity issue = (if 5 <? snd span - fst span then "high" else "medium").

(** What the loop variables hold when the scan is at test [i] with the run
    [cur] open. *)
Definition frozen_state (comps : list (Q * bool)) (i : Z) (cur : option Z)
    (st : FrameLoop) : Prop :=
  match cur with
  | None => frozen_start st = None /\ (frozen_duration st == 0)%Q
  | Some s =>
      0 <= s < i
      /\ frozen_start st
         = Some (fst (nth (Z.to_nat s) comps (0%Q, false)) - sample_interval)%Q
      /\ (frozen_duration st == inject_Z (i - s))%Q
  end.


(** ** Similarity in the words of the specification *)

(** The mean squared error of two pictures: the mean of the squares of the
    differences of the pixel values, taken on the integers.  Pictures of
    different sizes have none. *)
Definition pixel_mse (gray prev : GrayFrame) : option Q :=
  if (length gray =? length prev)%nat
  then Np.mean (map (fun p : Z * Z => inject_Z ((fst p - snd p) ^ 2)) (combine gray prev))
  else None.

(** "Similarity exceeds the threshold (PSNR > 45 dB)": the PSNR is
    [20 log10 (255 / sqrt MSE)], infinite for identical pictures, so it
    exceeds 45 exactly when [MSE = 0] or [MSE ** 2 * 10 ** 9 < 255 ** 4]. *)
Definition psnr_exceeds_45 (gray prev : GrayFrame) : bool :=
  match pixel_mse gray prev with
  | None => false
  | Some mse =>
      Qeq_bool mse 0 || negb (Qle_bool (inject_Z (255 ^ 4)) (mse * mse * inject_Z (10 ^ 9)))
  end.

(** The flags of the claim: for every decoded sample but the first, whether
    its PSNR against the sample decoded before it exceeds 45 dB. *)
Fixpoint psnr_flags (clip : VideoClip) (prev : option GrayFrame) (times : list Q)
  : list bool :=
  match times with
  | [] => []
  | t :: r =>
      match get_frame clip t with
      | Raise _ => psnr_flags clip prev r
      | Ok g =>
          match prev with
          | None => psnr_flags clip (Some g) r
          | Some p => psnr_exceeds_45 g p :: psnr_flags clip (Some g) r
          end
      end
  end.

(** ** Stores and histories *)

(** What the orchestrator relies on from a store: a status is read back
    under the identifier it was written for, and under no other; storing a
    result does not touch the statuses. *)
Class JobStoreLaws (S : Type) `{JobStore S} : Prop := {
  get_status_empty : forall j, get_status empty_store j = None;
  get_put_status_eq : forall s j st, get_status (put_status j st s) j = Some st;
  get_put_status_ne :
    forall s j j' st, j <> j' -> get_status (put_status j st s) j' = get_status s j';
  get_status_put_result :
    forall s j j' r, get_status (put_result j r s) j' = get_status s j'
}.

(** The last status written for [job_id] in a history, if any. *)
Fixpoint last_write (job_id : string) (history : list Status) : option Status :=
  match history with
  | [] => None
  | s :: r =>
      match last_write job_id r with
      | Some s' => Some s'
      | None => if String.eqb (st_job_id s) job_id then Some s else None
      end
  end.

(** The store holds, for every job, the last status written for it. *)
Definition consistent {S : Type} `{JobStore S} (wld : World S) : Prop :=
  forall j, get_status (store wld) j = last_write j (written wld).

(** The worlds that the workers produce from a fresh one. *)
Inductive reachable {S : Type} `{JobStore S} : World S -> Prop :=
  | reach_fresh (files : Files) : reachable (fresh_world files)
  | reach_upload (wld : World S) (path : string) (file : MediaFile) :
      reachable wld ->
      reachable (mkWorld (store wld) (<[path := file]> (disk wld)) (clock wld) (written wld))
  | reach_sync (wld : World S) (job_id path : string) :
      reachable wld -> reachable (snd (analyze_video_sync job_id path wld))
  | reach_task (wld : World S) (traceback : string -> string) (job_id path : string) :
      reachable wld -> reachable (snd (analyze_video_task traceback job_id path wld)).

(** A computation keeps an invariant of the world, whatever it returns. *)
Definition preserves {S A : Type} (P : World S -> Prop) (m : Run S A) : Prop :=
  forall wld, P wld -> P (snd (m wld)).


(* ================================================================== *)
(** * Further vocabulary *)
(* ================================================================== *)

(** ** Results in the store *)

(** A result is read back under the identifier it was stored for, and
    under no other; writing a status does not touch the results. *)
Class ResultStoreLaws (S : Type) `{JobStore S} : Prop := {
  get_result_empty : forall j, get_result empty_store j = None;
  get_put_result_eq : forall s j r, get_result (put_result j r s) j = Some r;
  get_put_result_ne :
    forall s j j' r, j <> j' -> get_result (put_result j r s) j' = get_result s j';
  get_result_put_status :
    forall s j j' st, get_result (put_status j st s) j' = get_result s j'
}.


(** ** Summaries *)

(** The point that reports the loudness [lufs]. *)
Definition levels_point (lufs : Q) : SummaryPoint :=
  if Qlt_le_dec lufs (-28) then LevelsTooQuiet lufs
  else if Qlt_le_dec (-12) lufs then LevelsTooLoud lufs
  else LevelsAcceptable lufs.

(** ** Black frames *)

Definition is_black (i : Issue) : bool := String.eqb (i_type i) "black_frame".

(** The black-frame issue of the sample at [t], if the frame decodes and
    its mean brightness is below 8. *)
Definition black_at (clip : VideoClip) (t : Q) : list Issue :=
  match get_frame clip t with
  | Ok g =>
      match mean_brightness g with
      | Some b => if Qlt_le_dec b 8 then [black_frame_issue t b] else []
      | None => []
      end
  | Raise _ => []
  end.

(** ** Groups of glitch frames *)

(** Neighbours inside a group are at most two frames apart. *)
Definition close_steps (g : list Z) : Prop :=
  forall (k : nat) (a b : Z), g !! k = Some a -> g !! Datatypes.S k = Some b -> b - a <= 2.

(** A group starts more than two frames after the end of the group before
    it. *)
Definition far_apart (groups : list (list Z)) : Prop :=
  forall (k : nat) (g g' : list Z),
    groups !! k = Some g -> groups !! Datatypes.S k = Some g' ->
    2 < hd 0 g' - List.last g 0.


(* ================================================================== *)
(** * The web front ends *)
(* ================================================================== *)

(** ** [allowed_file] *)

(** [str.lower()] on ASCII text: the capital letters are mapped to the
    small ones and every other character is kept.  (On other code points
    Python consults the Unicode tables; the properties below are stated
    for ASCII extensions.) *)
Definition ascii_lower (a : ascii) : ascii :=
  let n := nat_of_ascii a in
  if (65 <=? n)%nat && (n <=? 90)%nat then ascii_of_nat (n + 32) else a.

Fixpoint str_lower (s : string) : string :=
  match s with
  | EmptyString => EmptyString
  | String a r => String (ascii_lower a) (str_lower r)
  end.

Definition is_ascii (a : ascii) : bool := (nat_of_ascii a <? 128)%nat.

(** [c in s] for a character [c]. *)
Definition contains (c : ascii) (s : string) : bool :=
  negb (Py.string_forall (Py.differs c) s).

(** [s.rsplit(c, 1)] when [c] occurs in [s]: what precedes and what
    follows the last occurrence; [None] when [c] does not occur (the list
    has one element then). *)
Fixpoint rsplit1 (c : ascii) (s : string) : option (string * string) :=
  match s with
  | EmptyString => None
  | String a r =>
      match rsplit1 c r with
      | Some (before, after) => Some (String a before, after)
      | None => if Ascii.eqb a c then Some (EmptyString, r) else None
      end
  end.

(** [ALLOWED_EXTENSIONS] of [app.py], [app_simple.py] and
    [test_simple.py], and the reduced set of [app_free.py]. *)
Definition ALLOWED_EXTENSIONS : list string :=
  ["mp4"; "mov"; "mkv"; "avi"; "wmv"; "flv"; "webm"; "m4v"].

Definition ALLOWED_EXTENSIONS_free : list string := ["mp4"; "mov"; "avi"; "webm"].

(** ['.' in filename and filename.rsplit('.', 1)[1].lower() in allowed];
    the second operand is evaluated only when the first holds, so the list
    has two elements whenever it is indexed. *)
Definition allowed_file (allowed : list string) (filename : string) : bool :=
  contains "." filename
  && match rsplit1 "." filename with
     | Some (_, ext) => existsb (String.eqb (str_lower ext)) allowed
     | None => false
     end.

(** ** [stream_progress] *)

(** What the generators yield: a status dictionary, or the two-entry
    dictionary [{'state': 'ERROR', 'error': 'Timeout'}] of [app_free.py]. *)
Inductive StreamEvent : Type :=
  | StatusEvent (st : Status)
  | TimeoutEvent.

(** [status['state'] in ['DONE', 'ERROR']] *)
Definition is_final (st : Status) : bool :=
  String.eqb (state st) "DONE" || String.eqb (state st) "ERROR".

Section Streams.
Context {S : Type} `{JobStore S}.

(** The store changes between two polls, as the worker writes to it:
    [stores k] is the store as the [k]-th poll finds it.  The loops of
    [app_simple.py] and [app.py] are [while True]; [fuel] bounds the number
    of polls, and the flag tells whether the generator has returned. *)
Variable stores : nat -> S.

(** [app_simple.py]: an unknown job ends the stream. *)
Fixpoint stream_progress_simple (fuel : nat) (job_id : string) (k : nat)
  : list StreamEvent * bool :=
  match fuel with
  | O => ([], false)
  | Datatypes.S fuel' =>
      match get_status (stores k) job_id with
      | Some status =>
          if is_final status then ([StatusEvent status], true)
          else let '(events, returned) := stream_progress_simple fuel' job_id (Datatypes.S k) in
               (StatusEvent status :: events, returned)
      | None => ([StatusEvent (not_found_status job_id)], true)
      end
  end.

(** [app.py]: every poll is yielded, and only DONE or ERROR ends the
    stream. *)
Fixpoint stream_progress (fuel : nat) (job_id : string) (k : nat)
  : list StreamEvent * bool :=
  match fuel with
  | O => ([], false)
  | Datatypes.S fuel' =>
      let status := get_job_status (stores k) job_id in
      if is_final status then ([StatusEvent status], true)
      else let '(events, returned) := stream_progress fuel' job_id (Datatypes.S k) in
           (StatusEvent status :: events, returned)
  end.

(** [app_free.py]: at most [max_iterations] polls, then the timeout
    event; [remaining] is [max_iterations - iteration]. *)
Definition max_iterations : nat := 300.

Fixpoint stream_progress_free_from (remaining : nat) (job_id : string) (k : nat)
  : list StreamEvent :=
  match remaining with
  | O => [TimeoutEvent]
  | Datatypes.S remaining' =>
      let status := get_job_status (stores k) job_id in
      StatusEvent status
        :: (if is_final status then []
            else stream_progress_free_from remaining' job_id (Datatypes.S k))
  end.

Definition stream_progress_free (job_id : string) : list StreamEvent :=
  stream_progress_free_from max_iterations job_id 0.

End Streams.

(** An event that lets the stream go on: a status that is not final. *)
Definition goes_on (e : StreamEvent) : Prop :=
  exists st, e = StatusEvent st /\ is_final st = false.

(** An event that closes the stream of [app_free.py]. *)
Definition closes (e : StreamEvent) : Prop :=
  e = TimeoutEvent \/ exists st, e = StatusEvent st /\ is_final st = true.


(* ================================================================== *)
(** * The video stage and the report of [test_simple.py] *)
(* ================================================================== *)

(** [cv2.absdiff(gray, prev_frame)]: the absolute differences, without
    wrap-around; frames of different sizes are refused. *)
Fixpoint absdiff (gray prev : GrayFrame) : Exc (list Z) :=
  match gray, prev with
  | [], [] => Ok []
  | a :: g, b :: p =>
      match absdiff g p with
      | Ok r => Ok (Z.abs (a - b) :: r)
      | Raise m => Raise m
      end
  | _, _ => Raise "Sizes of input arguments do not match"
  end.

(** [np.arange(0, duration, 2.0)] *)
Definition simple_sample_times (stop : Q) : list Q :=
  map (fun k : nat => (inject_Z (Z.of_nat k) * 2)%Q) (seq 0 (Z.to_nat (Qceiling (stop / 2)))).

(** The local variables of the sampling loop of [analyze_video_simple]. *)
Record SimpleLoop : Type := mkSimpleLoop {
  s_issues : list Issue;
  s_prev_frame : option GrayFrame;
  frame_count : nat;
  black_frame_count : nat;
  frozen_frame_count : nat
}.

(** [result['summary']]; the error report has no medium count.  The
    bullet points are left out. *)
Record SimpleSummary : Type := mkSimpleSummary {
  ss_status : string;
  ss_total_issues : nat;
  ss_high_severity_issues : nat;
  ss_medium_severity_issues : option nat
}.

(** What [analyze_video_simple] returns: the two issue lists, the three
    counters of [result['metrics']] (absent from the empty dictionary of
    the error report), the summary, and the message of the error report.
    The metadata and the other metrics are left out. *)
Record SimpleReport : Type := mkSimpleReport {
  sr_audio_issues : list Issue;
  sr_video_issues : list Issue;
  sr_counters : option (nat * nat * nat);
  sr_summary : SimpleSummary;
  sr_error : option string
}.

Section SimpleVideo.

(** [np.sqrt], and the text that an f-string prints for a float. *)
Variable np_sqrt : Q -> Q.
Variable repr_float : Q -> string.

Definition simple_frame_error (t : Q) (e : string) : Issue :=
  mkIssue "frame_analysis_error" (_seconds_to_timestamp t) 0 "low"
    ("Frame analysis error: " +:+ e) "Frame may be corrupted or unsupported".

Definition simple_black_issue (t : Q) (brightness : Q) : Issue :=
  mkIssue "black_frame" (_seconds_to_timestamp t) 2
    (if Qlt_le_dec brightness 5 then "high" else "medium")
    ("Dark/black frame detected (brightness: " +:+ PyFmt.fmt_f 1 brightness +:+ "/255)")
    "Check for encoding issues or intentional black frames".

Definition simple_frozen_issue (t : Q) (diff_mean : Q) : Issue :=
  mkIssue "frozen_frame" (_seconds_to_timestamp t) 2 "medium"
    ("Potential frozen frame detected (difference: " +:+ PyFmt.fmt_f 2 diff_mean +:+ ")")
    "Check for encoding or source material issues".

Definition low_resolution_issue (video : VideoClip) : Issue :=
  mkIssue "low_resolution" "00:00:00.000" (duration video) "medium"
    ("Low resolution video (" +:+ PyFmt.str_int (w video) +:+ "x"
     +:+ PyFmt.str_int (h video) +:+ ")")
    "Consider using higher resolution source material".

Definition low_framerate_issue (video : VideoClip) : Issue :=
  mkIssue "low_framerate" "00:00:00.000" (duration video) "low"
    ("Low frame rate detected (" +:+ repr_float (fps video) +:+ " FPS)")
    "Consider using higher frame rate for smoother playback".

(** [video.w < 720 or video.h < 480] and [video.fps < 24] *)
Definition low_resolution (video : VideoClip) : bool := (w video <? 720) || (h video <? 480).

Definition low_framerate (video : VideoClip) : bool :=
  if Qlt_le_dec (fps video) 24 then true else false.

(** The two issues that are appended for the first analysed frame only. *)
Definition first_frame_issues (video : VideoClip) (count : nat) : list Issue :=
  (if low_resolution video && (count =? 1)%nat then [low_resolution_issue video] else [])
  ++ (if low_framerate video && (count =? 1)%nat then [low_framerate_issue video] else []).

(** One iteration of [for t in sample_times].  An exception leaves the
    iteration where it is raised: what was appended and counted before
    stays, and [prev_frame] is not updated. *)
Definition simple_frame_step (video : VideoClip) (st : SimpleLoop) (t : Q) : SimpleLoop :=
  match get_frame video t with
  | Raise e =>
      mkSimpleLoop (s_issues st ++ [simple_frame_error t e]) (s_prev_frame st)
                   (frame_count st) (black_frame_count st) (frozen_frame_count st)
  | Ok gray =>
      let count := Datatypes.S (frame_count st) in
      (* black frame detection; a nan mean compares false *)
      let '(issues1, black1) :=
        match mean_brightness gray with
        | Some b =>
            if Qlt_le_dec b 20
            then (s_issues st ++ [simple_black_issue t b], Datatypes.S (black_frame_count st))
            else (s_issues st, black_frame_count st)
        | None => (s_issues st, black_frame_count st)
        end in
      (* frozen frame detection *)
      match s_prev_frame st with
      | None =>
          mkSimpleLoop (issues1 ++ first_frame_issues video count) (Some gray)
                       count black1 (frozen_frame_count st)
      | Some prev =>
          match absdiff gray prev with
          | Raise e =>
              mkSimpleLoop (issues1 ++ [simple_frame_error t e]) (s_prev_frame st)
                           count black1 (frozen_frame_count st)
          | Ok frame_diff =>
              let '(issues2, frozen2) :=
                match Np.mean (map inject_Z frame_diff) with
                | Some diff_mean =>
                    if Qlt_le_dec diff_mean 2
                    then (issues1 ++ [simple_frozen_issue t diff_mean],
                          Datatypes.S (frozen_frame_count st))
                    else (issues1, frozen_frame_count st)
                | None => (issues1, frozen_frame_count st)
                end in
              mkSimpleLoop (issues2 ++ first_frame_issues video count) (Some gray)
                           count black1 frozen2
          end
      end
  end.

Definition simple_video_stage (video : VideoClip) : SimpleLoop :=
  fold_left (simple_frame_step video) (simple_sample_times (duration video))
            (mkSimpleLoop [] None 0 0 0).

(** The report of the outer [except]. *)
Definition simple_error_report (e : string) : SimpleReport :=
  mkSimpleReport [] [] None (mkSimpleSummary "ERROR" 1 1 None) (Some e).

(** [analyze_video_simple(file_path)].  Outside the two inner handlers only
    the opening of the file and the aspect ratio [video.w / video.h] can
    raise. *)
Definition analyze_video_simple (fs : Files) (file_path : string) : SimpleReport :=
  match fs !! file_path with
  | None => simple_error_report "file does not exist"
  | Some file =>
      match open_clip file with
      | Raise e => simple_error_report e
      | Ok video =>
          let loop := simple_video_stage video in
          let audio_issues := fst (simple_audio_stage np_sqrt video) in
          let video_issues := s_issues loop in
          if h video =? 0 then simple_error_report "division by zero"
          else
            let all := audio_issues ++ video_issues in
            mkSimpleReport audio_issues video_issues
              (Some (frame_count loop, black_frame_count loop, frozen_frame_count loop))
              (mkSimpleSummary (simple_status audio_issues video_issues)
                 (length audio_issues + length video_issues)
                 (length (List.filter is_high all))
                 (Some (length (List.filter is_medium all))))
              None
      end
  end.

End SimpleVideo.

(** The issue types counted below, and the samples that decode. *)
Definition is_low_resolution (i : Issue) : bool := String.eqb (i_type i) "low_resolution".
Definition is_low_framerate (i : Issue) : bool := String.eqb (i_type i) "low_framerate".

Definition decodes (video : VideoClip) (t : Q) : bool :=
  match get_frame video t with Ok _ => true | Raise _ => false end.

(** What the sampling loop maintains between two iterations: the
    counters agree with the issue list, the two first-frame issues are
    there once an analysed frame has called for them, a previous frame is
    kept exactly when a frame has been analysed, and the frozen-frame
    issues are of one shape. *)
Definition counters_agree (video : VideoClip) (st : SimpleLoop) : Prop :=
  black_frame_count st = length (List.filter is_black (s_issues st))
  /\ frozen_frame_count st = length (List.filter is_frozen (s_issues st))
  /\ length (List.filter is_low_resolution (s_issues st))
     = (if low_resolution video && (0 <? frame_count st)%nat then 1 else 0)%nat
  /\ length (List.filter is_low_framerate (s_issues st))
     = (if low_framerate video && (0 <? frame_count st)%nat then 1 else 0)%nat
  /\ (s_prev_frame st = None <-> frame_count st = 0%nat)
  /\ Forall (fun i => is_frozen i = true -> i_duration i = 2%Q /\ severity i = "medium")
            (s_issues st).

(** ** [create_job] of [test_simple.py] *)

(** An entry of the dictionary [jobs]; the result is stored with its
    [analysis_timestamp]. *)
Record SimpleJob : Type := mkSimpleJob {
  sj_filename : string;
  sj_file_path : string;
  sj_status : string;
  sj_progress : Z;
  sj_stage : string;
  sj_timestamp : nat;
  sj_result : option (nat * SimpleReport);
  sj_video_path : option string
}.

(** The dictionary [jobs], the upload folder and the clock. *)
Record SimpleWorld : Type := mkSimpleWorld {
  jobs : gmap string SimpleJob;
  sw_disk : Files;
  sw_clock : nat
}.

Inductive Refusal : Type := NoVideoFile | NoFileSelected | InvalidFileType.

(** The responses: 201 with the job, or 400 with the reason. *)
Inductive Response : Type :=
  | Created (job_id filename : string)
  | BadRequest (reason : Refusal).

Section SimpleJobs.
Variable np_sqrt : Q -> Q.
Variable repr_float : Q -> string.
(** [werkzeug.utils.secure_filename], and [app.config['UPLOAD_FOLDER']]. *)
Variable secure_filename : string -> string.
Variable upload_folder : string.

(** [create_job()]: [uuid4] is the identifier drawn for the job and
    [video] is [request.files.get('video')], a name and a content.  The
    analysis runs inside the request.  [analyze_video_simple] returns a
    report for every file, so the handler that would set the job to ERROR
    and remove the file is not entered. *)
Definition create_job (uuid4 : string) (video : option (string * MediaFile))
    (st : SimpleWorld) : Response * SimpleWorld :=
  match video with
  | None => (BadRequest NoVideoFile, st)
  | Some (name, content) =>
      if String.eqb name EmptyString then (BadRequest NoFileSelected, st)
      else if negb (allowed_file ALLOWED_EXTENSIONS name) then (BadRequest InvalidFileType, st)
      else
        let job_id := uuid4 in
        let filename := secure_filename name in
        let file_path := upload_folder +:+ "/" +:+ job_id +:+ "_" +:+ filename in
        let disk1 := <[file_path := content]> (sw_disk st) in           (* file.save *)
        let created := sw_clock st in
        let analysis_result := analyze_video_simple np_sqrt repr_float disk1 file_path in
        let job :=
          mkSimpleJob filename file_path "DONE" 100 "Analysis complete" created
                      (Some (Datatypes.S created, analysis_result)) (Some file_path) in
        (Created job_id filename,
         mkSimpleWorld (<[job_id := job]> (jobs st)) disk1 (Datatypes.S (Datatypes.S created)))
  end.

End SimpleJobs.

(** [get_job_status(job_id)] of [test_simple.py] *)
Definition simple_job_status (st : SimpleWorld) (job_id : string) : Status :=
  match jobs st !! job_id with
  | None => not_found_status job_id
  | Some job =>
      mkStatus job_id (sj_status job) (sj_progress job) (sj_stage job)
               (Some (sj_timestamp job)) None
  end.

(* ================================================================== *)
(** * Properties *)
(* ================================================================== *)

(** ** Lists *)

Lemma strongly_sorted_lookup {A : Type} (R : A -> A -> Prop) (l : list A) :
  StronglySorted R l ->
  forall (i j : nat) (x y : A),
    (i < j)%nat -> l !! i = Some x -> l !! j = Some y -> R x y.
Proof.
  induction 1 as [|a l Hs IH Hall]; intros i j x y Hij Hi Hj.
  - now rewrite lookup_nil in Hi.
  - destruct j as [|j]; [lia|]. destruct i as [|i]; simpl in *.
    + injection Hi as <-. rewrite Forall_forall in Hall. apply Hall.
      eapply list_elem_of_lookup_2; eauto.
    + apply (IH i j); auto. lia.
Qed.

(** ** Rational arithmetic helpers *)

Lemma Qfloor_unique (x : Q) (k : Z) :
  (inject_Z k <= x)%Q -> (x < inject_Z (k + 1))%Q -> Qfloor x = k.
Proof.
  intros Hlo Hhi.
  pose proof (Qfloor_le x) as H1.
  pose proof (Qlt_floor x) as H2.
  assert (Ha : (inject_Z k < inject_Z (Qfloor x + 1))%Q) by (eapply Qle_lt_trans; eauto).
  assert (Hb : (inject_Z (Qfloor x) < inject_Z (k + 1))%Q) by (eapply Qle_lt_trans; eauto).
  rewrite <- Zlt_Qlt in Ha, Hb. lia.
Qed.

Lemma Qfloor_sub_Z (x : Q) (n : Z) : Qfloor (x - inject_Z n) = Qfloor x - n.
Proof.
  apply Qfloor_unique.
  - unfold Z.sub. rewrite inject_Z_plus, inject_Z_opp.
    pose proof (Qfloor_le x). lra.
  - replace (Qfloor x - n + 1) with ((Qfloor x + 1) + - n) by lia.
    rewrite inject_Z_plus, inject_Z_opp.
    pose proof (Qlt_floor x). lra.
Qed.

Lemma round_half_even_close (x : Q) :
  (Qabs (inject_Z (Py.round_half_even x) - x) <= 1 # 2)%Q.
Proof.
  unfold Py.round_half_even.
  pose proof (Qfloor_le x) as H1.
  pose proof (Qlt_floor x) as H2.
  rewrite inject_Z_plus in H2. change (inject_Z 1) with 1%Q in H2.
  apply Qabs_Qle_condition.
  destruct (Qcompare_spec (x - inject_Z (Qfloor x)) (1 # 2)) as [He|Hl|Hg].
  - destruct (Z.even (Qfloor x)); rewrite ?inject_Z_plus;
      change (inject_Z 1) with 1%Q; split; lra.
  - split; lra.
  - rewrite inject_Z_plus. change (inject_Z 1) with 1%Q. split; lra.
Qed.

Lemma round_half_even_nonneg (x : Q) : (0 <= x)%Q -> 0 <= Py.round_half_even x.
Proof.
  intros Hx. unfold Py.round_half_even.
  assert (0 <= Qfloor x).
  { change 0 with (Qfloor (inject_Z 0)). now apply Qfloor_resp_le. }
  destruct (_ ?= _)%Q; [destruct (Z.even _)| |]; lia.
Qed.

(** ** Printed numbers and their parsing *)

Lemma string_forall_app p a b :
  Py.string_forall p (a +:+ b) = Py.string_forall p a && Py.string_forall p b.
Proof. induction a as [|c a IH]; simpl; [easy|]. now rewrite IH, andb_assoc. Qed.

Lemma string_forall_impl (p q : ascii -> bool) s :
  (forall c, p c = true -> q c = true) ->
  Py.string_forall p s = true -> Py.string_forall q s = true.
Proof.
  intros Hpq. induction s as [|c s IH]; simpl; [easy|].
  rewrite !andb_true_iff. intros [? ?]; auto.
Qed.

Lemma is_digit_differs (c a : ascii) :
  Py.is_digit c = false -> Py.is_digit a = true -> Py.differs c a = true.
Proof.
  intros Hc Ha. unfold Py.differs.
  destruct (Ascii.eqb_spec a c) as [->|]; [congruence|easy].
Qed.

Lemma string_of_uint_digits d :
  Py.string_forall Py.is_digit (NilEmpty.string_of_uint d) = true.
Proof. induction d; simpl; auto. Qed.

Lemma digits_all_digit n : Py.string_forall Py.is_digit (Py.digits n) = true.
Proof. apply string_of_uint_digits. Qed.

Lemma digits_nonempty n : Py.digits n <> EmptyString.
Proof.
  unfold Py.digits. intros H.
  assert (Hu : NilEmpty.uint_of_string (NilEmpty.string_of_uint (N.to_uint n)) = Some Decimal.Nil)
    by now rewrite H.
  rewrite NilEmpty.usu in Hu. injection Hu as Hu.
  pose proof (DecimalN.Unsigned.of_to n) as Hn. rewrite Hu in Hn.
  destruct n as [|p]; [discriminate Hu|].
  simpl in Hu. unfold Pos.to_uint in Hu.
  now apply DecimalPos.Unsigned.to_uint_nonnil in Hu.
Qed.

Lemma parse_nat_digits n : Py.parse_nat (Py.digits n) = Some n.
Proof.
  unfold Py.parse_nat, Py.digits.
  rewrite NilEmpty.usu. simpl. now rewrite DecimalN.Unsigned.of_to.
Qed.

Lemma parse_nat_zero_digits n : Py.parse_nat ("0" +:+ Py.digits n) = Some n.
Proof.
  pose proof (parse_nat_digits n) as H. unfold Py.parse_nat in *.
  change (NilEmpty.uint_of_string ("0" +:+ Py.digits n))
    with (uint_of_char "0" (NilEmpty.uint_of_string (Py.digits n))).
  destruct (NilEmpty.uint_of_string (Py.digits n)) as [d|]; [|discriminate].
  simpl in *. injection H as H. f_equal. rewrite <- H. now destruct d.
Qed.

Lemma digits_head n :
  exists c r, Py.digits n = String c r /\ Py.is_digit c = true.
Proof.
  pose proof (digits_all_digit n) as H. pose proof (digits_nonempty n) as Hn.
  destruct (Py.digits n) as [|c r]; [easy|].
  simpl in H. apply andb_true_iff in H as [? _]. eauto.
Qed.

Lemma parse_int_digits n : Py.parse_int (Py.digits n) = Some (Z.of_N n).
Proof.
  destruct (digits_head n) as (c & r & E & Hc).
  pose proof (parse_nat_digits n) as Hp. rewrite E in *.
  unfold Py.parse_int.
  destruct (Ascii.eqb_spec c "-") as [->|_]; [discriminate Hc|].
  destruct (Ascii.eqb_spec c "+") as [->|_]; [discriminate Hc|].
  now rewrite Hp.
Qed.

Lemma parse_int_fmt_02d z : Py.parse_int (Py.fmt_02d z) = Some z.
Proof.
  unfold Py.fmt_02d.
  destruct (Z.ltb_spec z 0).
  - change ("-" +:+ ?s) with (String "-" s). unfold Py.parse_int.
    rewrite Ascii.eqb_refl.
    pose proof (digits_nonempty (Z.to_N (- z))) as Hn.
    pose proof (parse_nat_digits (Z.to_N (- z))) as Hp.
    destruct (Py.digits (Z.to_N (- z))); [easy|].
    rewrite Hp. simpl. f_equal. lia.
  - destruct (Z.ltb_spec z 10).
    + change ("0" +:+ ?s) with (String "0" s). unfold Py.parse_int.
      change (String "0" ?s) with ("0" +:+ s).
      simpl (Ascii.eqb _ _). cbv iota.
      rewrite parse_nat_zero_digits. simpl. f_equal. lia.
    + rewrite parse_int_digits. f_equal. lia.
Qed.

Lemma fmt_02d_digits z :
  0 <= z -> Py.string_forall Py.is_digit (Py.fmt_02d z) = true.
Proof.
  intros Hz. unfold Py.fmt_02d.
  destruct (Z.ltb_spec z 0); [lia|].
  destruct (Z.ltb_spec z 10); [|apply digits_all_digit].
  change ("0" +:+ ?s) with (String "0" s). simpl. apply digits_all_digit.
Qed.

Lemma fmt_02d_nonempty z : Py.fmt_02d z <> EmptyString.
Proof.
  unfold Py.fmt_02d.
  destruct (z <? 0); [easy|]. destruct (z <? 10); [easy|]. apply digits_nonempty.
Qed.

Lemma parse_nat_fmt_02d z : 0 <= z -> Py.parse_nat (Py.fmt_02d z) = Some (Z.to_N z).
Proof.
  intros Hz. unfold Py.fmt_02d.
  destruct (Z.ltb_spec z 0); [lia|].
  destruct (Z.ltb_spec z 10); [apply parse_nat_zero_digits|apply parse_nat_digits].
Qed.

(** The three fraction digits are checked exhaustively over [0 .. 999]. *)
Lemma fmt_frac3_check :
  forallb (fun k : nat =>
             let m := Z.of_nat k in
             Py.string_forall Py.is_digit (Py.fmt_frac3 m)
             && match Py.parse_nat (Py.fmt_frac3 m) with
                | Some n => (Z.of_N n =? m)
                | None => false
                end)
          (seq 0 1000) = true.
Proof. vm_compute. reflexivity. Qed.

Lemma fmt_frac3_spec m :
  0 <= m < 1000 ->
  Py.string_forall Py.is_digit (Py.fmt_frac3 m) = true
  /\ Py.parse_nat (Py.fmt_frac3 m) = Some (Z.to_N m)
  /\ String.length (Py.fmt_frac3 m) = 3%nat.
Proof.
  intros Hm. pose proof fmt_frac3_check as H.
  rewrite forallb_forall in H. specialize (H (Z.to_nat m)).
  rewrite Z2Nat.id in H by lia.
  assert (Hin : In (Z.to_nat m) (seq 0 1000)) by (apply in_seq; lia).
  apply H in Hin. apply andb_true_iff in Hin as [Hd Hp].
  split; [exact Hd|]. split; [|reflexivity].
  destruct (Py.parse_nat (Py.fmt_frac3 m)) as [n|]; [|discriminate].
  apply Z.eqb_eq in Hp. f_equal. lia.
Qed.

(** ** Splitting the printed timestamp *)

Lemma split_on_absent c s :
  Py.string_forall (Py.differs c) s = true -> Py.split_on c s = [s].
Proof.
  induction s as [|a s IH]; simpl; [easy|].
  rewrite andb_true_iff. intros [Ha Hs]. unfold Py.differs in Ha.
  destruct (Ascii.eqb a c); [discriminate|]. now rewrite IH.
Qed.

Lemma split_on_app c a b :
  Py.string_forall (Py.differs c) a = true ->
  Py.split_on c (a +:+ String c b) = a :: Py.split_on c b.
Proof.
  induction a as [|x a IH]; simpl.
  - intros _. now rewrite Ascii.eqb_refl.
  - rewrite andb_true_iff. intros [Hx Ha]. unfold Py.differs in Hx.
    destruct (Ascii.eqb x c); [discriminate|]. now rewrite IH.
Qed.

Lemma digits_differ (c : ascii) s :
  Py.is_digit c = false ->
  Py.string_forall Py.is_digit s = true -> Py.string_forall (Py.differs c) s = true.
Proof. intros Hc. apply string_forall_impl. intros a. now apply is_digit_differs. Qed.

Lemma parse_float_fmt_06_3f (x : Q) :
  (0 <= x)%Q ->
  exists v, Py.parse_float (Py.fmt_06_3f x) = Some v
            /\ (v == inject_Z (Py.round_half_even (x * 1000)) / 1000)%Q.
Proof.
  intros Hx. unfold Py.fmt_06_3f.
  set (ms := Py.round_half_even (x * 1000)).
  assert (Hms : 0 <= ms) by (apply round_half_even_nonneg; lra).
  assert (Hq : 0 <= ms / 1000) by (apply Z.div_pos; lia).
  assert (Hr : 0 <= ms mod 1000 < 1000) by (apply Z.mod_pos_bound; lia).
  destruct (fmt_frac3_spec _ Hr) as (Hfd & Hfp & Hfl).
  unfold Py.parse_float.
  change ("." +:+ ?s) with (String "." s).
  rewrite split_on_app
    by (apply digits_differ; [reflexivity|now apply fmt_02d_digits]).
  rewrite split_on_absent by (apply digits_differ; [reflexivity|exact Hfd]).
  pose proof (fmt_02d_nonempty (ms / 1000)) as Hne.
  pose proof (parse_nat_fmt_02d _ Hq) as Hip.
  destruct (Py.fmt_02d (ms / 1000)) as [|c r] eqn:E; [easy|].
  rewrite Hip, Hfp, Hfl. simpl. eexists. split; [reflexivity|].
  rewrite !Z2N.id by lia.
  rewrite (Z.div_mod ms 1000) at 3 by lia.
  rewrite inject_Z_plus, inject_Z_mult.
  change (inject_Z (10 ^ Z.of_nat 3)) with 1000%Q.
  change (inject_Z 1000) with 1000%Q. field.
Qed.

Lemma fmt_06_3f_no_colon (x : Q) :
  (0 <= x)%Q -> Py.string_forall (Py.differs ":") (Py.fmt_06_3f x) = true.
Proof.
  intros Hx. unfold Py.fmt_06_3f.
  set (ms := Py.round_half_even (x * 1000)).
  assert (Hms : 0 <= ms) by (apply round_half_even_nonneg; lra).
  rewrite !string_forall_app.
  change (Py.string_forall (Py.differs ":") ".") with true.
  rewrite !andb_true_iff. repeat split.
  - apply digits_differ; [reflexivity|]. apply fmt_02d_digits. apply Z.div_pos; lia.
  - apply digits_differ; [reflexivity|].
    apply fmt_frac3_spec. apply Z.mod_pos_bound. lia.
Qed.

Lemma round_half_even_comp (x y : Q) :
  (x == y)%Q -> Py.round_half_even x = Py.round_half_even y.
Proof.
  intros E. unfold Py.round_half_even.
  rewrite (Qfloor_comp _ _ E).
  assert (E' : (x - inject_Z (Qfloor y) == y - inject_Z (Qfloor y))%Q) by now rewrite E.
  now rewrite (Qcompare_comp _ _ E' (1 # 2) (1 # 2) (Qeq_refl _)).
Qed.

Lemma round_half_even_sub_even (x : Q) (k : Z) :
  Py.round_half_even (x - inject_Z (2 * k)) = Py.round_half_even x - 2 * k.
Proof.
  unfold Py.round_half_even. rewrite Qfloor_sub_Z.
  assert (E : (x - inject_Z (2 * k) - inject_Z (Qfloor x - 2 * k)
               == x - inject_Z (Qfloor x))%Q).
  { unfold Z.sub. rewrite inject_Z_plus, inject_Z_opp. ring. }
  rewrite (Qcompare_comp _ _ E (1 # 2) (1 # 2) (Qeq_refl _)).
  replace (Z.even (Qfloor x - 2 * k)) with (Z.even (Qfloor x)).
  - destruct (_ ?= _)%Q; [destruct (Z.even _)| |]; lia.
  - rewrite Z.even_sub, Z.even_mul. simpl. now destruct (Z.even (Qfloor x)).
Qed.

(** Formatting then parsing yields the value rounded to the nearest
    millisecond (ties to even), for every rational number of seconds. *)
Lemma timestamp_roundtrip_value (seconds : Q) :
  exists v, _timestamp_to_seconds (_seconds_to_timestamp seconds) = Some v
            /\ (v == inject_Z (Py.round_half_even (seconds * 1000)) / 1000)%Q.
Proof.
  unfold _seconds_to_timestamp, _timestamp_to_seconds.
  set (f := Qfloor (seconds / 60)).
  set (h := Py.floordiv seconds 3600).
  set (m := Py.floordiv (Py.fmod seconds 3600) 60).
  set (secs := Py.fmod seconds 60).
  assert (Hsecs : (secs == seconds - inject_Z (60 * f))%Q).
  { unfold secs, Py.fmod, Py.floordiv. fold f. rewrite inject_Z_mult.
    change (inject_Z 60) with 60%Q. ring. }
  assert (Hpos : (0 <= secs)%Q).
  { rewrite Hsecs, inject_Z_mult. change (inject_Z 60) with 60%Q.
    pose proof (Qfloor_le (seconds / 60)) as Hf. fold f in Hf.
    assert (seconds / 60 * 60 == seconds)%Q by field. lra. }
  assert (Hm : m = f - 60 * h).
  { unfold m, Py.fmod, Py.floordiv at 1. fold h.
    unfold f. rewrite <- (Qfloor_sub_Z (seconds / 60) (60 * h)). apply Qfloor_comp.
    rewrite inject_Z_mult. change (inject_Z 60) with 60%Q. field. }
  assert (Hh : 0 <= h \/ h < 0) by lia.
  destruct (parse_float_fmt_06_3f secs Hpos) as (v & Hv & Ev).
  assert (Hnocolon : forall z, 0 <= z ->
            Py.string_forall (Py.differs ":") (Py.fmt_02d z) = true).
  { intros z Hz. apply digits_differ; [reflexivity|now apply fmt_02d_digits]. }
  assert (Hhcolon : Py.string_forall (Py.differs ":") (Py.fmt_02d h) = true).
  { destruct Hh as [Hh|Hh]; [now apply Hnocolon|].
    unfold Py.fmt_02d. destruct (Z.ltb_spec h 0); [|lia].
    change ("-" +:+ ?s) with (String "-" s). simpl.
    apply digits_differ; [reflexivity|apply digits_all_digit]. }
  assert (Hmpos : 0 <= m).
  { unfold m, Py.floordiv.
    change 0 with (Qfloor (inject_Z 0)). apply Qfloor_resp_le.
    unfold Py.fmod, Py.floordiv.
    pose proof (Qfloor_le (seconds / 3600)) as Hf.
    assert (seconds / 3600 * 3600 == seconds)%Q by field.
    apply Qle_shift_div_l; [reflexivity|]. change (inject_Z 0) with 0%Q. lra. }
  change (":" +:+ ?s) with (String ":" s).
  rewrite (split_on_app ":" (Py.fmt_02d h)) by exact Hhcolon.
  change (":" +:+ ?s) with (String ":" s).
  rewrite (split_on_app ":" (Py.fmt_02d m)) by now apply Hnocolon.
  destruct (Py.split_on ":" (Py.fmt_06_3f secs)) as [|p2 rest] eqn:Esp.
  { destruct (Py.fmt_06_3f secs); simpl in Esp; [discriminate|].
    destruct (Ascii.eqb _ _); [discriminate|].
    destruct (Py.split_on _ _); discriminate. }
  assert (Ep2 : p2 = Py.fmt_06_3f secs /\ rest = []).
  { rewrite split_on_absent in Esp by now apply fmt_06_3f_no_colon.
    now injection Esp as <- <-. }
  destruct Ep2 as [-> ->].
  rewrite !parse_int_fmt_02d, Hv. simpl.
  eexists. split; [reflexivity|].
  rewrite Ev.
  rewrite (round_half_even_comp (secs * 1000) (seconds * 1000 - inject_Z (2 * (30000 * f)))).
  2:{ rewrite Hsecs, !inject_Z_mult.
      change (inject_Z 60) with 60%Q. change (inject_Z 2) with 2%Q.
      change (inject_Z 30000) with 30000%Q. ring. }
  rewrite round_half_even_sub_even.
  rewrite Hm.
  replace (h * 3600 + (f - 60 * h) * 60) with (60 * f) by lia.
  unfold Z.sub. rewrite inject_Z_plus, inject_Z_opp, !inject_Z_mult.
  change (inject_Z 60) with 60%Q. change (inject_Z 2) with 2%Q.
  change (inject_Z 30000) with 30000%Q. field.
Qed.

(** C7.  For every non-negative number of seconds, formatting it as
    HH:MM:SS.mmm with [_seconds_to_timestamp] and parsing the string back
    with [_timestamp_to_seconds] succeeds and yields a value within one
    millisecond of the original. *)
Theorem timestamp_roundtrip_within_1ms (seconds : Q) :
  (0 <= seconds)%Q ->
  exists v, _timestamp_to_seconds (_seconds_to_timestamp seconds) = Some v
            /\ (Qabs (v - seconds) <= 1 # 1000)%Q.
Proof.
  intros _. destruct (timestamp_roundtrip_value seconds) as (v & Hv & Ev).
  exists v. split; [exact Hv|].
  pose proof (round_half_even_close (seconds * 1000)) as Hc.
  apply Qabs_Qle_condition in Hc. apply Qabs_Qle_condition.
  rewrite Ev. set (r := inject_Z (Py.round_half_even (seconds * 1000))) in *.
  assert (r / 1000 * 1000 == r)%Q by field.
  split; lra.
Qed.

(** ** The summary classifier *)

Lemma generate_summary_returns audio_issues video_issues metrics :
  lufs_entry_ok metrics ->
  exists pts,
    generate_summary audio_issues video_issues metrics
    = Ok (mkSummary
            (if (0 <? length (List.filter is_high (audio_issues ++ video_issues)))%nat
             then "FAIL"
             else if (5 <? length audio_issues + length video_issues)%nat then "FAIL"
             else "PASS")
            (length audio_issues + length video_issues)
            (length (List.filter is_high (audio_issues ++ video_issues)))
            pts).
Proof.
  intros Hok. unfold generate_summary.
  destruct (metrics !! "integrated_lufs") as [[s|q]|] eqn:E; simpl.
  - rewrite (Hok s E). simpl. eauto.
  - destruct (Qlt_le_dec q (-28)); [eauto|]. destruct (Qlt_le_dec (-12) q); eauto.
  - eauto.
Qed.

(** The metrics that [compute_metrics] returns are accepted by
    [generate_summary]. *)
Lemma compute_metrics_lufs_entry_ok fs self metrics :
  compute_metrics fs self = Ok metrics -> lufs_entry_ok metrics.
Proof.
  unfold compute_metrics, lufs_entry_ok.
  destruct (video_clip self) as [clip|].
  2:{ intros [= <-] s Hs. now rewrite lookup_empty in Hs. }
  destruct (h clip =? 0); [discriminate|].
  destruct (fs !! file_path self) as [file|]; [|discriminate].
  destruct (audio_data self) as [data|], (sample_rate self) as [sr|];
    intros [= <-] s Hs;
    repeat (rewrite lookup_insert_ne in Hs by discriminate);
    try (rewrite lookup_empty in Hs; discriminate).
  rewrite lookup_insert_eq in Hs. unfold lufs_metric in Hs.
  destruct (match audio clip with Some a => integrated_loudness a | None => _ end)
    as [[l|]|]; congruence.
Qed.

(** The status decision of [analyze_video_simple] is the canonical policy. *)
Lemma simple_status_canonical audio_issues video_issues :
  simple_status audio_issues video_issues = canonical_status audio_issues video_issues.
Proof. unfold simple_status, canonical_status. now rewrite length_app. Qed.

(** C1 (as stated, refuted).  Three seconds of black frames give three
    medium-severity issues: [generate_summary] answers PASS where the
    canonical policy asks for WARNING.  Six undecodable frames give six
    low-severity issues: [generate_summary] answers FAIL where the
    canonical policy asks for WARNING. *)
Lemma generate_summary_departs_from_canonical :
  (exists video_issues s,
      analyze_video (loaded (still_clip 3 [0; 0; 0; 0])) = Ok video_issues
      /\ length video_issues = 3%nat
      /\ Forall (fun i => severity i = "medium") video_issues
      /\ generate_summary [] video_issues ∅ = Ok s
      /\ status s = "PASS"
      /\ canonical_status [] video_issues = "WARNING")
  /\ (exists video_issues s,
      analyze_video (loaded (broken_clip 6)) = Ok video_issues
      /\ length video_issues = 6%nat
      /\ Forall (fun i => severity i = "low") video_issues
      /\ generate_summary [] video_issues ∅ = Ok s
      /\ status s = "FAIL"
      /\ canonical_status [] video_issues = "WARNING").
Proof.
  split.
  - eexists. eexists. split; [vm_compute; reflexivity|].
    split; [reflexivity|]. split; [repeat constructor|].
    split; [vm_compute; reflexivity|]. split; reflexivity.
  - eexists. eexists. split; [vm_compute; reflexivity|].
    split; [reflexivity|]. split; [repeat constructor|].
    split; [vm_compute; reflexivity|]. split; reflexivity.
Qed.

(** C1 (amended).  Whenever the loudness entry of the metrics is absent, a
    number or ['N/A'], [generate_summary] returns a summary whose status is
    FAIL if there is a high-severity issue or if there are more than five
    issues, and PASS otherwise; WARNING is never produced and the number of
    medium-severity issues plays no role. *)
Theorem generate_summary_status audio_issues video_issues metrics :
  lufs_entry_ok metrics ->
  exists s,
    generate_summary audio_issues video_issues metrics = Ok s
    /\ total_issues s = (length audio_issues + length video_issues)%nat
    /\ high_severity_issues s
       = length (List.filter is_high (audio_issues ++ video_issues))
    /\ ((0 < high_severity_issues s \/ 5 < total_issues s)%nat -> status s = "FAIL")
    /\ ((high_severity_issues s = 0 /\ total_issues s <= 5)%nat -> status s = "PASS")
    /\ status s <> "WARNING".
Proof.
  intros Hok.
  destruct (generate_summary_returns audio_issues video_issues metrics Hok) as [pts ->].
  eexists. split; [reflexivity|]. simpl.
  set (high := length (List.filter is_high _)).
  set (total := (length audio_issues + length video_issues)%nat).
  split; [reflexivity|]. split; [reflexivity|].
  destruct (Nat.ltb_spec 0 high); [|destruct (Nat.ltb_spec 5 total)];
    repeat split; try discriminate; intros; try reflexivity; lia.
Qed.

Lemma generate_summary_status_witness :
  exists s,
    generate_summary [] [black_frame_issue 0 0; black_frame_issue 1 0] ∅ = Ok s
    /\ total_issues s = 2%nat
    /\ high_severity_issues s = 0%nat
    /\ ((0 < high_severity_issues s \/ 5 < total_issues s)%nat -> status s = "FAIL")
    /\ ((high_severity_issues s = 0 /\ total_issues s <= 5)%nat -> status s = "PASS")
    /\ status s <> "WARNING".
Proof.
  apply (generate_summary_status [] [black_frame_issue 0 0; black_frame_issue 1 0] ∅).
  intros s Hs. rewrite lookup_empty in Hs. discriminate.
Defined.

(** ** Calls on an analyzer without a media handle *)

Lemma fresh_analyzer_has_no_handle path : video_clip (__init__ path) = None.
Proof. reflexivity. Qed.

Lemma failed_extract_keeps_no_handle fs self e self' :
  video_clip self = None ->
  extract_metadata fs self = (Raise e, self') -> video_clip self' = None.
Proof.
  intros Hn. unfold extract_metadata.
  destruct (fs !! file_path self) as [file|]; [|now intros [= _ <-]].
  destruct (open_clip file); [discriminate|now intros [= _ <-]].
Qed.

(** C10.  On a [VideoAnalyzer] that holds no media handle (a new one, or
    one whose [extract_metadata] raised), [analyze_audio] returns the empty
    issue list, [analyze_video] returns the empty issue list and
    [compute_metrics] returns the empty dictionary; none of them raises. *)
Theorem no_handle_returns_empty (self : VideoAnalyzer) :
  video_clip self = None ->
  audio_result (analyze_audio self) = Ok []
  /\ analyze_video self = Ok []
  /\ forall fs, compute_metrics fs self = Ok ∅.
Proof.
  intros Hn. unfold analyze_audio, analyze_video, compute_metrics.
  rewrite Hn. auto.
Qed.

Lemma no_handle_returns_empty_witness :
  audio_result (analyze_audio (__init__ "uploads/a.mp4")) = Ok []
  /\ analyze_video (__init__ "uploads/a.mp4") = Ok []
  /\ forall fs, compute_metrics fs (__init__ "uploads/a.mp4") = Ok ∅.
Proof. apply (no_handle_returns_empty (__init__ "uploads/a.mp4")). reflexivity. Defined.

(** ** Status queries *)

(** Both stores read statuses back as written. *)
#[export] Instance dict_store_laws : JobStoreLaws DictStore.
Proof.
  split; simpl.
  - intros j. apply lookup_empty.
  - intros s j st. apply lookup_insert_eq.
  - intros s j j' st Hne. now apply lookup_insert_ne.
  - reflexivity.
Qed.

Lemma status_key_inj (j j' : string) :
  "job_status:" +:+ j = "job_status:" +:+ j' -> j = j'.
Proof. apply (String.app_inj "job_status:"). Qed.

#[export] Instance redis_store_laws : JobStoreLaws RedisStore.
Proof.
  split; cbn -[String.append].
  - intros j. now rewrite lookup_empty.
  - intros s j st. now rewrite lookup_insert_eq.
  - intros s j j' st Hne. rewrite lookup_insert_ne; [reflexivity|].
    intros E. apply Hne. now apply status_key_inj.
  - reflexivity.
Qed.

Lemma last_write_app (j : string) (l : list Status) (s : Status) :
  last_write j (l ++ [s])
  = if String.eqb (st_job_id s) j then Some s else last_write j l.
Proof.
  induction l as [|x r IH]; simpl.
  - now destruct (String.eqb (st_job_id s) j).
  - rewrite IH. destruct (String.eqb (st_job_id s) j); [reflexivity|].
    reflexivity.
Qed.

Lemma last_write_none (j : string) (l : list Status) :
  List.filter (fun s => String.eqb (st_job_id s) j) l = [] -> last_write j l = None.
Proof.
  induction l as [|x r IH]; simpl; [reflexivity|].
  destruct (String.eqb (st_job_id x) j); [discriminate|].
  intros H. now rewrite IH.
Qed.

Section Consistency.
Context {S : Type} `{JobStoreLaws S}.

Lemma preserves_bind {A B} (P : World S -> Prop) (m : Run S A) (k : A -> Run S B) :
  preserves P m -> (forall a, preserves P (k a)) -> preserves P (bind m k).
Proof.
  intros Hm Hk wld HP. unfold bind. specialize (Hm wld HP).
  destruct (m wld) as [[a|e] wld']; simpl in *; [now apply Hk|exact Hm].
Qed.

Lemma preserves_try_except {A} (P : World S -> Prop) (m : Run S A) (h : string -> Run S A) :
  preserves P m -> (forall e, preserves P (h e)) -> preserves P (try_except m h).
Proof.
  intros Hm Hh wld HP. unfold try_except. specialize (Hm wld HP).
  destruct (m wld) as [[a|e] wld']; simpl in *; [exact Hm|now apply Hh].
Qed.

Lemma preserves_pure {A} (P : World S -> Prop) (r : Exc A) : preserves P (lift r).
Proof. intros wld HP. exact HP. Qed.

Lemma consistent_update_job_status job_id st p sg e :
  preserves consistent (update_job_status job_id st p sg e).
Proof.
  intros wld Hc j. unfold update_job_status, utcnow, bind. cbn [snd store written].
  rewrite last_write_app. cbn [st_job_id].
  destruct (String.eqb_spec job_id j) as [->|Hne].
  - apply get_put_status_eq.
  - rewrite get_put_status_ne by exact Hne. apply Hc.
Qed.

Lemma consistent_update_job_result job_id r :
  preserves consistent (update_job_result job_id r).
Proof.
  intros wld Hc j. unfold update_job_result. cbn [snd store written].
  rewrite get_status_put_result. apply Hc.
Qed.

Lemma consistent_remove_upload path : preserves consistent (remove_upload path).
Proof. intros wld Hc j. apply Hc. Qed.

Lemma consistent_utcnow : preserves consistent utcnow.
Proof. intros wld Hc j. apply Hc. Qed.

Lemma consistent_read_disk : preserves consistent read_disk.
Proof. intros wld Hc. exact Hc. Qed.

Lemma consistent_ret {A} (a : A) : preserves consistent (ret a).
Proof. intros wld Hc. exact Hc. Qed.

Ltac keep_consistent known :=
  repeat first
    [ known
    | apply consistent_update_job_status
    | apply consistent_update_job_result
    | apply consistent_remove_upload
    | apply consistent_utcnow
    | apply consistent_read_disk
    | apply consistent_ret
    | apply preserves_pure
    | apply preserves_bind; [|intros ?]
    | apply preserves_try_except; [|intros ?] ].

Lemma consistent_run_stages job_id path : preserves consistent (run_stages job_id path).
Proof.
  unfold run_stages. keep_consistent fail.
  destruct (extract_metadata _ _) as [md analyzer]. keep_consistent fail.
Qed.

Lemma consistent_analyze_video_sync job_id path :
  preserves consistent (analyze_video_sync job_id path).
Proof.
  unfold analyze_video_sync. keep_consistent ltac:(apply consistent_run_stages).
Qed.

Lemma consistent_analyze_video_task traceback job_id path :
  preserves consistent (analyze_video_task traceback job_id path).
Proof.
  unfold analyze_video_task. keep_consistent ltac:(apply consistent_run_stages).
Qed.

Lemma reachable_consistent (wld : World S) : reachable wld -> consistent wld.
Proof.
  induction 1 as [files|wld path file _ IH|wld job_id path _ IH|wld tb job_id path _ IH].
  - intros j. apply get_status_empty.
  - exact IH.
  - now apply consistent_analyze_video_sync.
  - now apply consistent_analyze_video_task.
Qed.

Lemma not_found_when_absent (s : S) (job_id : string) :
  get_status s job_id = None -> get_job_status s job_id = not_found_status job_id.
Proof. intros Habs. unfold get_job_status. now rewrite Habs. Qed.

(** C8.  When the store holds no entry for a job identifier,
    [get_job_status] answers with the synthetic status: state NOT_FOUND,
    progress 0, no error payload; this state is not ERROR.  That is the
    answer for every identifier that was never submitted: in any world
    that the workers produce from a fresh one, an identifier for which no
    status was ever written has no entry.  It holds for every store that
    reads statuses back as written, the dictionaries of [app_simple] and
    the Redis keys of [analysis_tasks] among them. *)
Theorem get_job_status_not_found :
  (forall (s : S) (job_id : string),
      get_status s job_id = None ->
      get_job_status s job_id = not_found_status job_id)
  /\ (forall (wld : World S) (job_id : string),
         reachable wld ->
         job_writes job_id wld = [] ->
         get_job_status (store wld) job_id = not_found_status job_id)
  /\ (forall job_id,
         state (not_found_status job_id) = "NOT_FOUND"
         /\ progress (not_found_status job_id) = 0
         /\ error (not_found_status job_id) = None
         /\ state (not_found_status job_id) <> "ERROR").
Proof.
  split; [exact not_found_when_absent|]. split.
  - intros wld job_id Hreach Hnone. apply not_found_when_absent.
    rewrite (reachable_consistent wld Hreach job_id).
    now apply last_write_none.
  - intros job_id. repeat split. discriminate.
Qed.

End Consistency.

Lemma get_job_status_not_found_witness :
  get_job_status
    (store (snd (analyze_video_sync "4f1c" "uploads/4f1c_a.mp4"
                   (fresh_world (S := DictStore) ∅)))) "9a2e"
  = not_found_status "9a2e"
  /\ state (not_found_status "9a2e") = "NOT_FOUND"
  /\ state (not_found_status "9a2e") <> "ERROR".
Proof.
  pose proof (get_job_status_not_found (S := DictStore)) as (_ & Hnever & Hsyn).
  split.
  - apply Hnever; [|reflexivity]. apply reach_sync, reach_fresh.
  - split; apply (Hsyn "9a2e").
Defined.

(** ** The trace of a run *)

Section RunTrace.
Context {S : Type} `{JobStore S}.

Lemma bind_update_job_status {A} job_id st p sg e (k : unit -> Run S A) wld :
  bind (update_job_status job_id st p sg e) k wld
  = k tt (mkWorld
            (put_status job_id
               (mkStatus job_id st p sg (Some (clock wld))
                  (match e with
                   | Some m => if String.eqb m EmptyString then None else Some m
                   | None => None
                   end)) (store wld))
            (disk wld) (Datatypes.S (clock wld))
            (written wld
             ++ [mkStatus job_id st p sg (Some (clock wld))
                   (match e with
                    | Some m => if String.eqb m EmptyString then None else Some m
                    | None => None
                    end)])).
Proof. reflexivity. Qed.

Lemma bind_lift_ok {A B} (a : A) (k : A -> Run S B) wld : bind (lift (Ok a)) k wld = k a wld.
Proof. reflexivity. Qed.

Lemma bind_lift_raise {A B} e (k : A -> Run S B) wld :
  bind (lift (Raise e)) k wld = (Raise e, wld).
Proof. reflexivity. Qed.

Lemma bind_utcnow {A} (k : nat -> Run S A) wld :
  bind utcnow k wld
  = k (clock wld) (mkWorld (store wld) (disk wld) (Datatypes.S (clock wld)) (written wld)).
Proof. reflexivity. Qed.

Lemma bind_read_disk {A} (k : Files -> Run S A) wld : bind read_disk k wld = k (disk wld) wld.
Proof. reflexivity. Qed.

Lemma bind_update_job_result {A} job_id r (k : unit -> Run S A) wld :
  bind (update_job_result job_id r) k wld
  = k tt (mkWorld (put_result job_id r (store wld)) (disk wld) (clock wld) (written wld)).
Proof. reflexivity. Qed.

Lemma bind_remove_upload {A} path (k : unit -> Run S A) wld :
  bind (remove_upload path) k wld
  = k tt (mkWorld (store wld) (delete path (disk wld)) (clock wld) (written wld)).
Proof. reflexivity. Qed.

Ltac run_step :=
  repeat first
    [ rewrite bind_update_job_status
    | rewrite bind_lift_ok
    | rewrite bind_lift_raise
    | rewrite bind_utcnow
    | rewrite bind_read_disk
    | rewrite bind_update_job_result
    | rewrite bind_remove_upload ];
  cbn [store disk clock written ret].

Ltac close_trace :=
  cbn [map progress state st_job_id app];
  repeat first
    [ rewrite <- !app_assoc
    | split
    | reflexivity
    | apply Forall_cons
    | apply Forall_nil
    | apply SSorted_cons
    | apply SSorted_nil
    | lia ].

(** The stages write checkpoints only; on success the last write is DONE. *)
Lemma run_stages_trace (job_id path : string) (wld : World S) :
  exists running,
    checkpoints job_id running
    /\ match run_stages job_id path wld with
       | (Ok _, wld') =>
           exists done,
             written wld' = written wld ++ running ++ [done]
             /\ st_job_id done = job_id /\ state done = "DONE" /\ progress done = 100
             /\ Forall (fun p => p <= 100) (map progress running)
       | (Raise _, wld') => written wld' = written wld ++ running
       end.
Proof.
  unfold run_stages, checkpoints. run_step.
  destruct (extract_metadata (disk wld) (__init__ path)) as [[md|e] a]; run_step.
  2:{ eexists [_; _]. split. 2: close_trace. close_trace. }
  destruct (audio_result (analyze_audio a)) as [ai|e]; run_step.
  2:{ eexists [_; _; _]. split. 2: close_trace. close_trace. }
  destruct (analyze_video (audio_self (analyze_audio a))) as [vi|e]; run_step.
  2:{ eexists [_; _; _; _]. split. 2: close_trace. close_trace. }
  destruct (compute_metrics (disk wld) (audio_self (analyze_audio a))) as [m|e]; run_step.
  2:{ eexists [_; _; _; _; _]. split. 2: close_trace. close_trace. }
  destruct (generate_summary ai vi m) as [sm|e]; run_step.
  2:{ eexists [_; _; _; _; _; _]. split. 2: close_trace. close_trace. }
  eexists [_; _; _; _; _; _]. split.
  2:{ eexists. split; [close_trace|]. close_trace. }
  close_trace.
Qed.

Lemma analyze_video_sync_trace (job_id path : string) (wld : World S) :
  fst (analyze_video_sync job_id path wld) = Ok tt
  /\ exists new,
       written (snd (analyze_video_sync job_id path wld)) = written wld ++ new
       /\ run_shape job_id new.
Proof.
  unfold analyze_video_sync, try_except.
  destruct (run_stages_trace job_id path wld) as (running & Hck & Hrun).
  change (bind (run_stages job_id path) (fun _ => ret tt) wld)
    with (match run_stages job_id path wld with
          | (Ok a, wld') => ret (S := S) tt wld'
          | (Raise e, wld') => (Raise e, wld')
          end).
  destruct (run_stages job_id path wld) as [[r|e] wld'].
  - destruct Hrun as (done & Hw & Hid & Hst & Hp & Hle).
    cbn [ret fst snd]. split; [reflexivity|].
    exists (running ++ [done]). split; [exact Hw|].
    exists running, done.
    split; [reflexivity|]. split; [exact Hck|]. split; [exact Hid|].
    split; [now left|]. split; [intros _; now split|].
    rewrite Hst. discriminate.
  - rewrite bind_update_job_status. unfold remove_upload. cbn [fst snd written].
    split; [reflexivity|]. eexists. split; [rewrite Hrun, <- app_assoc; reflexivity|].
    eexists running, _. split; [reflexivity|]. split; [exact Hck|].
    split; [reflexivity|]. split; [now right|]. cbn [state progress].
    split; [discriminate|reflexivity].
Qed.

Lemma analyze_video_task_trace traceback (job_id path : string) (wld : World S) :
  exists new,
    written (snd (analyze_video_task traceback job_id path wld)) = written wld ++ new
    /\ run_shape job_id new
    /\ (forall r, fst (analyze_video_task traceback job_id path wld) = Ok r ->
        exists earlier s, new = earlier ++ [s] /\ state s = "DONE").
Proof.
  unfold analyze_video_task, try_except.
  destruct (run_stages_trace job_id path wld) as (running & Hck & Hrun).
  destruct (run_stages job_id path wld) as [[r|e] wld'].
  - destruct Hrun as (done & Hw & Hid & Hst & Hp & Hle).
    cbn [fst snd]. exists (running ++ [done]). split; [exact Hw|]. split.
    + exists running, done.
      split; [reflexivity|]. split; [exact Hck|]. split; [exact Hid|].
      split; [now left|]. split; [intros _; now split|].
      rewrite Hst. discriminate.
    + intros _ _. now exists running, done.
  - rewrite bind_update_job_status, bind_remove_upload. unfold lift.
    cbn [fst snd written].
    eexists. split; [rewrite Hrun, <- app_assoc; reflexivity|]. split.
    + eexists running, _. split; [reflexivity|]. split; [exact Hck|].
      split; [reflexivity|]. split; [now right|]. cbn [state progress].
      split; [discriminate|reflexivity].
    + discriminate.
Qed.

End RunTrace.

Lemma running_not_terminal (s : Status) : state s = "RUNNING" -> ~ is_terminal s.
Proof. intros E [H|H]; rewrite E in H; discriminate. Qed.

Lemma run_shape_properties (job_id : string) (tr : list Status) :
  run_shape job_id tr ->
  progress_monotone_through_done tr
  /\ terminal_progress tr
  /\ no_running_after_terminal tr
  /\ ends_terminal tr.
Proof.
  intros (running & terminal & -> & [Hall Hsorted] & Hid & Hterm & Hdone & Herror).
  assert (Hrun : forall (k : nat) (s : Status),
             (running ++ [terminal]) !! k = Some s ->
             (k < length running)%nat -> running !! k = Some s).
  { intros k s Hk Hlt. now rewrite lookup_app_l in Hk. }
  assert (Hlast : forall (k : nat) (s : Status),
             (running ++ [terminal]) !! k = Some s ->
             (k < length running)%nat \/ (k = length running /\ s = terminal)).
  { intros k s Hk. destruct (Nat.lt_ge_cases k (length running)) as [|Hge]; [now left|].
    right. rewrite lookup_app_r in Hk by exact Hge.
    destruct (k - length running)%nat as [|n] eqn:E; simpl in Hk.
    - injection Hk as <-. split; [lia|reflexivity].
    - now rewrite lookup_nil in Hk. }
  assert (Hnt : forall (k : nat) (s : Status), running !! k = Some s -> ~ is_terminal s).
  { intros k s Hk. apply running_not_terminal.
    rewrite Forall_forall in Hall. apply Hall.
    eapply list_elem_of_lookup_2; eauto. }
  assert (Hsorted' : forall (i j : nat) (si sj : Status),
             (i <= j)%nat -> running !! i = Some si -> running !! j = Some sj ->
             progress si <= progress sj).
  { intros i j si sj Hij Hi Hj.
    destruct (Nat.eq_dec i j) as [->|Hne].
    { rewrite Hi in Hj. injection Hj as ->. lia. }
    apply (strongly_sorted_lookup Z.le (map progress running) Hsorted i j); try lia.
    + now rewrite list_lookup_fmap, Hi.
    + now rewrite list_lookup_fmap, Hj. }
  split; [|split; [|split]].
  - intros i j si sj Hij Hi Hj _ Hne.
    destruct (Hlast j sj Hj) as [Hjl|[-> ->]].
    + apply Hrun in Hi; [|lia]. apply Hrun in Hj; [|lia]. now apply (Hsorted' i j).
    + destruct Hterm as [Hd|He]; [|contradiction].
      destruct (Hdone Hd) as [H100 Hle]. rewrite H100.
      destruct (Hlast i si Hi) as [Hil|[_ ->]]; [|rewrite H100; lia].
      apply Hrun in Hi; [|exact Hil].
      rewrite Forall_forall in Hle. apply Hle.
      apply list_elem_of_fmap. exists si. split; [reflexivity|].
      now apply (list_elem_of_lookup_2 running i si).
  - intros earlier s Heq. apply app_inj_tail in Heq as [_ <-].
    split; [intros Hd; now apply Hdone|exact Herror].
  - intros i j si sj Hij Hi Hti Hj.
    destruct (Hlast i si Hi) as [Hil|[-> ->]].
    + exfalso. apply (Hnt i si); auto.
    + apply lookup_lt_Some in Hj. rewrite length_app in Hj. simpl in Hj. lia.
  - now exists running, terminal.
Qed.

(** A run that ends with DONE satisfies the claim as it is written. *)
Lemma monotone_through_done_run (tr : list Status) :
  progress_monotone_through_done tr ->
  (forall s, s ∈ tr -> state s <> "ERROR") ->
  progress_monotone_through_terminal tr.
Proof.
  intros Hmono Hno i j si sj Hij Hi Hj Hpre.
  apply (Hmono i j si sj Hij Hi Hj Hpre). apply Hno.
  eapply list_elem_of_lookup_2; eauto.
Qed.

Lemma run_shape_job_id (job_id : string) (new : list Status) :
  run_shape job_id new -> Forall (fun s => st_job_id s = job_id) new.
Proof.
  intros (running & terminal & -> & [Hall _] & Hid & _).
  apply Forall_app. split.
  - eapply Forall_impl; [exact Hall|]. now intros s [? _].
  - now constructor.
Qed.

Lemma job_writes_after {S : Type} (job_id : string) (before after : World S)
    (new : list Status) :
  job_writes job_id before = [] ->
  written after = written before ++ new ->
  Forall (fun s => st_job_id s = job_id) new ->
  job_writes job_id after = new.
Proof.
  unfold job_writes. intros Hb -> Hall.
  rewrite List.filter_app, Hb. simpl.
  induction Hall as [|s l Hs _ IH]; simpl; [reflexivity|].
  rewrite Hs, String.eqb_refl. now f_equal.
Qed.

(** C3 (as stated, refuted).  An upload that does not open makes the run
    fail at the metadata stage: the worker writes RUNNING with progress 0,
    RUNNING with progress 10, and then ERROR with progress 0.  The progress
    written decreases from 10 to 0 at the terminal write, so the sequence
    is not non-decreasing until the terminal state is written. *)
Lemma failing_run_resets_progress :
  let tr := job_writes "5d0e"
              (snd (analyze_video_sync "5d0e" "uploads/5d0e_c.mp4"
                      (fresh_world (S := DictStore) corrupt_upload))) in
  map (fun s => (state s, progress s)) tr
  = [("RUNNING", 0); ("RUNNING", 10); ("ERROR", 0)]
  /\ ~ progress_monotone_through_terminal tr.
Proof.
  cbv zeta.
  assert (Htr : exists s0 s1 s2,
             job_writes "5d0e"
               (snd (analyze_video_sync "5d0e" "uploads/5d0e_c.mp4"
                       (fresh_world (S := DictStore) corrupt_upload)))
             = [s0; s1; s2]
             /\ (state s0, progress s0) = ("RUNNING", 0)
             /\ (state s1, progress s1) = ("RUNNING", 10)
             /\ (state s2, progress s2) = ("ERROR", 0)).
  { do 3 eexists. split; [reflexivity|]. repeat split. }
  destruct Htr as (s0 & s1 & s2 & -> & H0 & H1 & H2).
  injection H0 as Hs0 Hp0. injection H1 as Hs1 Hp1. injection H2 as Hs2 Hp2.
  split.
  - cbn [map]. now rewrite Hs0, Hp0, Hs1, Hp1, Hs2, Hp2.
  - intros Hmono.
    assert (Hle : progress s1 <= progress s2).
    { apply (Hmono 1%nat 2%nat s1 s2); [lia|reflexivity|reflexivity|].
      intros [|[|k]] sk Hk Hsk; [| |lia].
      - injection Hsk as <-. now apply running_not_terminal.
      - injection Hsk as <-. now apply running_not_terminal. }
    lia.
Qed.

(** C3 (amended).  For a job identifier with no earlier write (identifiers
    are drawn afresh for every submission), the statuses that a run writes
    for it, by the thread worker [analyze_video_sync] or by the Celery task
    [analyze_video], satisfy: progress never decreases among the RUNNING
    writes and up to a DONE write; the last write carries progress 100 when
    it is DONE and progress 0 when it is ERROR; once DONE or ERROR is
    written no RUNNING status follows; and the run does end with a terminal
    write. *)
Theorem job_progress_monotone_unless_error {S : Type} `{JobStore S}
    (traceback : string -> string) (job_id path : string) (wld : World S) :
  job_writes job_id wld = [] ->
  (let tr := job_writes job_id (snd (analyze_video_sync job_id path wld)) in
   progress_monotone_through_done tr /\ terminal_progress tr
   /\ no_running_after_terminal tr /\ ends_terminal tr)
  /\ (let tr := job_writes job_id (snd (analyze_video_task traceback job_id path wld)) in
      progress_monotone_through_done tr /\ terminal_progress tr
      /\ no_running_after_terminal tr /\ ends_terminal tr).
Proof.
  intros Hfresh. split; cbv zeta.
  - destruct (analyze_video_sync_trace job_id path wld) as (_ & new & Hw & Hshape).
    rewrite (job_writes_after job_id wld _ new Hfresh Hw (run_shape_job_id _ _ Hshape)).
    now apply (run_shape_properties job_id).
  - destruct (analyze_video_task_trace traceback job_id path wld) as (new & Hw & Hshape & _).
    rewrite (job_writes_after job_id wld _ new Hfresh Hw (run_shape_job_id _ _ Hshape)).
    now apply (run_shape_properties job_id).
Qed.

Lemma job_progress_monotone_unless_error_witness :
  job_writes "7c3d" (fresh_world (S := DictStore) one_upload) = []
  /\ (let tr := job_writes "7c3d"
                  (snd (analyze_video_sync "7c3d" "uploads/7c3d_b.mp4"
                          (fresh_world (S := DictStore) one_upload))) in
      progress_monotone_through_done tr /\ terminal_progress tr
      /\ no_running_after_terminal tr /\ ends_terminal tr).
Proof.
  split; [reflexivity|].
  exact (proj1 (job_progress_monotone_unless_error (fun e => e) "7c3d" "uploads/7c3d_b.mp4"
                  (fresh_world (S := DictStore) one_upload) eq_refl)).
Defined.

(** A run on a file that is not there fails in the same way. *)
Example failed_run_writes :
  map (fun s => (state s, progress s))
      (written (snd (analyze_video_sync "4f1c" "uploads/4f1c_a.mp4"
                       (fresh_world (S := DictStore) ∅))))
  = [("RUNNING", 0); ("RUNNING", 10); ("ERROR", 0)].
Proof. reflexivity. Qed.

(** The successful run of the witness writes the seven checkpoints; it
    satisfies the claim as it is written. *)
Example successful_run_writes :
  map (fun s => (state s, progress s))
      (written (snd (analyze_video_sync "7c3d" "uploads/7c3d_b.mp4"
                       (fresh_world (S := DictStore) one_upload))))
  = [("RUNNING", 0); ("RUNNING", 10); ("RUNNING", 30); ("RUNNING", 60);
     ("RUNNING", 80); ("RUNNING", 90); ("DONE", 100)].
Proof. reflexivity. Qed.

(** ** Run-length grouping *)

Lemma flag_at_app_r (pre l : list bool) (k : nat) :
  flag_at (pre ++ l) (Z.of_nat (length pre) + Z.of_nat k) = nth k l false.
Proof.
  unfold flag_at. destruct (Z.ltb_spec (Z.of_nat (length pre) + Z.of_nat k) 0); [lia|].
  replace (Z.to_nat (Z.of_nat (length pre) + Z.of_nat k)) with (length pre + k)%nat by lia.
  now rewrite app_nth2_plus.
Qed.

Lemma flag_at_here (pre : list bool) (b : bool) (t : list bool) :
  flag_at (pre ++ b :: t) (Z.of_nat (length pre)) = b.
Proof.
  pose proof (flag_at_app_r pre (b :: t) 0) as H. now rewrite Z.add_0_r in H.
Qed.

Lemma flag_at_beyond (flags : list bool) (i : Z) :
  Z.of_nat (length flags) <= i -> flag_at flags i = false.
Proof.
  intros Hi. unfold flag_at. destruct (i <? 0); [reflexivity|].
  apply nth_overflow. lia.
Qed.

Lemma flag_at_negative (flags : list bool) (i : Z) : i < 0 -> flag_at flags i = false.
Proof. intros Hi. unfold flag_at. now destruct (Z.ltb_spec i 0); [|lia]. Qed.

(** Two runs of flagged positions that both stop at [i] and both have an
    unflagged position before them start at the same place. *)
Lemma run_start_unique (flags : list bool) (s s0 i : Z) :
  s < i -> s0 < i ->
  (forall j, s <= j < i -> flag_at flags j = true) ->
  (forall j, s0 <= j < i -> flag_at flags j = true) ->
  flag_at flags (s - 1) = false -> flag_at flags (s0 - 1) = false ->
  s = s0.
Proof.
  intros Hs Hs0 Hrun Hrun0 Hb Hb0.
  destruct (Z.lt_trichotomy s s0) as [Hlt|[->|Hgt]]; [|reflexivity|].
  - rewrite (Hrun (s0 - 1)) in Hb0 by lia. discriminate.
  - rewrite (Hrun0 (s - 1)) in Hb by lia. discriminate.
Qed.

Lemma runs_from_spec (l : list bool) :
  forall (pre : list bool) (cur : option Z),
    scan_state (pre ++ l) (Z.of_nat (length pre)) cur ->
    forall s e : Z,
      In (s, e) (runs_from (Z.of_nat (length pre)) cur l)
      <-> maximal_run (pre ++ l) s e /\ Z.of_nat (length pre) <= e.
Proof.
  induction l as [|b t IH]; intros pre cur Hst s e.
  - rewrite app_nil_r in *. simpl.
    destruct cur as [s0|]; simpl in Hst.
    + destruct Hst as (Hs0 & Hrun & Hb). split.
      * intros [[= <- <-]|[]]. split; [|lia].
        repeat split; try lia; auto. apply flag_at_beyond. lia.
      * intros [(Hse & Hlen & Hr & Hbs & _) Hle].
        left. assert (e = Z.of_nat (length pre)) as -> by lia.
        f_equal. apply (run_start_unique pre s0 s (Z.of_nat (length pre))); auto; lia.
    + split; [intros []|].
      intros [(Hse & Hlen & Hr & _) Hle].
      assert (e = Z.of_nat (length pre)) as -> by lia.
      rewrite (Hr (Z.of_nat (length pre) - 1)) in Hst by lia. discriminate.
  - pose proof (flag_at_here pre b t) as Hhere.
    assert (Hlen : Z.of_nat (length (pre ++ [b])) = Z.of_nat (length pre) + 1)
      by (rewrite length_app; simpl; lia).
    assert (Hwhole : (pre ++ [b]) ++ t = pre ++ b :: t) by now rewrite <- app_assoc.
    specialize (IH (pre ++ [b])). rewrite Hwhole, Hlen in IH.
    destruct b; simpl.
    + (* the sample is flagged *)
      rewrite IH.
      * split; intros [Hm Hle]; (split; [exact Hm|]); [lia|].
        destruct (Z.eq_dec e (Z.of_nat (length pre))) as [->|]; [|lia].
        destruct Hm as (_ & _ & _ & _ & He). rewrite Hhere in He. discriminate.
      * destruct cur as [s0|]; simpl in *.
        -- destruct Hst as (Hs0 & Hrun & Hb). repeat split; try lia; auto.
           intros j Hj. destruct (Z.eq_dec j (Z.of_nat (length pre))) as [->|]; auto.
           apply Hrun. lia.
        -- repeat split; try lia.
           ++ intros j Hj. now replace j with (Z.of_nat (length pre)) by lia.
           ++ exact Hst.
    + (* the sample is not flagged *)
      assert (Hnone : scan_state (pre ++ false :: t) (Z.of_nat (length pre) + 1) None).
      { simpl. now replace (Z.of_nat (length pre) + 1 - 1) with (Z.of_nat (length pre)) by lia. }
      destruct cur as [s0|]; simpl in Hst.
      * destruct Hst as (Hs0 & Hrun & Hb). simpl. rewrite (IH None Hnone). split.
        -- intros [[= <- <-]|[Hm Hle]].
           ++ split; [|lia]. repeat split; try lia; auto.
              rewrite length_app. simpl. lia.
           ++ split; [exact Hm|lia].
        -- intros [Hm Hle].
           destruct (Z.eq_dec e (Z.of_nat (length pre))) as [->|]; [left|right].
           ++ destruct Hm as (Hse & _ & Hr & Hbs & _). f_equal.
              apply (run_start_unique (pre ++ false :: t) s0 s (Z.of_nat (length pre)));
                auto; lia.
           ++ split; [exact Hm|lia].
      * rewrite (IH None Hnone). split; intros [Hm Hle]; (split; [exact Hm|]); [lia|].
        destruct (Z.eq_dec e (Z.of_nat (length pre))) as [->|]; [|lia].
        destruct Hm as (Hse & _ & Hr & _).
        rewrite (Hr (Z.of_nat (length pre) - 1)) in Hst by lia. discriminate.
Qed.

Lemma runs_from_separated (l : list bool) :
  forall (i : Z) (cur : option Z),
    (forall s0, cur = Some s0 -> s0 < i) ->
    separated (runs_from i cur l)
    /\ Forall (fun p : Z * Z => default i cur <= fst p /\ fst p < snd p /\ i <= snd p)
              (runs_from i cur l).
Proof.
  unfold separated.
  induction l as [|b t IH]; intros i cur Hcur; simpl.
  - destruct cur as [s0|]; simpl.
    + specialize (Hcur s0 eq_refl). split; repeat constructor; simpl; lia.
    + split; constructor.
  - destruct b.
    + destruct (IH (i + 1) (Some (default i cur))) as [Hsep Hall].
      { intros s0 [= <-]. destruct cur as [s1|]; simpl; [specialize (Hcur s1 eq_refl)|]; lia. }
      split; [exact Hsep|]. eapply Forall_impl; [exact Hall|].
      simpl. intros [s e]. simpl. lia.
    + destruct (IH (i + 1) None) as [Hsep Hall]; [discriminate|].
      simpl in Hall.
      destruct cur as [s0|]; simpl.
      * specialize (Hcur s0 eq_refl). split.
        -- constructor; [exact Hsep|].
           eapply Forall_impl; [exact Hall|]. intros [s e]. simpl. lia.
        -- constructor; [simpl; lia|].
           eapply Forall_impl; [exact Hall|]. intros [s e]. simpl. lia.
      * split; [exact Hsep|]. eapply Forall_impl; [exact Hall|].
        intros [s e]. simpl. lia.
Qed.

(** The array pipeline computes the scan. *)
Lemma regions_scan (l : list bool) :
  forall (i : Z) (p : bool),
    let d := Np.diff (Np.astype_int (p :: l ++ [false])) in
    if p
    then forall s, combine (s :: Np.where_eq_from i 1 d) (Np.where_eq_from i (-1) d)
                   = runs_from i (Some s) l
    else combine (Np.where_eq_from i 1 d) (Np.where_eq_from i (-1) d)
         = runs_from i None l.
Proof.
  induction l as [|b t IH]; intros i p.
  - destruct p; simpl; [intros s|]; reflexivity.
  - specialize (IH (i + 1) b).
    change (Np.diff (Np.astype_int (p :: (b :: t) ++ [false])))
      with (((if b then 1 else 0) - (if p then 1 else 0))
            :: Np.diff (Np.astype_int (b :: t ++ [false]))).
    cbv zeta in *.
    destruct p, b; simpl Np.where_eq_from; simpl runs_from.
    + intros s. apply IH.
    + intros s. simpl. f_equal. exact IH.
    + apply IH.
    + exact IH.
Qed.

Lemma consecutive_regions_scan (flags : list bool) :
  consecutive_regions flags = runs_from 0 None flags.
Proof. exact (regions_scan flags 0 false). Qed.

(** The regions found by the pipeline are exactly the maximal runs of
    flagged samples, listed in increasing order with gaps between them. *)
Lemma consecutive_regions_spec (flags : list bool) :
  (forall s e, In (s, e) (consecutive_regions flags) <-> maximal_run flags s e)
  /\ separated (consecutive_regions flags).
Proof.
  rewrite consecutive_regions_scan. split.
  - intros s e.
    pose proof (runs_from_spec flags [] None) as H. simpl in H.
    rewrite H by reflexivity. split; [tauto|].
    intros Hm. split; [exact Hm|]. destruct Hm as (? & _). lia.
  - apply (runs_from_separated flags 0 None). discriminate.
Qed.

Lemma separated_NoDup (spans : list (Z * Z)) :
  Forall (fun p : Z * Z => fst p < snd p) spans -> separated spans -> NoDup spans.
Proof.
  unfold separated. intros Hne Hsep.
  induction Hsep as [|a l Hs IH Hall]; [constructor|].
  apply Forall_cons in Hne as [Ha Hl].
  constructor; [|auto].
  intros Hin. rewrite Forall_forall in Hall. specialize (Hall a Hin). lia.
Qed.

Lemma runs_from_no_flag (flags : list bool) :
  Np.any flags = false -> forall i, runs_from i None flags = [].
Proof.
  induction flags as [|b t IH]; intros Hany i; [reflexivity|].
  simpl in Hany. destruct b; [discriminate|]. simpl. now apply IH.
Qed.

Lemma regions_without_guard (flags : list bool) :
  (if Np.any flags then consecutive_regions flags else []) = consecutive_regions flags.
Proof.
  destruct (Np.any flags) eqn:E; [reflexivity|].
  now rewrite consecutive_regions_scan, runs_from_no_flag.
Qed.

Lemma Forall2_map_r {A B : Type} (R : A -> B -> Prop) (f : A -> B) (l : list A) :
  (forall x, R x (f x)) -> Forall2 R l (map f l).
Proof. intros H. induction l; simpl; constructor; auto. Qed.

Lemma clipped_spec (x : Q) : clipped x = true <-> (clip_threshold <= Qabs x)%Q.
Proof. unfold clipped. apply Qle_bool_iff. Qed.

Lemma silent_spec (x : Q) :
  silent x = true <-> (Qabs x + (1 # 10000000000) < 1 # 100)%Q.
Proof.
  unfold silent. rewrite negb_true_iff. split.
  - intros H. apply Qnot_le_lt. intros Hle. apply Qle_bool_iff in Hle. congruence.
  - intros H. destruct (Qle_bool _ _) eqn:E; [|reflexivity].
    apply Qle_bool_iff in E. apply Qlt_not_le in H. contradiction.
Qed.

(** C4.  For every sample array and every positive sample rate,
    [_detect_clipping] returns one issue per maximal contiguous run of
    samples whose absolute value is at or above the clip threshold, in
    order: the spans [[s, e)] behind the issues are exactly the maximal
    runs, they are pairwise disjoint, the issue of a span has duration
    [(e - s) / sample_rate], starts at [s / sample_rate] and has severity
    high. *)
Theorem detect_clipping_runs (data : list Q) (sr : positive) :
  let flags := map clipped data in
  (forall x, clipped x = true <-> (clip_threshold <= Qabs x)%Q)
  /\ exists spans : list (Z * Z),
       (forall s e, In (s, e) spans <-> maximal_run flags s e)
       /\ separated spans
       /\ NoDup spans
       /\ Forall2 (fun (span : Z * Z) (issue : Issue) =>
                     i_type issue = "clipping"
                     /\ severity issue = "high"
                     /\ timestamp issue
                        = _seconds_to_timestamp (inject_Z (fst span) / rate sr)
                     /\ i_duration issue = (inject_Z (snd span - fst span) / rate sr)%Q)
                  spans (_detect_clipping data sr).
Proof.
  intros flags. split; [exact clipped_spec|].
  exists (consecutive_regions flags).
  destruct (consecutive_regions_spec flags) as [Hruns Hsep].
  split; [exact Hruns|]. split; [exact Hsep|]. split.
  - apply separated_NoDup; [|exact Hsep].
    apply Forall_forall. intros [s e] Hin. apply list_elem_of_In, Hruns in Hin.
    destruct Hin as (? & _). simpl. lia.
  - unfold _detect_clipping. fold flags.
    replace (if Np.any flags then map (clipping_issue sr) (consecutive_regions flags) else [])
      with (map (clipping_issue sr) (if Np.any flags then consecutive_regions flags else []))
      by now destruct (Np.any flags).
    rewrite regions_without_guard.
    apply Forall2_map_r. intros [s e]. simpl. auto.
Qed.

(** The scenario of the specification at a small rate: five seconds at 4
    samples per second, pinned at amplitude 1.0 from 2 s to 3 s. *)
Example clipping_scenario :
  map (fun i => (i_type i, timestamp i, Qred (i_duration i), severity i))
      (_detect_clipping (repeat 0.25%Q 8 ++ repeat 1%Q 4 ++ repeat (-0.5)%Q 8) 4)
  = [("clipping", "00:00:02.000", 1%Q, "high")].
Proof. vm_compute. reflexivity. Qed.

Lemma separated_filter (keep : Z * Z -> bool) (spans : list (Z * Z)) :
  separated spans -> separated (List.filter keep spans).
Proof.
  unfold separated. induction 1 as [|a l Hs IH Hall]; simpl; [constructor|].
  destruct (keep a); [|exact IH].
  constructor; [exact IH|].
  rewrite Forall_forall in *. intros x Hx.
  apply Hall. apply list_elem_of_In in Hx. apply filter_In in Hx as [Hx _].
  now apply list_elem_of_In.
Qed.

Lemma floordiv_comp (x y d : Q) : (x == y)%Q -> Py.floordiv x d = Py.floordiv y d.
Proof. intros E. unfold Py.floordiv. apply Qfloor_comp. now rewrite E. Qed.

Lemma fmod_comp (x y d : Q) : (x == y)%Q -> (Py.fmod x d == Py.fmod y d)%Q.
Proof. intros E. unfold Py.fmod. now rewrite (floordiv_comp x y d E), E. Qed.

(** Equal numbers of seconds print as the same timestamp. *)
Lemma seconds_to_timestamp_comp (x y : Q) :
  (x == y)%Q -> _seconds_to_timestamp x = _seconds_to_timestamp y.
Proof.
  intros E. unfold _seconds_to_timestamp, Py.fmt_06_3f.
  rewrite (floordiv_comp x y 3600 E).
  rewrite (floordiv_comp _ _ 60 (fmod_comp x y 3600 E)).
  rewrite (round_half_even_comp (Py.fmod x 60 * 1000) (Py.fmod y 60 * 1000)); [reflexivity|].
  now rewrite (fmod_comp x y 60 E).
Qed.

Lemma runs_from_all_flagged (flags : list bool) :
  Forall (fun b => b = true) flags ->
  forall i cur,
    (cur <> None \/ flags <> []) ->
    runs_from i cur flags = [(default i cur, i + Z.of_nat (length flags))].
Proof.
  induction 1 as [|b t -> _ IH]; intros i cur Hne.
  - destruct cur as [s|]; [|now destruct Hne].
    simpl. now rewrite Z.add_0_r.
  - cbn [runs_from]. rewrite IH by (left; discriminate).
    simpl default. f_equal. f_equal. rewrite length_cons. lia.
Qed.

Lemma rate_positive (sr : positive) : (0 < rate sr)%Q.
Proof. unfold rate. now apply (Qlt_alt 0). Qed.

(** C6.  For every sample array and every positive sample rate,
    [_detect_silences] returns one issue of type silence per maximal
    contiguous run of samples below the silence threshold whose duration
    [(e - s) / sample_rate] is at least one second, in order; the severity
    is low when that duration is below three seconds and medium otherwise.
    In particular a clip of ten seconds all of whose samples are below the
    threshold yields exactly one issue, of medium severity, starting at
    zero and lasting ten seconds. *)
Theorem detect_silences_runs (data : list Q) (sr : positive) :
  let flags := map silent data in
  (forall x, silent x = true <-> (Qabs x + (1 # 10000000000) < 1 # 100)%Q)
  /\ (exists spans : list (Z * Z),
        (forall s e, In (s, e) spans
                     <-> maximal_run flags s e
                         /\ (1 <= inject_Z (e - s) / rate sr)%Q)
        /\ separated spans
        /\ NoDup spans
        /\ Forall2 (fun (span : Z * Z) (issue : Issue) =>
                      let d := (inject_Z (snd span - fst span) / rate sr)%Q in
                      i_type issue = "silence"
                      /\ timestamp issue
                         = _seconds_to_timestamp (inject_Z (fst span) / rate sr)
                      /\ i_duration issue = d
                      /\ ((d < 3)%Q -> severity issue = "low")
                      /\ ((3 <= d)%Q -> severity issue = "medium"))
                   spans (_detect_silences data sr))
  /\ (Forall (fun x => silent x = true) data ->
      Z.of_nat (length data) = 10 * Z.pos sr ->
      exists issue,
        _detect_silences data sr = [issue]
        /\ i_type issue = "silence"
        /\ timestamp issue = "00:00:00.000"
        /\ (i_duration issue == 10)%Q
        /\ severity issue = "medium").
Proof.
  intros flags. split; [exact silent_spec|].
  assert (Hdet : _detect_silences data sr
                 = map (silence_issue sr)
                       (List.filter (long_enough sr) (consecutive_regions flags))).
  { unfold _detect_silences. fold flags.
    rewrite <- (regions_without_guard flags) at 2.
    now destruct (Np.any flags). }
  destruct (consecutive_regions_spec flags) as [Hruns Hsep].
  split.
  - exists (List.filter (long_enough sr) (consecutive_regions flags)).
    assert (Hin : forall s e,
               In (s, e) (List.filter (long_enough sr) (consecutive_regions flags))
               <-> maximal_run flags s e /\ (1 <= inject_Z (e - s) / rate sr)%Q).
    { intros s e. rewrite filter_In, Hruns. unfold long_enough. simpl.
      now rewrite Qle_bool_iff. }
    split; [exact Hin|]. split; [now apply separated_filter|]. split.
    + apply separated_NoDup; [|now apply separated_filter].
      apply Forall_forall. intros [s e] Hse. apply list_elem_of_In, Hin in Hse.
      destruct Hse as [(? & _) _]. simpl. lia.
    + rewrite Hdet. apply Forall2_map_r. intros [s e]. cbn zeta. simpl.
      repeat split; destruct (Qlt_le_dec _ 3); intros; try reflexivity; lra.
  - intros Hall Hlen. rewrite Hdet, consecutive_regions_scan.
    assert (Hflags : Forall (fun b => b = true) flags).
    { unfold flags. apply Forall_map. exact Hall. }
    assert (Hne : flags <> []).
    { intros E. apply (f_equal (@length bool)) in E. unfold flags in E.
      rewrite length_map in E. simpl in E. lia. }
    rewrite (runs_from_all_flagged flags Hflags 0 None) by now right.
    simpl default. unfold flags at 1. rewrite length_map, Hlen.
    assert (Hten : (inject_Z (0 + 10 * Z.pos sr - 0) / rate sr == 10)%Q).
    { pose proof (rate_positive sr) as Hr. unfold rate in *.
      replace (0 + 10 * Z.pos sr - 0) with (10 * Z.pos sr) by lia.
      rewrite inject_Z_mult. change (inject_Z 10) with 10%Q. field. lra. }
    cbn [List.filter]. unfold long_enough at 1. cbn [fst snd].
    assert (Hlong : Qle_bool min_silence_duration
                      (inject_Z (0 + 10 * Z.pos sr - 0) / rate sr) = true).
    { apply Qle_bool_iff. rewrite Hten. unfold min_silence_duration. lra. }
    rewrite Hlong. cbn [map]. eexists. split; [reflexivity|].
    unfold silence_issue. cbn [i_type timestamp i_duration severity].
    split; [reflexivity|]. split.
    + rewrite (seconds_to_timestamp_comp _ 0); [reflexivity|].
      unfold Qdiv. change (inject_Z 0) with 0%Q. ring.
    + split; [exact Hten|].
      destruct (Qlt_le_dec _ 3) as [Hlt|]; [|reflexivity].
      rewrite Hten in Hlt. lra.
Qed.

(** ** Sorting by timestamp *)

Lemma insert_by_key_perm (x : Q * Issue) (l : list (Q * Issue)) :
  Permutation (insert_by_key x l) (x :: l).
Proof.
  induction l as [|y r IH]; simpl; [reflexivity|].
  destruct (Qle_bool (fst x) (fst y)); [reflexivity|].
  rewrite IH. apply perm_swap.
Qed.

Lemma stable_sort_perm (l : list (Q * Issue)) : Permutation (stable_sort l) l.
Proof.
  induction l as [|x r IH]; simpl; [reflexivity|].
  unfold stable_sort in *. simpl. rewrite insert_by_key_perm. now constructor.
Qed.

Lemma insert_by_key_sorted (x : Q * Issue) (l : list (Q * Issue)) :
  StronglySorted key_le l -> StronglySorted key_le (insert_by_key x l).
Proof.
  induction 1 as [|y r Hs IH Hall]; simpl; [repeat constructor|].
  destruct (Qle_bool (fst x) (fst y)) eqn:E.
  - apply Qle_bool_iff in E. constructor; [now constructor|].
    constructor; [exact E|].
    eapply Forall_impl; [exact Hall|]. intros z Hz. unfold key_le in *.
    now apply Qle_trans with (fst y).
  - constructor; [exact IH|].
    assert (Hyx : key_le y x).
    { unfold key_le. apply Qlt_le_weak, Qnot_le_lt. intros Hle.
      apply Qle_bool_iff in Hle. congruence. }
    rewrite Forall_forall. intros z Hz.
    apply list_elem_of_In in Hz.
    apply (Permutation_in _ (insert_by_key_perm x r)) in Hz.
    destruct Hz as [<-|Hz]; [exact Hyx|].
    rewrite Forall_forall in Hall. apply Hall. now apply list_elem_of_In.
Qed.

Lemma stable_sort_sorted (l : list (Q * Issue)) : StronglySorted key_le (stable_sort l).
Proof.
  induction l as [|x r IH]; [constructor|].
  unfold stable_sort in *. simpl. now apply insert_by_key_sorted.
Qed.

Lemma timestamp_keys_ok (l : list Issue) :
  Forall valid_timestamp l ->
  exists ks, timestamp_keys l = Ok ks /\ map snd ks = l /\ Forall keyed ks.
Proof.
  induction 1 as [|i r [k Hk] _ (ks & Hks & Hmap & Hall)]; simpl.
  - exists []. repeat split. constructor.
  - rewrite Hk, Hks. exists ((k, i) :: ks). split; [reflexivity|].
    split; [simpl; now f_equal|]. constructor; [exact Hk|exact Hall].
Qed.

(** [sorted] returns a permutation of its argument in ascending order of
    the converted timestamps, provided that every timestamp converts. *)
Lemma sorted_by_timestamp_ok (l : list Issue) :
  Forall valid_timestamp l ->
  exists out, sorted_by_timestamp l = Ok out
              /\ Permutation out l
              /\ ascending_by_timestamp out.
Proof.
  intros Hv. destruct (timestamp_keys_ok l Hv) as (ks & Hks & Hmap & Hall).
  unfold sorted_by_timestamp. rewrite Hks.
  eexists. split; [reflexivity|]. split.
  - rewrite <- Hmap. apply Permutation_map, stable_sort_perm.
  - exists (map fst (stable_sort ks)). split.
    + assert (Hall' : Forall keyed (stable_sort ks)).
      { rewrite Forall_forall in *. intros p Hp. apply Hall.
        apply list_elem_of_In. apply list_elem_of_In in Hp.
        now apply (Permutation_in _ (stable_sort_perm ks)). }
      induction Hall' as [|p r Hp _ IH]; simpl; constructor; auto.
    + pose proof (stable_sort_sorted ks) as Hs.
      induction Hs as [|p r _ IH Hp]; simpl; constructor; auto.
      apply Forall_map. exact Hp.
Qed.

(** *** Every issue carries a timestamp that converts *)

Lemma valid_printed (q : Q) (ty : string) (d : Q) (sev desc fx : string) :
  valid_timestamp (mkIssue ty (_seconds_to_timestamp q) d sev desc fx).
Proof. destruct (timestamp_roundtrip_value q) as (v & Hv & _). now exists v. Qed.

Lemma valid_zero (ty : string) (d : Q) (sev desc fx : string) :
  valid_timestamp (mkIssue ty "00:00:00.000" d sev desc fx).
Proof. eexists. vm_compute. reflexivity. Qed.

Lemma analyze_loudness_valid meter data sr :
  Forall valid_timestamp (_analyze_loudness meter data sr).
Proof.
  unfold _analyze_loudness.
  destruct meter as [[l|]|]; try constructor.
  destruct (Qlt_le_dec l (-28)); [repeat constructor; apply valid_zero|].
  destruct (Qlt_le_dec (-12) l); repeat constructor. apply valid_zero.
Qed.

Lemma detect_clipping_valid data sr : Forall valid_timestamp (_detect_clipping data sr).
Proof.
  unfold _detect_clipping. destruct (Np.any _); [|constructor].
  apply Forall_map, Forall_forall. intros [s e] _. apply valid_printed.
Qed.

Lemma detect_silences_valid data sr : Forall valid_timestamp (_detect_silences data sr).
Proof.
  unfold _detect_silences. destruct (Np.any _); [|constructor].
  apply Forall_map, Forall_forall. intros [s e] _. apply valid_printed.
Qed.

Lemma detect_voice_glitches_valid scan data sr :
  Forall valid_timestamp (_detect_voice_glitches scan data sr).
Proof.
  unfold _detect_voice_glitches. destruct scan as [flags|]; [|constructor].
  destruct (Np.any flags); [|constructor].
  destruct (Np.where_eq _ _) as [|i0 rest]; [constructor|].
  apply Forall_forall. intros i Hi. apply list_elem_of_omap in Hi as (g & _ & Hg).
  unfold glitch_issue in Hg. destruct (Qlt_le_dec _ _); [|discriminate].
  injection Hg as <-. apply valid_printed.
Qed.

Lemma close_frozen_valid st : Forall valid_timestamp (close_frozen st).
Proof.
  unfold close_frozen. destruct (frozen_start st); [|constructor].
  destruct (Qlt_le_dec _ _); repeat constructor. apply valid_printed.
Qed.

Lemma frame_step_valid clip st t :
  Forall valid_timestamp (issues st) -> Forall valid_timestamp (issues (frame_step clip st t)).
Proof.
  intros Hst. unfold frame_step.
  assert (Hblack : Forall valid_timestamp
            match get_frame clip t with
            | Ok g => match mean_brightness g with
                      | Some b => if Qlt_le_dec b 8 then issues st ++ [black_frame_issue t b]
                                  else issues st
                      | None => issues st
                      end
            | Raise _ => issues st
            end).
  { destruct (get_frame clip t) as [g|]; [|exact Hst].
    destruct (mean_brightness g) as [b|]; [|exact Hst].
    destruct (Qlt_le_dec b 8); [|exact Hst].
    apply Forall_app. split; [exact Hst|]. repeat constructor. apply valid_printed. }
  destruct (get_frame clip t) as [g|e]; simpl.
  - destruct (prev_frame st) as [prev|]; simpl; [|exact Hblack].
    destruct (frame_mse g prev) as [mse|e]; simpl.
    + destruct (psnr_above_45 mse); simpl; [exact Hblack|].
      apply Forall_app. split; [exact Hblack|apply close_frozen_valid].
    + apply Forall_app. split; [exact Hblack|]. repeat constructor. apply valid_printed.
  - apply Forall_app. split; [exact Hst|]. repeat constructor. apply valid_printed.
Qed.

Lemma frame_loop_valid clip times :
  forall st, Forall valid_timestamp (issues st) ->
             Forall valid_timestamp (issues (fold_left (frame_step clip) times st)).
Proof.
  induction times as [|t r IH]; intros st Hst; simpl; [exact Hst|].
  apply IH. now apply frame_step_valid.
Qed.


(** ** Frozen frames *)

Lemma filter_frozen_app (a b : list Issue) :
  List.filter is_frozen (a ++ b) = List.filter is_frozen a ++ List.filter is_frozen b.
Proof. apply List.filter_app. Qed.

(** Closing the open run reports it exactly when it is long. *)
Lemma close_frozen_reports (comps : list (Q * bool)) (i : Z) (cur : option Z)
    (st : FrameLoop) :
  frozen_state comps i cur st ->
  Forall2 (reports_frozen_run comps)
          (List.filter long_run (match cur with Some s => [(s, i)] | None => [] end))
          (List.filter is_frozen (close_frozen st)).
Proof.
  unfold frozen_state, close_frozen. destruct cur as [s|].
  - intros (Hs & -> & Hd). simpl. unfold long_run. simpl.
    destruct (Qlt_le_dec 2 (frozen_duration st)) as [Hlt|Hle];
      destruct (Z.ltb_spec 2 (i - s)) as [Hz|Hz]; simpl.
    + repeat constructor; simpl; auto.
      destruct (Qlt_le_dec 5 (frozen_duration st)) as [H5|H5];
        destruct (Z.ltb_spec 5 (i - s)) as [Hz5|Hz5]; try reflexivity; exfalso.
      * rewrite Hd in H5. change 5%Q with (inject_Z 5) in H5.
        rewrite <- Zlt_Qlt in H5. lia.
      * rewrite Hd in H5. change 5%Q with (inject_Z 5) in H5.
        rewrite <- Zle_Qle in H5. lia.
    + exfalso. rewrite Hd in Hlt. change 2%Q with (inject_Z 2) in Hlt.
      rewrite <- Zlt_Qlt in Hlt. lia.
    + exfalso. rewrite Hd in Hle. change 2%Q with (inject_Z 2) in Hle.
      rewrite <- Zle_Qle in Hle. lia.
    + constructor.
  - intros (-> & _). simpl. constructor.
Qed.

(** One iteration, by cases on what the sample gives. *)
Lemma frame_step_cases (clip : VideoClip) (st : FrameLoop) (t : Q) :
  let st' := frame_step clip st t in
  let unchanged :=
    frozen_start st' = frozen_start st
    /\ frozen_duration st' = frozen_duration st
    /\ List.filter is_frozen (issues st') = List.filter is_frozen (issues st) in
  match get_frame clip t with
  | Raise _ => prev_frame st' = prev_frame st /\ unchanged
  | Ok g =>
      match prev_frame st with
      | None => prev_frame st' = Some g /\ unchanged
      | Some p =>
          match frame_mse g p with
          | Raise _ => prev_frame st' = prev_frame st /\ unchanged
          | Ok mse =>
              prev_frame st' = Some g
              /\ if psnr_above_45 mse
                 then frozen_start st'
                      = Some (default (t - sample_interval)%Q (frozen_start st))
                      /\ frozen_duration st' = (frozen_duration st + sample_interval)%Q
                      /\ List.filter is_frozen (issues st')
                         = List.filter is_frozen (issues st)
                 else frozen_start st' = None
                      /\ frozen_duration st' = 0%Q
                      /\ List.filter is_frozen (issues st')
                         = List.filter is_frozen (issues st)
                           ++ List.filter is_frozen (close_frozen st)
          end
      end
  end.
Proof.
  cbv zeta. unfold frame_step.
  destruct (get_frame clip t) as [g|e].
  - set (issues1 := match mean_brightness g with
                    | Some b => if Qlt_le_dec b 8 then issues st ++ [black_frame_issue t b]
                                else issues st
                    | None => issues st
                    end).
    assert (H1 : List.filter is_frozen issues1 = List.filter is_frozen (issues st)).
    { unfold issues1. destruct (mean_brightness g) as [b|]; [|reflexivity].
      destruct (Qlt_le_dec b 8); [|reflexivity].
      rewrite filter_frozen_app. simpl. apply app_nil_r. }
    destruct (prev_frame st) as [p|]; [|now cbn].
    destruct (frame_mse g p) as [mse|e].
    + destruct (psnr_above_45 mse); cbn.
      * repeat split; auto. now destruct (frozen_start st).
      * repeat split; auto. now rewrite filter_frozen_app, H1.
    + cbn. repeat split; auto. rewrite filter_frozen_app, H1. simpl. apply app_nil_r.
  - cbn. repeat split; auto. rewrite filter_frozen_app. simpl. apply app_nil_r.
Qed.

Lemma frame_loop_frozen (clip : VideoClip) (times : list Q) :
  forall (st : FrameLoop) (done : list (Q * bool)) (cur : option Z),
    let rest := loop_tests clip (prev_frame st) times in
    let final := fold_left (frame_step clip) times st in
    frozen_state (done ++ rest) (Z.of_nat (length done)) cur st ->
    exists new,
      List.filter is_frozen (issues final ++ close_frozen final)
      = List.filter is_frozen (issues st) ++ new
      /\ Forall2 (reports_frozen_run (done ++ rest))
                 (List.filter long_run
                    (runs_from (Z.of_nat (length done)) cur (map snd rest)))
                 new.
Proof.
  induction times as [|t r IH]; intros st done cur; cbv zeta.
  - simpl. intros Hst. exists (List.filter is_frozen (close_frozen st)).
    split; [apply filter_frozen_app|]. now apply close_frozen_reports.
  - cbn [fold_left loop_tests].
    pose proof (frame_step_cases clip st t) as Hstep. cbv zeta in Hstep.
    set (st' := frame_step clip st t) in *.
    destruct (get_frame clip t) as [g|e].
    2:{ destruct Hstep as (Hp & Hs & Hd & Hf). intros Hst.
        destruct (IH st' done cur) as (new & Hnew & Hrel).
        { rewrite Hp. destruct cur; simpl in *; rewrite Hs, Hd; exact Hst. }
        exists new. rewrite Hnew, Hf, Hp in *. auto. }
    destruct (prev_frame st) as [p|] eqn:Eprev.
    2:{ destruct Hstep as (Hp & Hs & Hd & Hf). intros Hst.
        destruct (IH st' done cur) as (new & Hnew & Hrel).
        { rewrite Hp. destruct cur; simpl in *; rewrite Hs, Hd; exact Hst. }
        exists new. rewrite Hnew, Hf, Hp in *. auto. }
    destruct (frame_mse g p) as [mse|e].
    2:{ destruct Hstep as (Hp & Hs & Hd & Hf). intros Hst.
        destruct (IH st' done cur) as (new & Hnew & Hrel).
        { rewrite Hp. destruct cur; simpl in *; rewrite Hs, Hd; exact Hst. }
        exists new. rewrite Hnew, Hf, Hp in *. auto. }
    destruct Hstep as (Hp & Hstep).
    set (b := psnr_above_45 mse) in *.
    set (rest' := loop_tests clip (Some g) r).
    assert (Hall : (done ++ [(t, b)]) ++ rest' = done ++ (t, b) :: rest')
      by now rewrite <- app_assoc.
    assert (Hlen : Z.of_nat (length (done ++ [(t, b)])) = Z.of_nat (length done) + 1)
      by (rewrite length_app; simpl; lia).
    assert (Hnth : nth (Z.to_nat (Z.of_nat (length done))) (done ++ (t, b) :: rest')
                       (0%Q, false) = (t, b)).
    { rewrite Nat2Z.id. apply nth_middle. }
    intros Hst. specialize (IH st' (done ++ [(t, b)])). cbv zeta in IH.
    rewrite Hp in IH. fold rest' in IH. rewrite Hall, Hlen in IH.
    cbn [map snd runs_from].
    destruct b.
    + (* similar to the previous frame *)
      destruct Hstep as (Hs & Hd & Hf).
      destruct (IH (Some (default (Z.of_nat (length done)) cur))) as (new & Hnew & Hrel).
      { destruct cur as [s0|]; simpl in *.
        - destruct Hst as (Hs0 & Hfs & Hfd). rewrite Hfs in Hs. simpl in Hs.
          split; [lia|]. split; [exact Hs|].
          rewrite Hd, Hfd. unfold sample_interval.
          change 1%Q with (inject_Z 1). rewrite <- inject_Z_plus.
          now replace (Z.of_nat (length done) - s0 + 1)
            with (Z.of_nat (length done) + 1 - s0) by lia.
        - destruct Hst as (Hfs & Hfd). rewrite Hfs in Hs. simpl in Hs.
          split; [lia|]. split; [now rewrite Hnth|].
          rewrite Hd, Hfd. unfold sample_interval.
          replace (Z.of_nat (length done) + 1 - Z.of_nat (length done)) with 1 by lia.
          reflexivity. }
      exists new. rewrite Hnew, Hf. auto.
    + (* different from the previous frame: the open run is closed *)
      destruct Hstep as (Hs & Hd & Hf).
      destruct (IH None) as (new & Hnew & Hrel).
      { simpl. rewrite Hs, Hd. split; reflexivity. }
      exists (List.filter is_frozen (close_frozen st) ++ new).
      split; [rewrite Hnew, Hf; now rewrite app_assoc|].
      pose proof (close_frozen_reports _ _ _ _ Hst) as Hclose.
      destruct cur as [s0|]; cbn [List.filter] in *.
      * destruct (long_run (s0, Z.of_nat (length done))).
        -- inversion Hclose as [|? ? ? ? Hh Ht E1 E2]; subst.
           inversion Ht; subst. simpl. constructor; [exact Hh|exact Hrel].
        -- inversion Hclose; subst. simpl. exact Hrel.
      * inversion Hclose; subst. simpl. exact Hrel.
Qed.

Lemma filter_frozen_perm (a b : list Issue) :
  Permutation a b -> Permutation (List.filter is_frozen a) (List.filter is_frozen b).
Proof.
  induction 1 as [|x a b _ IH|x y a|a b c _ IH1 _ IH2]; simpl.
  - constructor.
  - destruct (is_frozen x); [now constructor|exact IH].
  - destruct (is_frozen x), (is_frozen y); try reflexivity. apply perm_swap.
  - now transitivity (List.filter is_frozen b).
Qed.

Lemma squared_diff_same_size (g p : GrayFrame) :
  length g = length p -> exists sq, squared_diff g p = Ok sq.
Proof.
  revert p. induction g as [|a g IH]; intros [|b p] Hlen; try discriminate.
  - now exists [].
  - injection Hlen as Hlen. destruct (IH p Hlen) as [sq Hsq].
    simpl. rewrite Hsq. eauto.
Qed.

(** When every sample decodes to a frame of the same size, the tests of the
    loop are the tests between each sample and the sample before it. *)
Lemma loop_tests_of_decoded_frames (clip : VideoClip) (n : nat) :
  forall (samples : list (Q * GrayFrame)) (prev : GrayFrame),
    length prev = n ->
    Forall (fun s => get_frame clip (fst s) = Ok (snd s) /\ length (snd s) = n) samples ->
    loop_tests clip (Some prev) (map fst samples) = consecutive_tests prev samples.
Proof.
  induction samples as [|[t g] r IH]; intros prev Hprev Hall; [reflexivity|].
  apply Forall_cons in Hall as [[Hg Hn] Hall]. simpl in *.
  rewrite Hg. unfold similar, frame_mse.
  destruct (squared_diff_same_size g prev) as [sq ->]; [congruence|].
  f_equal. now apply IH.
Qed.

(** Grouping.  Let [comps] be the tests of the loop (see [loop_tests]: the
    test of the code, on byte arithmetic).  The frozen-frame issues that
    [analyze_video] returns correspond one to one to the maximal contiguous
    runs of samples passing that test that span more than two seconds, a
    run still open at the end of the sequence included: never one issue per
    sampled frame.  The issue of a run starts one sampling interval before
    its first passing sample, lasts one second per passing sample, and its
    severity is high beyond five seconds and medium otherwise. *)
Lemma frozen_issues_follow_loop_tests (self : VideoAnalyzer) (clip : VideoClip) :
  video_clip self = Some clip ->
  let comps := loop_tests clip None (Np.arange (duration clip)) in
  let flags := map snd comps in
  exists (out : list Issue) (spans : list (Z * Z)) (frozen : list Issue),
    analyze_video self = Ok out
    /\ Permutation frozen (List.filter is_frozen out)
    /\ (forall s e, In (s, e) spans <-> maximal_run flags s e /\ 2 < e - s)
    /\ separated spans
    /\ NoDup spans
    /\ Forall2 (fun (span : Z * Z) (issue : Issue) =>
                  let first_similar := fst (nth (Z.to_nat (fst span)) comps (0%Q, false)) in
                  let seconds := snd span - fst span in
                  i_type issue = "frozen_frame"
                  /\ timestamp issue
                     = _seconds_to_timestamp (first_similar - sample_interval)
                  /\ (i_duration issue == inject_Z seconds)%Q
                  /\ severity issue = (if 5 <? seconds then "high" else "medium"))
               spans frozen.
Proof.
  intros Hclip comps flags. unfold analyze_video. rewrite Hclip.
  set (times := Np.arange (duration clip)) in *.
  set (final := frame_loop clip times).
  destruct (sorted_by_timestamp_ok (issues final ++ close_frozen final))
    as (out & Hout & Hperm & _).
  { apply Forall_app. split; [|apply close_frozen_valid].
    apply frame_loop_valid. constructor. }
  destruct (frame_loop_frozen clip times (mkFrameLoop [] None None 0%Q) [] None)
    as (new & Hnew & Hrel).
  { simpl. split; reflexivity. }
  cbn [prev_frame issues length app List.filter] in Hnew, Hrel.
  fold comps in Hrel. fold flags in Hrel. change (Z.of_nat 0) with 0 in Hrel.
  fold (frame_loop clip times) in Hnew. fold final in Hnew.
  pose proof (runs_from_spec flags [] None) as Hspec. simpl in Hspec.
  destruct (runs_from_separated flags 0 None) as [Hsep Hpos]; [discriminate|].
  assert (Hin : forall s e,
             In (s, e) (List.filter long_run (runs_from 0 None flags))
             <-> maximal_run flags s e /\ 2 < e - s).
  { intros s e. rewrite filter_In, Hspec by reflexivity.
    unfold long_run. simpl. rewrite Z.ltb_lt. split; [tauto|].
    intros [Hm Hl]. split; [split; [exact Hm|]|exact Hl].
    destruct Hm as (? & _). simpl. lia. }
  exists out, (List.filter long_run (runs_from 0 None flags)), new.
  split; [exact Hout|]. split.
  { rewrite <- Hnew. symmetry. now apply filter_frozen_perm. }
  split; [exact Hin|]. split; [now apply separated_filter|]. split.
  { apply separated_NoDup; [|now apply separated_filter].
    apply Forall_forall. intros [s e] Hse. apply list_elem_of_In, Hin in Hse.
    simpl. lia. }
  exact Hrel.
Qed.

Lemma frozen_issues_follow_loop_tests_example :
  video_clip (loaded paused_clip) = Some paused_clip
  /\ exists (out : list Issue) (spans : list (Z * Z)) (frozen : list Issue),
       analyze_video (loaded paused_clip) = Ok out
       /\ Permutation frozen (List.filter is_frozen out)
       /\ (forall s e,
              In (s, e) spans
              <-> maximal_run
                    (map snd (loop_tests paused_clip None (Np.arange (duration paused_clip))))
                    s e /\ 2 < e - s)
       /\ separated spans
       /\ NoDup spans
       /\ Forall2 (fun (span : Z * Z) (issue : Issue) =>
                     let first_similar :=
                       fst (nth (Z.to_nat (fst span))
                              (loop_tests paused_clip None (Np.arange (duration paused_clip)))
                              (0%Q, false)) in
                     let seconds := snd span - fst span in
                     i_type issue = "frozen_frame"
                     /\ timestamp issue
                        = _seconds_to_timestamp (first_similar - sample_interval)
                     /\ (i_duration issue == inject_Z seconds)%Q
                     /\ severity issue = (if 5 <? seconds then "high" else "medium"))
                  spans frozen.
Proof.
  split; [reflexivity|].
  apply (frozen_issues_follow_loop_tests (loaded paused_clip) paused_clip). reflexivity.
Qed.

(** The scenario of the specification: the pause gives exactly one
    frozen-frame issue, of three seconds and medium severity. *)
Example paused_clip_frozen_issue :
  option_map (map (fun i => (i_type i, timestamp i, Qred (i_duration i), severity i)))
             (match analyze_video (loaded paused_clip) with
              | Ok out => Some (List.filter is_frozen out)
              | Raise _ => None
              end)
  = Some [("frozen_frame", "00:00:02.000", 3%Q, "medium")].
Proof. vm_compute. reflexivity. Qed.

(** *** Where the test of the loop is the PSNR, and where it is not *)

Lemma square_without_wrap (a b : Z) :
  -16 < a - b < 16 -> (((a - b) mod 256) ^ 2) mod 256 = (a - b) ^ 2.
Proof.
  intros Hd. rewrite !Z.pow_2_r.
  destruct (Z.le_gt_cases 0 (a - b)) as [Hpos|Hneg].
  - rewrite (Z.mod_small (a - b)) by lia. apply Z.mod_small. nia.
  - assert (Hm : (a - b) mod 256 = a - b + 256).
    { symmetry. apply (Z.mod_unique (a - b) 256 (-1)); lia. }
    rewrite Hm.
    replace ((a - b + 256) * (a - b + 256))
      with ((a - b) * (a - b) + (2 * (a - b) + 256) * 256) by lia.
    rewrite Z.mod_add by lia. apply Z.mod_small. nia.
Qed.

(** As long as no pixel changes by 16 levels or more, the byte arithmetic
    does not wrap and the test of the loop is the PSNR test. *)
Lemma similar_is_psnr_without_wrap (gray prev : GrayFrame) :
  Forall2 (fun a b => -16 < a - b < 16) gray prev ->
  similar gray prev = psnr_exceeds_45 gray prev.
Proof.
  intros Hall.
  assert (Hsq : squared_diff gray prev
                = Ok (map (fun p : Z * Z => (fst p - snd p) ^ 2) (combine gray prev))).
  { induction Hall as [|a b g p Hab _ IH]; [reflexivity|].
    cbn [squared_diff combine map fst snd]. now rewrite IH, (square_without_wrap a b Hab). }
  unfold similar, frame_mse, psnr_exceeds_45, pixel_mse.
  rewrite Hsq, (Forall2_length _ _ _ Hall), Nat.eqb_refl, map_map.
  destruct (Np.mean _) as [m|]; [|reflexivity].
  unfold psnr_above_45. now destruct (Qeq_bool m 0).
Qed.

(** C5 (the code departs from the claim).  On the flickering clip no sampled
    frame is similar to the one before it: the mean squared error of two
    consecutive samples is 25600, a PSNR of about 4 dB, so there is no run of
    similar samples and the claim asks for no frozen-frame issue.  The
    difference of the bytes 40 and 200 squares to a multiple of 256, so the
    loop computes a mean squared error of zero for every pair, and
    [analyze_video] returns one frozen-frame issue of high severity that
    covers seven seconds. *)
Lemma flicker_reported_as_frozen :
  let flags := psnr_flags flicker_clip None (Np.arange (duration flicker_clip)) in
  (exists mse, pixel_mse [200; 200; 200; 200] [40; 40; 40; 40] = Some mse
               /\ (mse == 25600)%Q)
  /\ (exists mse, frame_mse [200; 200; 200; 200] [40; 40; 40; 40] = Ok (Some mse)
                  /\ (mse == 0)%Q)
  /\ flags = [false; false; false; false; false; false; false]
  /\ (forall s e, ~ maximal_run flags s e)
  /\ exists issue,
       analyze_video (loaded flicker_clip) = Ok [issue]
       /\ i_type issue = "frozen_frame"
       /\ timestamp issue = "00:00:00.000"
       /\ (i_duration issue == 7)%Q
       /\ severity issue = "high".
Proof.
  cbv zeta.
  assert (Hflags : psnr_flags flicker_clip None (Np.arange (duration flicker_clip))
                   = [false; false; false; false; false; false; false])
    by (vm_compute; reflexivity).
  rewrite Hflags.
  split; [eexists; split; [reflexivity|reflexivity]|].
  split; [eexists; split; [reflexivity|reflexivity]|].
  split; [reflexivity|]. split.
  - intros s e (Hs & He & Hall & _). cbn [length] in He.
    specialize (Hall s ltac:(lia)). unfold flag_at in Hall.
    destruct (Z.ltb_spec s 0); [discriminate|].
    assert (Hcase : (Z.to_nat s < 7)%nat) by lia.
    destruct (Z.to_nat s) as [|[|[|[|[|[|[|n]]]]]]]; cbn in Hall; try discriminate; lia.
  - eexists. split; [vm_compute; reflexivity|].
    split; [reflexivity|]. split; [reflexivity|]. split; reflexivity.
Qed.

(** ** Media without an audio stream *)

(** C2 (as stated, refuted).  On a loaded clip that has no audio stream,
    [analyze_audio] returns the empty list: it emits no [no_audio] issue. *)
Lemma analyze_audio_emits_no_no_audio :
  audio (still_clip 3 [0; 0; 0; 0]) = None
  /\ audio_result (analyze_audio (loaded (still_clip 3 [0; 0; 0; 0]))) = Ok []
  /\ ~ (exists issue,
          audio_result (analyze_audio (loaded (still_clip 3 [0; 0; 0; 0]))) = Ok [issue]
          /\ i_type issue = "no_audio" /\ severity issue = "medium").
Proof.
  split; [reflexivity|]. split; [reflexivity|].
  intros (issue & H & _). discriminate H.
Qed.

(** C2 (amended).  For every media handle without an audio stream, neither
    analyzer performs any audio check; [VideoAnalyzer.analyze_audio]
    returns the empty issue list and leaves the analyzer unchanged, and
    the audio stage of [analyze_video_simple] records exactly one issue, of
    type [no_audio] and severity medium, covering the whole duration. *)
Theorem no_audio_stream (np_sqrt : Q -> Q) (self : VideoAnalyzer) (clip : VideoClip) :
  video_clip self = Some clip ->
  audio clip = None ->
  (audio_result (analyze_audio self) = Ok []
   /\ checks_run (analyze_audio self) = []
   /\ audio_self (analyze_audio self) = self)
  /\ exists issue,
       simple_audio_stage np_sqrt clip = ([issue], [])
       /\ i_type issue = "no_audio"
       /\ severity issue = "medium"
       /\ timestamp issue = "00:00:00.000"
       /\ i_duration issue = duration clip.
Proof.
  intros Hclip Haudio. split.
  - unfold analyze_audio. rewrite Hclip, Haudio. auto.
  - unfold simple_audio_stage. rewrite Haudio. eexists. split; [reflexivity|]. auto.
Qed.

Lemma no_audio_stream_witness :
  (audio_result (analyze_audio (loaded (still_clip 3 [0; 0; 0; 0]))) = Ok []
   /\ checks_run (analyze_audio (loaded (still_clip 3 [0; 0; 0; 0]))) = []
   /\ audio_self (analyze_audio (loaded (still_clip 3 [0; 0; 0; 0])))
      = loaded (still_clip 3 [0; 0; 0; 0]))
  /\ exists issue,
       simple_audio_stage (fun x => x) (still_clip 3 [0; 0; 0; 0]) = ([issue], [])
       /\ i_type issue = "no_audio"
       /\ severity issue = "medium"
       /\ timestamp issue = "00:00:00.000"
       /\ i_duration issue = duration (still_clip 3 [0; 0; 0; 0]).
Proof.
  apply (no_audio_stream (fun x => x) (loaded (still_clip 3 [0; 0; 0; 0]))
           (still_clip 3 [0; 0; 0; 0])); reflexivity.
Defined.

(** ** Witnesses and scenarios *)

Lemma timestamp_roundtrip_within_1ms_witness :
  exists v, _timestamp_to_seconds (_seconds_to_timestamp (7384.0625)) = Some v
            /\ (Qabs (v - 7384.0625) <= 1 # 1000)%Q.
Proof. apply (timestamp_roundtrip_within_1ms 7384.0625). vm_compute. discriminate. Defined.

Example timestamp_examples :
  _seconds_to_timestamp 7384.0625 = "02:03:04.062"
  /\ _seconds_to_timestamp 59.9996 = "00:00:60.000"
  /\ _timestamp_to_seconds "02:03:04.062" = Some (7384.062)%Q.
Proof. vm_compute. repeat split. Qed.

(** A clip of ten seconds of digital silence at 4 samples per second. *)
Lemma detect_silences_runs_witness :
  exists issue,
    _detect_silences (repeat 0%Q 40) 4 = [issue]
    /\ i_type issue = "silence"
    /\ timestamp issue = "00:00:00.000"
    /\ (i_duration issue == 10)%Q
    /\ severity issue = "medium".
Proof.
  apply (detect_silences_runs (repeat 0%Q 40) 4).
  - repeat constructor.
  - reflexivity.
Defined.

(** A run on a readable file ends with DONE at progress 100, and the status
    query returns that last write. *)
Example successful_run_status :
  let wld := snd (analyze_video_sync "7c3d" "uploads/7c3d_b.mp4"
                    (fresh_world (S := DictStore) one_upload)) in
  map (fun s => (state s, progress s)) (written wld)
  = [("RUNNING", 0); ("RUNNING", 10); ("RUNNING", 30); ("RUNNING", 60);
     ("RUNNING", 80); ("RUNNING", 90); ("DONE", 100)]
  /\ state (get_job_status (store wld) "7c3d") = "DONE"
  /\ progress (get_job_status (store wld) "7c3d") = 100
  /\ (status ∘ summary) <$> get_job_result (store wld) "7c3d" = Some "PASS"
  /\ disk wld !! "uploads/7c3d_b.mp4" = None.
Proof. vm_compute. repeat split. Qed.

(* ================================================================== *)
(** * Further properties of the code *)
(* ================================================================== *)

(** ** What a run leaves behind *)

#[export] Instance dict_result_laws : ResultStoreLaws DictStore.
Proof.
  split; simpl.
  - intros j. apply lookup_empty.
  - intros s j r. apply lookup_insert_eq.
  - intros s j j' r Hne. now apply lookup_insert_ne.
  - reflexivity.
Qed.

#[export] Instance redis_result_laws : ResultStoreLaws RedisStore.
Proof.
  split; cbn -[String.append].
  - intros j. now rewrite lookup_empty.
  - intros s j r. now rewrite lookup_insert_eq.
  - intros s j j' r Hne. rewrite lookup_insert_ne; [reflexivity|].
    intros E. apply Hne. now apply (String.app_inj "job_result:").
  - reflexivity.
Qed.

Lemma prefixed_nonempty (c : ascii) (p e : string) : String c p +:+ e <> EmptyString.
Proof. discriminate. Qed.

(** Neither analysis raises: each returns a permutation of the issues it
    collected. *)
Lemma analyze_video_returns (self : VideoAnalyzer) : exists l, analyze_video self = Ok l.
Proof.
  unfold analyze_video. destruct (video_clip self) as [clip|]; [|now exists []].
  edestruct sorted_by_timestamp_ok as (out & -> & _); [|now exists out].
  apply Forall_app. split; [|apply close_frozen_valid].
  apply frame_loop_valid. constructor.
Qed.

Lemma analyze_audio_returns (self : VideoAnalyzer) :
  exists l, audio_result (analyze_audio self) = Ok l.
Proof.
  unfold analyze_audio.
  destruct (video_clip self) as [clip|]; [|now exists []].
  destruct (audio clip) as [a|]; [|now exists []].
  destruct (to_soundarray a) as [arr|e]; cbn [audio_result].
  - edestruct sorted_by_timestamp_ok as (out & -> & _); [|now exists out].
    repeat (apply Forall_app; split).
    + apply analyze_loudness_valid.
    + apply detect_clipping_valid.
    + apply detect_silences_valid.
    + apply detect_voice_glitches_valid.
  - edestruct sorted_by_timestamp_ok as (out & -> & _); [|now exists out].
    repeat constructor. apply valid_zero.
Qed.

Lemma extract_metadata_message fs self e self' :
  extract_metadata fs self = (Raise e, self') -> e <> EmptyString.
Proof.
  unfold extract_metadata.
  destruct (fs !! file_path self) as [file|]; [|intros [= <- _]; discriminate].
  destruct (open_clip file); [discriminate|]. intros [= <- _]. apply prefixed_nonempty.
Qed.

Lemma compute_metrics_message fs self e :
  compute_metrics fs self = Raise e -> e <> EmptyString.
Proof.
  unfold compute_metrics. destruct (video_clip self) as [clip|]; [|discriminate].
  destruct (h clip =? 0); [intros [= <-]; discriminate|].
  destruct (fs !! file_path self); [|intros [= <-]; discriminate].
  destruct (audio_data self), (sample_rate self); discriminate.
Qed.

Lemma generate_summary_message a v m e :
  generate_summary a v m = Raise e -> e <> EmptyString.
Proof.
  unfold generate_summary.
  destruct (default _ _) as [s|q].
  - destruct (String.eqb s "N/A"); [discriminate|]. intros [= <-]. discriminate.
  - destruct (Qlt_le_dec q (-28)); [discriminate|].
    destruct (Qlt_le_dec (-12) q); discriminate.
Qed.

Section RunOutcome.
Context {S : Type} `{JobStoreLaws S} `{!ResultStoreLaws S}.

Ltac step_run :=
  repeat first
    [ rewrite bind_update_job_status
    | rewrite bind_lift_ok
    | rewrite bind_lift_raise
    | rewrite bind_utcnow
    | rewrite bind_read_disk
    | rewrite bind_update_job_result
    | rewrite bind_remove_upload ];
  cbn [store disk clock written ret].

Ltac read_store :=
  repeat first
    [ rewrite get_result_put_status
    | rewrite get_status_put_result
    | rewrite get_put_status_eq
    | rewrite get_put_result_eq
    | rewrite get_put_status_ne by congruence
    | rewrite get_put_result_ne by congruence ].

Ltac failed_stage :=
  split; [reflexivity|]; split; [assumption|]; split; intros; read_store; reflexivity.

(** The effect of the stages on the upload folder and on the store. *)
Lemma run_stages_outcome (job_id path : string) (wld : World S) :
  match run_stages job_id path wld with
  | (Ok r, wld') =>
      disk wld' = delete path (disk wld)
      /\ r_job_id r = job_id
      /\ filename r = basename path
      /\ get_result (store wld') job_id = Some r
      /\ (exists st, get_status (store wld') job_id = Some st
                     /\ state st = "DONE" /\ progress st = 100 /\ error st = None)
      /\ (forall j, j <> job_id ->
            get_result (store wld') j = get_result (store wld) j
            /\ get_status (store wld') j = get_status (store wld) j)
  | (Raise e, wld') =>
      disk wld' = disk wld
      /\ e <> EmptyString
      /\ (forall j, get_result (store wld') j = get_result (store wld) j)
      /\ (forall j, j <> job_id -> get_status (store wld') j = get_status (store wld) j)
  end.
Proof.
  unfold run_stages. step_run.
  destruct (extract_metadata (disk wld) (__init__ path)) as [[md|e] a] eqn:Emd; step_run.
  2:{ apply extract_metadata_message in Emd. failed_stage. }
  destruct (analyze_audio_returns a) as [ai ->]. step_run.
  destruct (analyze_video_returns (audio_self (analyze_audio a))) as [vi ->]. step_run.
  destruct (compute_metrics (disk wld) (audio_self (analyze_audio a))) as [m|e] eqn:Em;
    step_run.
  2:{ apply compute_metrics_message in Em. failed_stage. }
  destruct (generate_summary ai vi m) as [sm|e] eqn:Es; step_run.
  2:{ apply generate_summary_message in Es. failed_stage. }
  cbn [r_job_id filename].
  split; [reflexivity|]. split; [reflexivity|]. split; [reflexivity|].
  split; [now read_store|]. split.
  - eexists. read_store. split; [reflexivity|]. now cbn.
  - intros j Hj. split; now read_store.
Qed.

End RunOutcome.

Lemma error_kept (m : string) :
  m <> EmptyString -> (if String.eqb m EmptyString then None else Some m) = Some m.
Proof. intros Hm. now destruct (String.eqb_spec m EmptyString). Qed.

Lemma append_nonempty (e x : string) : e <> EmptyString -> e +:+ x <> EmptyString.
Proof. destruct e; [congruence|]. intros _. discriminate. Qed.

Section RunEffects.
Context {S : Type} `{JobStoreLaws S} `{!ResultStoreLaws S}.

Lemma sync_unfold (job_id path : string) (wld : World S) :
  analyze_video_sync job_id path wld
  = match run_stages job_id path wld with
    | (Ok _, wld') => (Ok tt, wld')
    | (Raise e, wld') =>
        (Ok tt,
         mkWorld
           (put_status job_id
              (mkStatus job_id "ERROR" 0 "Analysis failed" (Some (clock wld'))
                 (if String.eqb e EmptyString then None else Some e))
              (store wld'))
           (delete path (disk wld')) (Datatypes.S (clock wld'))
           (written wld'
            ++ [mkStatus job_id "ERROR" 0 "Analysis failed" (Some (clock wld'))
                  (if String.eqb e EmptyString then None else Some e)]))
    end.
Proof.
  unfold analyze_video_sync, try_except.
  change (bind (run_stages job_id path) (fun _ => ret tt) wld)
    with (match run_stages job_id path wld with
          | (Ok a, wld') => ret (S := S) tt wld'
          | (Raise e, wld') => (Raise e, wld')
          end).
  now destruct (run_stages job_id path wld) as [[r|e] wld'].
Qed.

Lemma task_unfold (traceback : string -> string) (job_id path : string) (wld : World S) :
  analyze_video_task traceback job_id path wld
  = match run_stages job_id path wld with
    | (Ok r, wld') => (Ok r, wld')
    | (Raise e, wld') =>
        let msg := e +:+ "
" +:+ traceback e in
        (Raise e,
         mkWorld
           (put_status job_id
              (mkStatus job_id "ERROR" 0 "Analysis failed" (Some (clock wld'))
                 (if String.eqb msg EmptyString then None else Some msg))
              (store wld'))
           (delete path (disk wld')) (Datatypes.S (clock wld'))
           (written wld'
            ++ [mkStatus job_id "ERROR" 0 "Analysis failed" (Some (clock wld'))
                  (if String.eqb msg EmptyString then None else Some msg)]))
    end.
Proof.
  unfold analyze_video_task, try_except.
  now destruct (run_stages job_id path wld) as [[r|e] wld'].
Qed.

(** X1.  Whatever the outcome of a run, the worker removes the uploaded
    file: after [analyze_video_sync] and after the Celery task the upload
    folder is the one before the run without the file at [path]. *)
Theorem run_removes_upload (traceback : string -> string) (job_id path : string)
    (wld : World S) :
  disk (snd (analyze_video_sync job_id path wld)) = delete path (disk wld)
  /\ disk (snd (analyze_video_task traceback job_id path wld)) = delete path (disk wld).
Proof.
  rewrite sync_unfold, task_unfold.
  pose proof (run_stages_outcome job_id path wld) as Hout.
  destruct (run_stages job_id path wld) as [[r|e] wld']; cbn [snd disk].
  - destruct Hout as (Hd & _). now rewrite Hd.
  - destruct Hout as (Hd & _). now rewrite Hd.
Qed.

(** X2.  For a job that has no stored result yet, a run of
    [analyze_video_sync] ends in one of two ways.  Either the status read
    back is DONE with progress 100 and no error, and the result is stored
    under the job identifier with that identifier and the base name of the
    upload; or the status read back is ERROR with progress 0 and a
    non-empty error message, and no result is stored. *)
Theorem sync_run_outcome (job_id path : string) (wld : World S) :
  get_result (store wld) job_id = None ->
  let wld' := snd (analyze_video_sync job_id path wld) in
  let st := get_job_status (store wld') job_id in
  (state st = "DONE" /\ progress st = 100 /\ error st = None
   /\ exists r, get_job_result (store wld') job_id = Some r
                /\ r_job_id r = job_id /\ filename r = basename path)
  \/ (state st = "ERROR" /\ progress st = 0
      /\ (exists msg, error st = Some msg /\ msg <> EmptyString)
      /\ get_job_result (store wld') job_id = None).
Proof.
  intros Hnone. cbv zeta. rewrite sync_unfold.
  pose proof (run_stages_outcome job_id path wld) as Hout.
  destruct (run_stages job_id path wld) as [[r|e] wld']; cbn [snd store].
  - left. destruct Hout as (_ & Hid & Hname & Hres & (st & Hst & Hs & Hp & He) & _).
    unfold get_job_status, get_job_result. rewrite Hst, Hres. eauto 10.
  - right. destruct Hout as (_ & Hne & Hres & _).
    unfold get_job_status, get_job_result.
    rewrite get_put_status_eq, get_result_put_status, Hres, Hnone.
    cbn [state progress error]. rewrite (error_kept e Hne). eauto 10.
Qed.

(** X3.  The Celery task raises exactly when it records a failure: if it
    returns a result, the status read back is DONE and the stored result is
    the one returned; if it raises [e], the status read back is ERROR with
    progress 0 and the error payload is [e], a line break and the
    traceback.  The thread worker [analyze_video_sync] never raises. *)
Theorem task_raises_what_it_records (traceback : string -> string)
    (job_id path : string) (wld : World S) :
  match analyze_video_task traceback job_id path wld with
  | (Ok r, wld') =>
      state (get_job_status (store wld') job_id) = "DONE"
      /\ get_job_result (store wld') job_id = Some r
  | (Raise e, wld') =>
      e <> EmptyString
      /\ state (get_job_status (store wld') job_id) = "ERROR"
      /\ progress (get_job_status (store wld') job_id) = 0
      /\ error (get_job_status (store wld') job_id)
         = Some (e +:+ "
" +:+ traceback e)
  end
  /\ fst (analyze_video_sync job_id path wld) = Ok tt.
Proof.
  rewrite sync_unfold, task_unfold.
  pose proof (run_stages_outcome job_id path wld) as Hout.
  destruct (run_stages job_id path wld) as [[r|e] wld']; cbn [fst].
  - destruct Hout as (_ & _ & _ & Hres & (st & Hst & Hs & _) & _).
    unfold get_job_status, get_job_result. rewrite Hst, Hres. auto.
  - destruct Hout as (_ & Hne & _). cbv zeta.
    unfold get_job_status. cbn [store]. rewrite get_put_status_eq.
    cbn [state progress error].
    rewrite (error_kept _ (append_nonempty e _ Hne)). auto.
Qed.

(** X4.  A run touches the entries of its own job only: the status and the
    result of every other job read back as before the run, for both
    workers. *)
Theorem run_leaves_other_jobs (traceback : string -> string) (j job_id path : string)
    (wld : World S) :
  j <> job_id ->
  (get_job_status (store (snd (analyze_video_sync job_id path wld))) j
   = get_job_status (store wld) j
   /\ get_job_result (store (snd (analyze_video_sync job_id path wld))) j
      = get_job_result (store wld) j)
  /\ (get_job_status (store (snd (analyze_video_task traceback job_id path wld))) j
      = get_job_status (store wld) j
      /\ get_job_result (store (snd (analyze_video_task traceback job_id path wld))) j
         = get_job_result (store wld) j).
Proof.
  intros Hj. rewrite sync_unfold, task_unfold.
  pose proof (run_stages_outcome job_id path wld) as Hout.
  unfold get_job_status, get_job_result.
  destruct (run_stages job_id path wld) as [[r|e] wld']; cbn [snd store].
  - destruct Hout as (_ & _ & _ & _ & _ & Hother).
    destruct (Hother j Hj) as [-> ->]. auto.
  - destruct Hout as (_ & _ & Hres & Hst). cbv zeta. cbn [snd store].
    rewrite !get_result_put_status, Hres.
    rewrite !get_put_status_ne by congruence. rewrite (Hst j Hj). auto.
Qed.

End RunEffects.

Lemma run_removes_upload_witness :
  disk (snd (analyze_video_sync "7c3d" "uploads/7c3d_b.mp4"
               (fresh_world (S := DictStore) one_upload))) = ∅.
Proof.
  rewrite (proj1 (run_removes_upload (S := DictStore) (fun e => e) "7c3d"
                    "uploads/7c3d_b.mp4" (fresh_world one_upload))).
  apply delete_singleton_eq.
Defined.

Lemma sync_run_outcome_witness :
  get_result (store (fresh_world (S := DictStore) one_upload)) "7c3d" = None
  /\ (let wld' := snd (analyze_video_sync "7c3d" "uploads/7c3d_b.mp4"
                     (fresh_world (S := DictStore) one_upload)) in
  let st := get_job_status (store wld') "7c3d" in
  (state st = "DONE" /\ progress st = 100 /\ error st = None
   /\ exists r, get_job_result (store wld') "7c3d" = Some r
                /\ r_job_id r = "7c3d" /\ filename r = basename "uploads/7c3d_b.mp4")
  \/ (state st = "ERROR" /\ progress st = 0
      /\ (exists msg, error st = Some msg /\ msg <> EmptyString)
      /\ get_job_result (store wld') "7c3d" = None)).
Proof.
  split; [reflexivity|].
  exact (sync_run_outcome (S := DictStore) "7c3d" "uploads/7c3d_b.mp4"
           (fresh_world one_upload) eq_refl).
Defined.

Lemma task_raises_what_it_records_witness :
  fst (analyze_video_sync "4f1c" "uploads/4f1c_a.mp4" (fresh_world (S := DictStore) ∅))
  = Ok tt.
Proof.
  apply (proj2 (task_raises_what_it_records (S := DictStore) (fun e => e) "4f1c"
           "uploads/4f1c_a.mp4" (fresh_world ∅))).
Defined.

Lemma run_leaves_other_jobs_witness :
  get_job_status
    (store (snd (analyze_video_sync "7c3d" "uploads/7c3d_b.mp4"
                   (fresh_world (S := DictStore) one_upload)))) "9a2e"
  = get_job_status (store (fresh_world (S := DictStore) one_upload)) "9a2e".
Proof.
  apply (proj1 (proj1 (run_leaves_other_jobs (S := DictStore) (fun e => e) "9a2e" "7c3d"
           "uploads/7c3d_b.mp4" (fresh_world one_upload) ltac:(discriminate)))).
Defined.

(** ** The summary *)

Lemma generate_summary_inv audio_issues video_issues metrics s :
  generate_summary audio_issues video_issues metrics = Ok s ->
  let total := (length audio_issues + length video_issues)%nat in
  let high := length (List.filter is_high (audio_issues ++ video_issues)) in
  let head :=
    (if (total =? 0)%nat then [NoIssuesPoint]
     else
       (match audio_issues with
        | [] => []
        | _ => [AudioIssuesPoint (length audio_issues) (issue_types audio_issues)]
        end)
       ++ (match video_issues with
           | [] => []
           | _ => [VideoIssuesPoint (length video_issues) (issue_types video_issues)]
           end)
       ++ (if (0 <? high)%nat then [HighSeverityPoint high] else []))
    ++ [VideoPoint (default (MStr "Unknown") (metrics !! "duration_formatted"))
                   (default (MStr "Unknown") (metrics !! "resolution"))] in
  status s = (if (0 <? high)%nat then "FAIL"
              else if (5 <? total)%nat then "FAIL" else "PASS")
  /\ total_issues s = total
  /\ high_severity_issues s = high
  /\ points s
     = take 5 (head ++ match metrics !! "integrated_lufs" with
                       | Some (MNum lufs) => [levels_point lufs]
                       | _ => []
                       end).
Proof.
  unfold generate_summary, levels_point. intros Hs. cbv zeta. cbv beta zeta in Hs.
  destruct (metrics !! "integrated_lufs") as [[str|lufs]|]; cbn [default id] in Hs.
  - destruct (String.eqb str "N/A"); [|discriminate]. injection Hs as <-.
    cbn [status total_issues high_severity_issues points]. now rewrite app_nil_r.
  - destruct (Qlt_le_dec lufs (-28)); [|destruct (Qlt_le_dec (-12) lufs)];
      injection Hs as <-; cbn [status total_issues high_severity_issues points]; auto.
  - cbn in Hs. injection Hs as <-.
    cbn [status total_issues high_severity_issues points]. now rewrite app_nil_r.
Qed.

(** X5.  Whenever [generate_summary] returns, the cap of five points drops
    nothing: the summary holds between two and five points, among them
    the video point and, when the loudness entry is a number, the point on
    the audio levels.  The no-issue point is present exactly when the total
    is zero, the high-severity point exactly when the high-severity count is
    positive, and that count never exceeds the total. *)
Theorem generate_summary_points audio_issues video_issues metrics s :
  generate_summary audio_issues video_issues metrics = Ok s ->
  (2 <= length (points s) <= 5)%nat
  /\ (high_severity_issues s <= total_issues s)%nat
  /\ In (VideoPoint (default (MStr "Unknown") (metrics !! "duration_formatted"))
                    (default (MStr "Unknown") (metrics !! "resolution"))) (points s)
  /\ (forall lufs, metrics !! "integrated_lufs" = Some (MNum lufs) ->
                   In (levels_point lufs) (points s))
  /\ (In NoIssuesPoint (points s) <-> total_issues s = 0%nat)
  /\ (In (HighSeverityPoint (high_severity_issues s)) (points s)
      <-> (0 < high_severity_issues s)%nat).
Proof.
  intros Hs. apply generate_summary_inv in Hs as (_ & Ht & Hh & Hp). cbv zeta in *.
  rewrite Ht, Hh, Hp. clear Ht Hh Hp s.
  set (high := length (List.filter is_high (audio_issues ++ video_issues))).
  assert (Hle : (high <= length audio_issues + length video_issues)%nat).
  { unfold high. rewrite <- length_app. apply List.filter_length_le. }
  set (vp := VideoPoint _ _).
  set (lv := match metrics !! "integrated_lufs" with
             | Some (MNum lufs) => [levels_point lufs]
             | _ => []
             end).
  assert (Hlv : (length lv <= 1)%nat /\
                (forall p, In p lv -> p <> NoIssuesPoint /\ forall n, p <> HighSeverityPoint n)
                /\ forall lufs, metrics !! "integrated_lufs" = Some (MNum lufs) ->
                                In (levels_point lufs) lv).
  { unfold lv. destruct (metrics !! "integrated_lufs") as [[str|lufs]|]; cbn.
    - split; [lia|]. split; [tauto|]. discriminate.
    - split; [lia|]. split.
      + intros p [<-|[]]. unfold levels_point.
        destruct (Qlt_le_dec lufs (-28)); [|destruct (Qlt_le_dec (-12) lufs)];
          split; try discriminate; intros; discriminate.
      + intros l [= <-]. now left.
    - split; [lia|]. split; [tauto|]. discriminate. }
  destruct Hlv as (Hlen & Hother & Hin).
  set (pts := ((if (length audio_issues + length video_issues =? 0)%nat then _ else _)
               ++ [vp]) ++ lv).
  assert (Hshort : (length pts <= 5)%nat).
  { unfold pts. rewrite !length_app. cbn [length].
    destruct (_ =? 0)%nat; cbn [length]; [lia|]. rewrite !length_app.
    destruct audio_issues, video_issues, (0 <? high)%nat; cbn [length]; lia. }
  rewrite take_ge by exact Hshort.
  split; [|split; [exact Hle|split; [|split; [|split]]]].
  - split; [|exact Hshort]. unfold pts. rewrite !length_app. cbn [length].
    destruct (Nat.eqb_spec (length audio_issues + length video_issues) 0) as [E|E];
      cbn [length]; [lia|].
    rewrite !length_app. destruct audio_issues, video_issues; cbn [length] in *; lia.
  - unfold pts. apply in_or_app. left. apply in_or_app. right. now left.
  - intros lufs Hl. unfold pts. apply in_or_app. right. auto.
  - unfold pts. rewrite !in_app_iff.
    destruct (Nat.eqb_spec (length audio_issues + length video_issues) 0) as [E|E].
    + split; [auto|]. intros _. left. left. now left.
    + split; [|lia]. intros [[Hn|[Hn|[]]]|Hn].
      * rewrite !in_app_iff in Hn. exfalso.
        destruct Hn as [Hn|[Hn|Hn]].
        -- destruct audio_issues; [destruct Hn|destruct Hn as [Hn|[]]; discriminate].
        -- destruct video_issues; [destruct Hn|destruct Hn as [Hn|[]]; discriminate].
        -- destruct (0 <? high)%nat; [destruct Hn as [Hn|[]]; discriminate|destruct Hn].
      * discriminate.
      * now apply Hother in Hn as [? _].
  - unfold pts. rewrite !in_app_iff.
    destruct (Nat.eqb_spec (length audio_issues + length video_issues) 0) as [E|E].
    + split; [|lia]. intros [[[Hn|[]]|[Hn|[]]]|Hn]; try discriminate.
      apply Hother in Hn as [_ Hn]. now destruct (Hn high).
    + destruct (Nat.ltb_spec 0 high) as [Hpos|Hpos].
      * split; [auto|]. intros _. left. left. rewrite !in_app_iff. right. right. now left.
      * split; [|lia]. intros [[Hn|[Hn|[]]]|Hn].
        -- rewrite !in_app_iff in Hn. exfalso. destruct Hn as [Hn|[Hn|[]]].
           ++ destruct audio_issues; [destruct Hn|destruct Hn as [Hn|[]]; discriminate].
           ++ destruct video_issues; [destruct Hn|destruct Hn as [Hn|[]]; discriminate].
        -- discriminate.
        -- apply Hother in Hn as [_ Hn]. now destruct (Hn high).
Qed.

Lemma generate_summary_points_witness :
  let s := mkSummary "PASS" 0 0 [NoIssuesPoint; VideoPoint (MStr "Unknown") (MStr "Unknown")] in
  generate_summary [] [] ∅ = Ok s /\ (2 <= length (points s) <= 5)%nat.
Proof.
  intros s. assert (Hs : generate_summary [] [] ∅ = Ok s) by reflexivity.
  split; [exact Hs|]. apply (generate_summary_points [] [] ∅ s Hs).
Defined.

(** ** The audio analysis *)

(** X6.  When the audio track decodes, [analyze_audio] returns the issues
    of the four detectors run on the mono signal, none lost and none
    added, and it records that signal and the sample rate on the analyzer
    while keeping the handle. *)
Theorem analyze_audio_collects (self : VideoAnalyzer) (clip : VideoClip) (a : AudioClip)
    (arr : SoundArray) :
  video_clip self = Some clip -> audio clip = Some a -> to_soundarray a = Ok arr ->
  let mono := to_mono arr in
  let sr := audio_fps a in
  exists out,
    audio_result (analyze_audio self) = Ok out
    /\ Permutation out
         (_analyze_loudness (integrated_loudness a) mono sr
          ++ _detect_clipping mono sr
          ++ _detect_silences mono sr
          ++ _detect_voice_glitches (glitch_frames a) mono sr)
    /\ audio_data (audio_self (analyze_audio self)) = Some mono
    /\ sample_rate (audio_self (analyze_audio self)) = Some sr
    /\ video_clip (audio_self (analyze_audio self)) = Some clip
    /\ file_path (audio_self (analyze_audio self)) = file_path self.
Proof.
  intros Hclip Haudio Harr mono sr. unfold analyze_audio.
  rewrite Hclip, Haudio, Harr. cbn [audio_result audio_self audio_data sample_rate
                                     video_clip file_path].
  edestruct sorted_by_timestamp_ok as (out & -> & Hperm & _).
  2:{ exists out. repeat split; exact Hperm. }
  repeat (apply Forall_app; split).
  - apply analyze_loudness_valid.
  - apply detect_clipping_valid.
  - apply detect_silences_valid.
  - apply detect_voice_glitches_valid.
Qed.

Lemma sorted_by_timestamp_singleton (i : Issue) :
  valid_timestamp i -> sorted_by_timestamp [i] = Ok [i].
Proof.
  intros [k Hk]. unfold sorted_by_timestamp. cbn [timestamp_keys]. now rewrite Hk.
Qed.

(** X7.  When the audio track cannot be decoded, [analyze_audio] returns
    exactly one issue, of type [audio_analysis_error] and high severity,
    whose description carries the message of the exception; no detector
    runs and the analyzer is left as it was.  Any summary built from that
    list has status FAIL. *)
Theorem audio_decode_failure (self : VideoAnalyzer) (clip : VideoClip) (a : AudioClip)
    (e : string) :
  video_clip self = Some clip -> audio clip = Some a -> to_soundarray a = Raise e ->
  exists issue,
    audio_result (analyze_audio self) = Ok [issue]
    /\ i_type issue = "audio_analysis_error"
    /\ severity issue = "high"
    /\ timestamp issue = "00:00:00.000"
    /\ description issue = "Audio analysis failed: " +:+ e
    /\ checks_run (analyze_audio self) = []
    /\ audio_self (analyze_audio self) = self
    /\ forall video_issues metrics s,
         generate_summary [issue] video_issues metrics = Ok s -> status s = "FAIL".
Proof.
  intros Hclip Haudio Harr. unfold analyze_audio. rewrite Hclip, Haudio, Harr.
  cbn [audio_result checks_run audio_self].
  rewrite sorted_by_timestamp_singleton by apply valid_zero.
  eexists. split; [reflexivity|]. cbn [i_type severity timestamp description].
  repeat (split; [reflexivity|]).
  intros video_issues metrics s Hs.
  apply generate_summary_inv in Hs as (-> & _). reflexivity.
Qed.

(** ** Frames *)

Lemma wrapped_square (a b : Z) : (a - b) mod 16 = 0 -> (((a - b) mod 256) ^ 2) mod 256 = 0.
Proof.
  intros H16.
  pose proof (Z.div_mod (a - b) 256 ltac:(lia)) as H256.
  pose proof (Z.div_mod (a - b) 16 ltac:(lia)) as Hq.
  rewrite H16, Z.add_0_r in Hq.
  assert (Hd : (a - b) mod 256 = 16 * ((a - b) / 16 - 16 * ((a - b) / 256))) by lia.
  rewrite Hd.
  replace ((16 * ((a - b) / 16 - 16 * ((a - b) / 256))) ^ 2)
    with (((a - b) / 16 - 16 * ((a - b) / 256)) ^ 2 * 256) by (rewrite !Z.pow_2_r; lia).
  apply Z.mod_mul. lia.
Qed.

Lemma sumQ_zeros (l : list Z) :
  Forall (fun z => z = 0) l -> (Np.sumQ (map inject_Z l) == 0)%Q.
Proof.
  induction 1 as [|z l -> _ IH]; cbn; [reflexivity|]. rewrite IH. reflexivity.
Qed.

(** X8.  The frame difference is taken on unsigned bytes: two frames of the
    same non-zero size whose pixels differ by multiples of 16 everywhere
    have a mean squared difference of zero, so the sampling loop counts
    them as the same picture.  Identical frames are one instance. *)
Theorem wrapped_difference_is_similar (gray prev : GrayFrame) :
  gray <> [] ->
  Forall2 (fun a b => (a - b) mod 16 = 0) gray prev ->
  (exists mse, frame_mse gray prev = Ok (Some mse) /\ (mse == 0)%Q)
  /\ similar gray prev = true.
Proof.
  intros Hne Hall.
  assert (Hsq : exists sq, squared_diff gray prev = Ok sq
                           /\ Forall (fun z => z = 0) sq /\ length sq = length gray).
  { clear Hne. induction Hall as [|a b g p Hab _ (sq & Hsq & Hz & Hlen)].
    - exists []. repeat split; constructor.
    - exists (0 :: sq). cbn [squared_diff]. rewrite Hsq, (wrapped_square a b Hab).
      repeat split; [now constructor|cbn; now rewrite Hlen]. }
  destruct Hsq as (sq & Hsq & Hz & Hlen).
  assert (Hmse : exists mse, frame_mse gray prev = Ok (Some mse) /\ (mse == 0)%Q).
  { unfold frame_mse. rewrite Hsq. destruct sq as [|z sq].
    - destruct gray; [congruence|discriminate].
    - eexists. split; [reflexivity|]. rewrite (sumQ_zeros (z :: sq) Hz). reflexivity. }
  split; [exact Hmse|]. destruct Hmse as (mse & Hm & H0).
  unfold similar. rewrite Hm. unfold psnr_above_45.
  now rewrite (proj2 (Qeq_bool_iff mse 0) H0).
Qed.

Lemma wrapped_difference_is_similar_witness :
  similar [0; 16; 240; 128] [16; 0; 0; 0] = true.
Proof.
  apply (wrapped_difference_is_similar [0; 16; 240; 128] [16; 0; 0; 0]).
  - discriminate.
  - repeat constructor.
Defined.

Lemma analyze_audio_collects_witness :
  let a := mkAudioClip (Ok (Mono [1%Q; 1%Q])) 1 (Ok LufsInf) (Ok []) 0 in
  let self := loaded (mkVideoClip 2 25 1280 720 (Some a) (fun _ => Ok [0])) in
  audio_data (audio_self (analyze_audio self)) = Some [1%Q; 1%Q].
Proof.
  intros a self.
  destruct (analyze_audio_collects self _ a (Mono [1%Q; 1%Q]) eq_refl eq_refl eq_refl)
    as (out & _ & _ & Hdata & _).
  exact Hdata.
Defined.

Lemma audio_decode_failure_witness :
  let a := mkAudioClip (Raise "unsupported codec") 44100 (Ok LufsInf) (Ok []) 0 in
  let self := loaded (mkVideoClip 2 25 1280 720 (Some a) (fun _ => Ok [0])) in
  checks_run (analyze_audio self) = [].
Proof.
  intros a self.
  destruct (audio_decode_failure self _ a "unsupported codec" eq_refl eq_refl eq_refl)
    as (issue & _ & _ & _ & _ & _ & Hchecks & _).
  exact Hchecks.
Defined.

(** ** Black frames *)

Lemma filter_black_app (a b : list Issue) :
  List.filter is_black (a ++ b) = List.filter is_black a ++ List.filter is_black b.
Proof. apply List.filter_app. Qed.

Lemma filter_perm {A : Type} (f : A -> bool) (a b : list A) :
  Permutation a b -> Permutation (List.filter f a) (List.filter f b).
Proof.
  induction 1 as [|x a b _ IH|x y a|a b c _ IH1 _ IH2]; cbn.
  - constructor.
  - destruct (f x); [now constructor|exact IH].
  - destruct (f x), (f y); try reflexivity. apply perm_swap.
  - now transitivity (List.filter f b).
Qed.

Lemma close_frozen_not_black (st : FrameLoop) : List.filter is_black (close_frozen st) = [].
Proof.
  unfold close_frozen. destruct (frozen_start st); [|reflexivity].
  destruct (Qlt_le_dec _ _); reflexivity.
Qed.

Lemma black_at_all_black (clip : VideoClip) (t : Q) :
  List.filter is_black (black_at clip t) = black_at clip t.
Proof.
  unfold black_at. destruct (get_frame clip t) as [g|]; [|reflexivity].
  destruct (mean_brightness g) as [b|]; [|reflexivity].
  destruct (Qlt_le_dec b 8); reflexivity.
Qed.

Lemma frame_step_black (clip : VideoClip) (st : FrameLoop) (t : Q) :
  List.filter is_black (issues (frame_step clip st t))
  = List.filter is_black (issues st) ++ black_at clip t.
Proof.
  unfold frame_step, black_at.
  destruct (get_frame clip t) as [g|e]; cbn [issues].
  2:{ rewrite filter_black_app. reflexivity. }
  assert (Hb : List.filter is_black
                 match mean_brightness g with
                 | Some b => if Qlt_le_dec b 8 then issues st ++ [black_frame_issue t b]
                             else issues st
                 | None => issues st
                 end
               = List.filter is_black (issues st)
                 ++ match mean_brightness g with
                    | Some b => if Qlt_le_dec b 8 then [black_frame_issue t b] else []
                    | None => []
                    end).
  { destruct (mean_brightness g) as [b|]; [|now rewrite app_nil_r].
    destruct (Qlt_le_dec b 8); [|now rewrite app_nil_r].
    rewrite filter_black_app. reflexivity. }
  destruct (prev_frame st) as [prev|]; cbn [issues]; [|exact Hb].
  destruct (frame_mse g prev) as [mse|e]; cbn [issues].
  - destruct (psnr_above_45 mse); cbn [issues]; [exact Hb|].
    rewrite filter_black_app, close_frozen_not_black, app_nil_r. exact Hb.
  - rewrite filter_black_app. cbn [List.filter is_black i_type frame_error_issue].
    rewrite app_nil_r. exact Hb.
Qed.

Lemma frame_loop_black (clip : VideoClip) (times : list Q) :
  forall st,
    List.filter is_black (issues (fold_left (frame_step clip) times st))
    = List.filter is_black (issues st) ++ flat_map (black_at clip) times.
Proof.
  induction times as [|t r IH]; intros st; cbn [fold_left flat_map].
  - now rewrite app_nil_r.
  - rewrite IH, frame_step_black, <- app_assoc. reflexivity.
Qed.

(** X9.  The black-frame issues that [analyze_video] returns are exactly
    those of the sampled times whose frame decodes with a mean brightness
    below 8, one per such sample: a failure of the later frame comparison
    or an open frozen run does not suppress them.  Each is of medium
    severity and lasts one sampling interval. *)
Theorem analyze_video_black_frames (self : VideoAnalyzer) (clip : VideoClip) :
  video_clip self = Some clip ->
  exists out,
    analyze_video self = Ok out
    /\ Permutation (List.filter is_black out)
                   (flat_map (black_at clip) (Np.arange (duration clip)))
    /\ Forall (fun i => is_black i = true ->
                        severity i = "medium" /\ i_duration i = sample_interval) out.
Proof.
  intros Hclip. unfold analyze_video. rewrite Hclip.
  edestruct sorted_by_timestamp_ok as (out & -> & Hperm & _).
  { apply Forall_app. split; [|apply close_frozen_valid].
    apply frame_loop_valid. constructor. }
  exists out. split; [reflexivity|].
  assert (Hblack : List.filter is_black
             (issues (frame_loop clip (Np.arange (duration clip)))
              ++ close_frozen (frame_loop clip (Np.arange (duration clip))))
           = flat_map (black_at clip) (Np.arange (duration clip))).
  { rewrite filter_black_app, close_frozen_not_black, app_nil_r.
    unfold frame_loop. rewrite frame_loop_black. reflexivity. }
  split.
  - rewrite <- Hblack. now apply filter_perm.
  - apply List.Forall_forall. intros i Hi Hb.
    assert (Hin : In i (flat_map (black_at clip) (Np.arange (duration clip)))).
    { rewrite <- Hblack. apply List.filter_In. split; [|exact Hb].
      now apply (Permutation_in _ Hperm). }
    apply in_flat_map in Hin as (t & _ & Hin). unfold black_at in Hin.
    destruct (get_frame clip t) as [g|]; [|destruct Hin].
    destruct (mean_brightness g) as [b|]; [|destruct Hin].
    destruct (Qlt_le_dec b 8); [|destruct Hin].
    destruct Hin as [<-|[]]. split; reflexivity.
Qed.

Lemma analyze_video_black_frames_witness :
  exists out,
    analyze_video (loaded (still_clip 3 [0; 0; 0; 0])) = Ok out
    /\ Permutation (List.filter is_black out)
                   (flat_map (black_at (still_clip 3 [0; 0; 0; 0])) (Np.arange 3)).
Proof.
  destruct (analyze_video_black_frames (loaded (still_clip 3 [0; 0; 0; 0]))
              (still_clip 3 [0; 0; 0; 0]) eq_refl) as (out & Hout & Hperm & _).
  exists out. split; [exact Hout|exact Hperm].
Defined.

(** ** Groups of glitch frames *)

Lemma close_steps_snoc (g : list Z) (prev i : Z) :
  close_steps g -> List.last g 0 = prev -> g <> [] -> i - prev <= 2 ->
  close_steps (g ++ [i]).
Proof.
  intros Hg Hlast Hne Hgap k a b Ha Hb.
  destruct (decide (Datatypes.S k < length g)%nat) as [Hk|Hk].
  - rewrite lookup_app_l in Ha by lia. rewrite lookup_app_l in Hb by lia. eauto.
  - assert (Hlen : Datatypes.S k = length g).
    { apply lookup_lt_Some in Hb. rewrite length_app in Hb. cbn in Hb. lia. }
    rewrite lookup_app_l in Ha by lia.
    rewrite lookup_app_r in Hb by lia.
    replace (Datatypes.S k - length g)%nat with 0%nat in Hb by lia.
    injection Hb as <-.
    assert (a = prev); [|lia].
    rewrite <- Hlast. destruct (exists_last Hne) as (g0 & x & ->).
    rewrite List.last_last. rewrite length_app in Hlen. cbn in Hlen.
    rewrite lookup_app_r in Ha by lia.
    replace (k - length g0)%nat with 0%nat in Ha by lia. now injection Ha.
Qed.

Lemma group_glitch_frames_spec (rest : list Z) :
  forall (current : list Z) (prev : Z),
    current <> [] -> List.last current 0 = prev -> close_steps current ->
    let groups := group_glitch_frames current prev rest in
    concat groups = current ++ rest
    /\ Forall (fun g => g <> [] /\ close_steps g) groups
    /\ far_apart groups
    /\ exists g others, groups = g :: others /\ exists more, g = current ++ more.
Proof.
  induction rest as [|i r IH]; intros current prev Hne Hlast Hclose; cbn [group_glitch_frames].
  - cbn. rewrite !app_nil_r. split; [reflexivity|]. split; [repeat constructor; auto|].
    split.
    + intros k g g' Hg Hg'. destruct k; discriminate.
    + exists current, []. split; [reflexivity|]. exists []. now rewrite app_nil_r.
  - destruct (Z.leb_spec (i - prev) 2) as [Hgap|Hgap].
    + destruct (IH (current ++ [i]) i) as (Hcat & Hall & Hfar & g & others & Hg & more & Hmore).
      * now destruct current.
      * apply List.last_last.
      * now apply (close_steps_snoc current prev).
      * cbv zeta in *. split; [now rewrite Hcat, <- app_assoc|].
        split; [exact Hall|]. split; [exact Hfar|].
        exists g, others. split; [exact Hg|]. exists (i :: more).
        now rewrite Hmore, <- app_assoc.
    + destruct (IH [i] i) as (Hcat & Hall & Hfar & g & others & Hg & more & Hmore).
      * discriminate.
      * reflexivity.
      * intros k a b Ha Hb. destruct k; discriminate.
      * cbv zeta in *. split; [cbn [concat]; now rewrite Hcat|].
        split; [constructor; auto|]. split.
        -- intros k x y Hx Hy. destruct k as [|k].
           ++ cbn in Hx, Hy. injection Hx as <-. rewrite Hg in Hy. cbn in Hy.
              injection Hy as <-. rewrite Hmore. cbn [app hd]. lia.
           ++ cbn in Hx, Hy. eauto.
        -- exists current, (group_glitch_frames [i] i r). split; [reflexivity|].
           exists []. now rewrite app_nil_r.
Qed.

(** X10.  The grouping loop of [_detect_voice_glitches] partitions the
    glitch indices in order: the groups concatenate to the index list, no
    group is empty, neighbours inside a group are at most two frames
    apart, and every group starts more than two frames after the end of
    the group before it. *)
Theorem group_glitch_frames_partition (i0 : Z) (rest : list Z) :
  let groups := group_glitch_frames [i0] i0 rest in
  concat groups = i0 :: rest
  /\ Forall (fun g => g <> [] /\ close_steps g) groups
  /\ far_apart groups.
Proof.
  destruct (group_glitch_frames_spec rest [i0] i0) as (Hcat & Hall & Hfar & _).
  - discriminate.
  - reflexivity.
  - intros k a b Ha Hb. destruct k; discriminate.
  - cbv zeta in *. auto.
Qed.

(** ** Which runs succeed *)

Lemma analyze_audio_keeps_handle (self : VideoAnalyzer) :
  video_clip (audio_self (analyze_audio self)) = video_clip self
  /\ file_path (audio_self (analyze_audio self)) = file_path self.
Proof.
  unfold analyze_audio. destruct (video_clip self) as [clip|] eqn:Hclip; [|cbn; auto].
  destruct (audio clip) as [a|]; [|cbn; auto].
  destruct (to_soundarray a); cbn [audio_self video_clip file_path]; auto.
Qed.

Lemma compute_metrics_verdict (fs : Files) (self : VideoAnalyzer) (clip : VideoClip)
    (file : MediaFile) :
  video_clip self = Some clip -> fs !! file_path self = Some file ->
  if h clip =? 0 then compute_metrics fs self = Raise "division by zero"
  else exists m, compute_metrics fs self = Ok m.
Proof.
  intros Hclip Hfile. unfold compute_metrics. rewrite Hclip, Hfile.
  destruct (h clip =? 0); [reflexivity|].
  destruct (audio_data self), (sample_rate self); eauto.
Qed.

Lemma probe_streams_keeps (streams : list ProbeStream) :
  forall md md', probe_streams streams md = Ok md' ->
    md_duration md' = md_duration md /\ md_fps md' = md_fps md
    /\ md_width md' = md_width md /\ md_height md' = md_height md
    /\ has_audio md' = has_audio md /\ file_size md' = file_size md.
Proof.
  induction streams as [|s r IH]; intros md md' Hp; cbn [probe_streams] in Hp.
  - injection Hp as <-. auto 10.
  - destruct (codec_type s) as [ty|]; [|discriminate].
    destruct (String.eqb ty "video").
    { apply IH in Hp. exact Hp. }
    destruct (String.eqb ty "audio"); [|now apply IH in Hp].
    destruct (match stream_sample_rate s with
              | Some x => Py.parse_int x
              | None => Some 0
              end); [|discriminate].
    apply IH in Hp. exact Hp.
Qed.

Lemma extract_metadata_fields (fs : Files) (self : VideoAnalyzer) (file : MediaFile)
    (clip : VideoClip) :
  fs !! file_path self = Some file -> open_clip file = Ok clip ->
  exists md,
    extract_metadata fs self
    = (Ok md, mkVideoAnalyzer (file_path self) (Some clip) (audio_data self) (sample_rate self))
    /\ md_duration md = duration clip /\ md_fps md = fps clip
    /\ md_width md = w clip /\ md_height md = h clip
    /\ has_audio md = is_not_None (audio clip) /\ file_size md = getsize file.
Proof.
  intros Hfile Hopen. unfold extract_metadata. rewrite Hfile, Hopen.
  eexists. split; [reflexivity|].
  destruct (probe file) as [streams|e]; [|cbn; auto 10].
  destruct (probe_streams streams _) as [md|e] eqn:Hp; [|cbn; auto 10].
  apply probe_streams_keeps in Hp. exact Hp.
Qed.

Section RunVerdict.
Context {S : Type} `{JobStoreLaws S} `{!ResultStoreLaws S}.

Ltac step_run :=
  repeat first
    [ rewrite bind_update_job_status
    | rewrite bind_lift_ok
    | rewrite bind_lift_raise
    | rewrite bind_utcnow
    | rewrite bind_read_disk
    | rewrite bind_update_job_result
    | rewrite bind_remove_upload ];
  cbn [store disk clock written ret].

(** The stages that produced a returned result. *)
Lemma run_stages_ok (job_id path : string) (wld : World S) (r : Result) :
  fst (run_stages job_id path wld) = Ok r ->
  exists a,
    extract_metadata (disk wld) (__init__ path) = (Ok (metadata r), a)
    /\ audio_result (analyze_audio a) = Ok (audio_issues r)
    /\ analyze_video (audio_self (analyze_audio a)) = Ok (video_issues r)
    /\ compute_metrics (disk wld) (audio_self (analyze_audio a)) = Ok (metrics r)
    /\ generate_summary (audio_issues r) (video_issues r) (metrics r) = Ok (summary r)
    /\ r_job_id r = job_id /\ filename r = basename path.
Proof.
  unfold run_stages. step_run.
  destruct (extract_metadata (disk wld) (__init__ path)) as [[md|e] a] eqn:Emd; step_run;
    [|discriminate].
  destruct (audio_result (analyze_audio a)) as [ai|e] eqn:Ea; step_run; [|discriminate].
  destruct (analyze_video (audio_self (analyze_audio a))) as [vi|e] eqn:Ev; step_run;
    [|discriminate].
  destruct (compute_metrics (disk wld) (audio_self (analyze_audio a))) as [m|e] eqn:Em;
    step_run; [|discriminate].
  destruct (generate_summary ai vi m) as [sm|e] eqn:Es; step_run; [|discriminate].
  cbn [fst]. intros [= <-]. exists a.
  cbn [metadata audio_issues video_issues metrics summary r_job_id filename]. auto 10.
Qed.

(** What the stages return, by the file found at [path]. *)
Lemma run_stages_verdict (job_id path : string) (wld : World S) :
  match disk wld !! path with
  | None => exists msg, fst (run_stages job_id path wld)
                        = Raise ("Failed to extract metadata: " +:+ msg)
  | Some file =>
      match open_clip file with
      | Raise e => fst (run_stages job_id path wld)
                   = Raise ("Failed to extract metadata: " +:+ e)
      | Ok clip =>
          if h clip =? 0
          then fst (run_stages job_id path wld) = Raise "division by zero"
          else exists r, fst (run_stages job_id path wld) = Ok r
      end
  end.
Proof.
  unfold run_stages. step_run.
  destruct (disk wld !! path) as [file|] eqn:Hfile.
  2:{ unfold extract_metadata. cbn [file_path __init__]. rewrite Hfile. step_run.
      eexists. reflexivity. }
  destruct (open_clip file) as [clip|e] eqn:Hopen.
  2:{ unfold extract_metadata. cbn [file_path __init__]. rewrite Hfile, Hopen. step_run.
      reflexivity. }
  destruct (extract_metadata_fields (disk wld) (__init__ path) file clip Hfile Hopen)
    as (md & -> & _).
  step_run. cbn [file_path audio_data sample_rate __init__].
  set (a := mkVideoAnalyzer path (Some clip) None None).
  destruct (analyze_audio_returns a) as [ai ->]. step_run.
  destruct (analyze_video_returns (audio_self (analyze_audio a))) as [vi ->]. step_run.
  destruct (analyze_audio_keeps_handle a) as [Hclip Hpath].
  pose proof (compute_metrics_verdict (disk wld) (audio_self (analyze_audio a)) clip file
                ltac:(now rewrite Hclip) ltac:(now rewrite Hpath)) as Hm.
  destruct (h clip =? 0).
  { rewrite Hm. step_run. reflexivity. }
  destruct Hm as [m Hm]. rewrite Hm. step_run.
  destruct (generate_summary_returns ai vi m (compute_metrics_lufs_entry_ok _ _ _ Hm))
    as [pts ->].
  step_run. eexists. reflexivity.
Qed.

(** X11.  Which uploads are analysed to the end.  A job ends in DONE
    exactly when the file is on disk, opens as a clip, and the clip has a
    non-zero height.  A file that is missing or does not open ends the job
    in ERROR with a message that starts with the metadata failure; a clip of
    height zero ends it in ERROR with the division error raised while the
    metrics are computed.  No other stage makes a run fail. *)
Theorem run_verdict (job_id path : string) (wld : World S) :
  let st := get_job_status (store (snd (analyze_video_sync job_id path wld))) job_id in
  match disk wld !! path with
  | None =>
      state st = "ERROR"
      /\ exists msg, error st = Some ("Failed to extract metadata: " +:+ msg)
  | Some file =>
      match open_clip file with
      | Raise e =>
          state st = "ERROR" /\ error st = Some ("Failed to extract metadata: " +:+ e)
      | Ok clip =>
          if h clip =? 0
          then state st = "ERROR" /\ error st = Some "division by zero"
          else state st = "DONE" /\ progress st = 100 /\ error st = None
      end
  end.
Proof.
  cbv zeta. rewrite sync_unfold.
  pose proof (run_stages_verdict job_id path wld) as Hv.
  pose proof (run_stages_outcome job_id path wld) as Hout.
  unfold get_job_status.
  destruct (run_stages job_id path wld) as [[r|e] wld'] eqn:Hrun; cbn [fst snd store] in *.
  - destruct Hout as (_ & _ & _ & _ & (st & -> & Hs & Hp & He) & _).
    destruct (disk wld !! path) as [file|]; [|now destruct Hv].
    destruct (open_clip file) as [clip|]; [|discriminate].
    destruct (h clip =? 0); [discriminate|auto].
  - destruct Hout as (_ & Hne & _). rewrite get_put_status_eq.
    cbn [state error]. rewrite (error_kept e Hne).
    destruct (disk wld !! path) as [file|].
    2:{ destruct Hv as [msg [= ->]]. eauto. }
    destruct (open_clip file) as [clip|e'].
    2:{ injection Hv as ->. auto. }
    destruct (h clip =? 0); [injection Hv as ->; auto|].
    now destruct Hv.
Qed.

(** X12.  The parts of a returned result agree with each other.  The
    totals of the summary count the two issue lists of the same result;
    the metrics show the duration and the size that the metadata report;
    and when the metadata say that the file has no audio stream, the
    result has no audio issue and no audio metric. *)
Theorem result_is_coherent (traceback : string -> string) (job_id path : string)
    (wld : World S) (r : Result) :
  fst (analyze_video_task traceback job_id path wld) = Ok r ->
  total_issues (summary r) = (length (audio_issues r) + length (video_issues r))%nat
  /\ high_severity_issues (summary r)
     = length (List.filter is_high (audio_issues r ++ video_issues r))
  /\ metrics r !! "duration_formatted"
     = Some (MStr (_seconds_to_timestamp (md_duration (metadata r))))
  /\ metrics r !! "resolution"
     = Some (MStr (PyFmt.str_int (md_width (metadata r)) +:+ "x"
                   +:+ PyFmt.str_int (md_height (metadata r))))
  /\ md_height (metadata r) <> 0
  /\ (has_audio (metadata r) = false ->
      audio_issues r = []
      /\ metrics r !! "integrated_lufs" = None
      /\ metrics r !! "audio_sample_rate" = None
      /\ metrics r !! "dynamic_range_db" = None).
Proof.
  rewrite task_unfold. intros Hr.
  assert (Hrun : fst (run_stages job_id path wld) = Ok r).
  { destruct (run_stages job_id path wld) as [[r'|e] wld']; [exact Hr|discriminate]. }
  clear Hr. apply run_stages_ok in Hrun as (a & Hmd & Ha & _ & Hm & Hs & _).
  apply generate_summary_inv in Hs as (_ & Ht & Hh & _). cbv zeta in Ht, Hh.
  split; [exact Ht|]. split; [exact Hh|]. clear Ht Hh.
  unfold extract_metadata in Hmd. cbn [file_path __init__] in Hmd.
  destruct (disk wld !! path) as [file|] eqn:Hfile; [|discriminate].
  destruct (open_clip file) as [clip|] eqn:Hopen; [|discriminate].
  destruct (extract_metadata_fields (disk wld) (__init__ path) file clip Hfile Hopen)
    as (md & Hmd' & Hd & _ & Hw & Hh & Haud & _).
  unfold extract_metadata in Hmd'. cbn [file_path __init__] in Hmd'.
  rewrite Hfile, Hopen in Hmd'. rewrite Hmd' in Hmd. injection Hmd as <- <-.
  cbn [audio_data sample_rate __init__] in *.
  set (a := mkVideoAnalyzer path (Some clip) None None) in *.
  rewrite Hd, Hw, Hh, Haud. clear Hmd' Hd Hw Hh Haud.
  destruct (analyze_audio_keeps_handle a) as [Hclip Hpath].
  cbn [video_clip file_path a] in Hclip, Hpath.
  assert (Hnoaudio : audio clip = None ->
            audio_result (analyze_audio a) = Ok [] /\ audio_self (analyze_audio a) = a).
  { intros Hn. unfold analyze_audio. cbn [video_clip a]. now rewrite Hn. }
  unfold compute_metrics in Hm. rewrite Hclip, Hpath, Hfile in Hm.
  destruct (Z.eqb_spec (h clip) 0) as [|Hh]; [discriminate|].
  assert (Hlook : forall (k : string) (v : MetricValue) (m0 : gmap string MetricValue),
            <[k := v]> m0 !! k = Some v) by (intros; apply lookup_insert_eq).
  destruct (audio clip) as [ac|] eqn:Hac.
  - assert (Hkeys : metrics r !! "duration_formatted"
                    = Some (MStr (_seconds_to_timestamp (duration clip)))
                    /\ metrics r !! "resolution"
                       = Some (MStr (PyFmt.str_int (w clip) +:+ "x"
                                     +:+ PyFmt.str_int (h clip)))).
    { destruct (audio_data (audio_self (analyze_audio a))),
               (sample_rate (audio_self (analyze_audio a)));
        injection Hm as <-; split;
        rewrite !lookup_insert_ne by discriminate; apply Hlook. }
    destruct Hkeys as [-> ->].
    split; [reflexivity|]. split; [reflexivity|]. split; [exact Hh|]. discriminate.
  - destruct (Hnoaudio eq_refl) as [Hres Hself]. rewrite Hres in Ha. injection Ha as <-.
    rewrite Hself in Hm. cbn [audio_data sample_rate a] in Hm. injection Hm as <-.
    split; [rewrite !lookup_insert_ne by discriminate; apply Hlook|].
    split; [rewrite !lookup_insert_ne by discriminate; apply Hlook|].
    split; [exact Hh|]. intros _. split; [reflexivity|].
    repeat split; rewrite !lookup_insert_ne by discriminate; apply lookup_empty.
Qed.

End RunVerdict.

Lemma run_verdict_witness :
  let st := get_job_status
              (store (snd (analyze_video_sync "7c3d" "uploads/7c3d_b.mp4"
                             (fresh_world (S := DictStore) one_upload)))) "7c3d" in
  state st = "DONE" /\ progress st = 100 /\ error st = None.
Proof.
  exact (run_verdict (S := DictStore) "7c3d" "uploads/7c3d_b.mp4" (fresh_world one_upload)).
Defined.

(** ** Loudness: the issue and the summary *)

Lemma round_half_even_lower (x : Q) (lo : Z) :
  (inject_Z lo - (1 # 2) < x)%Q -> lo <= Py.round_half_even x.
Proof.
  intros Hlo. pose proof (round_half_even_close x) as Hc.
  apply Qabs_Qle_condition in Hc as [Hc1 Hc2].
  assert (H1 : (inject_Z (lo + -1) < inject_Z (Py.round_half_even x))%Q).
  { rewrite inject_Z_plus. change (inject_Z (-1)) with (-1 # 1)%Q. lra. }
  rewrite <- Zlt_Qlt in H1. lia.
Qed.

Lemma round_half_even_upper (x : Q) (hi : Z) :
  (x < inject_Z hi + (1 # 2))%Q -> Py.round_half_even x <= hi.
Proof.
  intros Hhi. pose proof (round_half_even_close x) as Hc.
  apply Qabs_Qle_condition in Hc as [Hc1 Hc2].
  assert (H1 : (inject_Z (Py.round_half_even x) < inject_Z (hi + 1))%Q).
  { rewrite inject_Z_plus. change (inject_Z 1) with 1%Q. lra. }
  rewrite <- Zlt_Qlt in H1. lia.
Qed.

Lemma levels_point_cases (q : Q) :
  ((q < -28)%Q -> levels_point q = LevelsTooQuiet q)
  /\ ((-28 <= q)%Q -> (q <= -12)%Q -> levels_point q = LevelsAcceptable q)
  /\ ((-12 < q)%Q -> levels_point q = LevelsTooLoud q).
Proof.
  unfold levels_point.
  destruct (Qlt_le_dec q (-28)); [|destruct (Qlt_le_dec (-12) q)];
    repeat split; intros; try reflexivity; lra.
Qed.

Lemma round2_lower (l : Q) (lo : Z) :
  (inject_Z lo - (1 # 2) < l * 100)%Q -> (inject_Z lo * (1 # 100) <= round2 l)%Q.
Proof.
  intros Hlo. apply round_half_even_lower in Hlo. rewrite Zle_Qle in Hlo.
  unfold round2. apply Qmult_le_compat_r; [assumption|discriminate].
Qed.

Lemma round2_upper (l : Q) (hi : Z) :
  (l * 100 < inject_Z hi + (1 # 2))%Q -> (round2 l <= inject_Z hi * (1 # 100))%Q.
Proof.
  intros Hhi. apply round_half_even_upper in Hhi. rewrite Zle_Qle in Hhi.
  unfold round2. apply Qmult_le_compat_r; [assumption|discriminate].
Qed.

Ltac literal_bound H :=
  repeat match type of H with
         | context [inject_Z (Zneg ?p)] =>
             change (inject_Z (Zneg p)) with (Zneg p # 1)%Q in H
         end.

(** X13.  The loudness issue is decided on the measured value and the
    levels point of the summary on that value rounded to two decimals.
    The two agree except within half a hundredth of a threshold: a
    loudness strictly between -28.005 and -28 is reported as too quiet by
    the issue and as acceptable by the summary, and likewise between -12
    and -11.995 on the loud side. *)
Theorem loudness_issue_and_levels_point (l : Q) (data : list Q) (sr : positive) :
  let reported := map i_type (_analyze_loudness (Ok (Lufs l)) data sr) in
  let q := round2 l in
  lufs_metric (Ok (Lufs l)) = MNum q
  /\ ((l < -28005 # 1000)%Q ->
      reported = ["low_loudness"] /\ levels_point q = LevelsTooQuiet q)
  /\ ((-28005 # 1000 < l)%Q -> (l < -28)%Q ->
      reported = ["low_loudness"] /\ levels_point q = LevelsAcceptable q)
  /\ ((-28 <= l)%Q -> (l <= -12)%Q ->
      reported = [] /\ levels_point q = LevelsAcceptable q)
  /\ ((-12 < l)%Q -> (l < -11995 # 1000)%Q ->
      reported = ["high_loudness"] /\ levels_point q = LevelsAcceptable q)
  /\ ((-11995 # 1000 < l)%Q ->
      reported = ["high_loudness"] /\ levels_point q = LevelsTooLoud q).
Proof.
  cbv zeta. split; [reflexivity|].
  destruct (levels_point_cases (round2 l)) as (Hquiet & Hok & Hloud).
  unfold _analyze_loudness.
  split; [|split; [|split; [|split]]].
  - intros Hl. destruct (Qlt_le_dec l (-28)); [|lra]. split; [reflexivity|].
    apply Hquiet.
    assert (Hhi : (round2 l <= inject_Z (-2801) * (1 # 100))%Q).
    { apply round2_upper. change (inject_Z (-2801)) with (-2801 # 1)%Q. lra. }
    literal_bound Hhi. lra.
  - intros H1 H2. destruct (Qlt_le_dec l (-28)); [|lra]. split; [reflexivity|].
    assert (Hlo : (inject_Z (-2800) * (1 # 100) <= round2 l)%Q).
    { apply round2_lower. change (inject_Z (-2800)) with (-2800 # 1)%Q. lra. }
    assert (Hhi : (round2 l <= inject_Z (-2800) * (1 # 100))%Q).
    { apply round2_upper. change (inject_Z (-2800)) with (-2800 # 1)%Q. lra. }
    literal_bound Hlo. literal_bound Hhi. apply Hok; lra.
  - intros H1 H2. destruct (Qlt_le_dec l (-28)); [lra|].
    destruct (Qlt_le_dec (-12) l); [lra|]. split; [reflexivity|].
    assert (Hlo : (inject_Z (-2800) * (1 # 100) <= round2 l)%Q).
    { apply round2_lower. change (inject_Z (-2800)) with (-2800 # 1)%Q. lra. }
    assert (Hhi : (round2 l <= inject_Z (-1200) * (1 # 100))%Q).
    { apply round2_upper. change (inject_Z (-1200)) with (-1200 # 1)%Q. lra. }
    literal_bound Hlo. literal_bound Hhi. apply Hok; lra.
  - intros H1 H2. destruct (Qlt_le_dec l (-28)); [lra|].
    destruct (Qlt_le_dec (-12) l); [|lra]. split; [reflexivity|].
    assert (Hlo : (inject_Z (-1200) * (1 # 100) <= round2 l)%Q).
    { apply round2_lower. change (inject_Z (-1200)) with (-1200 # 1)%Q. lra. }
    assert (Hhi : (round2 l <= inject_Z (-1200) * (1 # 100))%Q).
    { apply round2_upper. change (inject_Z (-1200)) with (-1200 # 1)%Q. lra. }
    literal_bound Hlo. literal_bound Hhi. apply Hok; lra.
  - intros H1. destruct (Qlt_le_dec l (-28)); [lra|].
    destruct (Qlt_le_dec (-12) l); [|lra]. split; [reflexivity|].
    apply Hloud.
    assert (Hlo : (inject_Z (-1199) * (1 # 100) <= round2 l)%Q).
    { apply round2_lower. change (inject_Z (-1199)) with (-1199 # 1)%Q. lra. }
    literal_bound Hlo. lra.
Qed.

Lemma loudness_issue_and_levels_point_witness :
  map i_type (_analyze_loudness (Ok (Lufs (-28002 # 1000))) [] 1) = ["low_loudness"]
  /\ levels_point (round2 (-28002 # 1000)) = LevelsAcceptable (round2 (-28002 # 1000)).
Proof.
  apply (loudness_issue_and_levels_point (-28002 # 1000) [] 1); reflexivity.
Defined.

(** ** Codec entries of the metadata *)

Lemma probe_streams_missing_type (streams : list ProbeStream) :
  Exists (fun s => codec_type s = None) streams ->
  forall md, exists e, probe_streams streams md = Raise e.
Proof.
  induction 1 as [s r Hs|s r _ IH]; intros md; cbn [probe_streams].
  - rewrite Hs. eauto.
  - destruct (codec_type s) as [ty|]; [|eauto].
    destruct (String.eqb ty "video"); [apply IH|].
    destruct (String.eqb ty "audio"); [|apply IH].
    destruct (match stream_sample_rate s with
              | Some x => Py.parse_int x
              | None => Some 0
              end); [apply IH|eauto].
Qed.

(** X14.  [extract_metadata] on a file that opens.  It returns the
    figures of the clip and installs the handle.  The three codec entries
    are all-or-nothing on failure: if the probe raises, or any stream of
    the probe lacks its codec type, they are ['unknown'], ['unknown'] and
    44100, whatever the streams listed before the faulty one said; a probe
    without streams leaves the entries out. *)
Theorem extract_metadata_codecs (fs : Files) (self : VideoAnalyzer) (file : MediaFile)
    (clip : VideoClip) :
  fs !! file_path self = Some file -> open_clip file = Ok clip ->
  exists md,
    extract_metadata fs self
    = (Ok md, mkVideoAnalyzer (file_path self) (Some clip) (audio_data self) (sample_rate self))
    /\ (md_duration md = duration clip /\ md_fps md = fps clip
        /\ md_width md = w clip /\ md_height md = h clip
        /\ has_audio md = is_not_None (audio clip) /\ file_size md = getsize file)
    /\ ((forall streams, probe file = Ok streams ->
                         Exists (fun s => codec_type s = None) streams) ->
        video_codec md = Some "unknown" /\ audio_codec md = Some "unknown"
        /\ md_sample_rate md = Some 44100)
    /\ (probe file = Ok [] ->
        video_codec md = None /\ audio_codec md = None /\ md_sample_rate md = None).
Proof.
  intros Hfile Hopen.
  destruct (extract_metadata_fields fs self file clip Hfile Hopen) as (md & Hmd & Hfields).
  exists md. split; [exact Hmd|]. split; [exact Hfields|].
  unfold extract_metadata in Hmd. rewrite Hfile, Hopen in Hmd. injection Hmd as <-.
  split.
  - intros Hbad. destruct (probe file) as [streams|e]; [|cbn; auto].
    destruct (probe_streams_missing_type streams (Hbad streams eq_refl)
                (mkMetadata (duration clip) (fps clip) (w clip) (h clip)
                   (is_not_None (audio clip)) (getsize file) None None None)) as [e ->].
    cbn. auto.
  - intros ->. cbn. auto.
Qed.

Lemma extract_metadata_codecs_witness :
  exists md,
    fst (extract_metadata one_upload (__init__ "uploads/7c3d_b.mp4")) = Ok md
    /\ video_codec md = Some "unknown" /\ md_sample_rate md = Some 44100.
Proof.
  destruct (extract_metadata_codecs one_upload (__init__ "uploads/7c3d_b.mp4")
              (mkMediaFile (Ok (still_clip 3 [0; 0; 0; 0])) 1048576
                 (Raise "ffprobe not found"))
              (still_clip 3 [0; 0; 0; 0]) eq_refl eq_refl)
    as (md & Hmd & _ & Hbad & _).
  exists md. split; [now rewrite Hmd|].
  destruct Hbad as (Hv & _ & Hs); [intros streams; discriminate|]. auto.
Defined.

(** ** Timestamps *)

Lemma Qfloor_fmod_range (x : Q) : (0 <= Py.fmod x 60)%Q /\ (Py.fmod x 60 < 60)%Q.
Proof.
  unfold Py.fmod, Py.floordiv.
  pose proof (Qfloor_le (x / 60)) as Hlo. pose proof (Qlt_floor (x / 60)) as Hhi.
  rewrite inject_Z_plus in Hhi. change (inject_Z 1) with 1%Q in Hhi.
  assert (Hx : (x == x / 60 * 60)%Q) by (field).
  set (f := inject_Z (Qfloor (x / 60))) in *. set (y := (x / 60)%Q) in *.
  split; rewrite Hx; lra.
Qed.

(** X15.  The seconds field of a timestamp is not carried over: for a
    time whose seconds within the minute exceed 59.9995, the field is
    rounded up to ["60.000"] while the minutes stay as they are. *)
Theorem seconds_field_rounds_to_sixty (x : Q) :
  (599995 # 10000 < Py.fmod x 60)%Q ->
  _seconds_to_timestamp x
  = Py.fmt_02d (Py.floordiv x 3600) +:+ ":"
    +:+ Py.fmt_02d (Py.floordiv (Py.fmod x 3600) 60) +:+ ":60.000".
Proof.
  intros Hs. unfold _seconds_to_timestamp. cbv zeta. do 4 f_equal.
  unfold Py.fmt_06_3f. cbv zeta.
  destruct (Qfloor_fmod_range x) as [_ Hlt].
  assert (Hr : Py.round_half_even (Py.fmod x 60 * 1000) = 60000).
  { assert (H1 : 60000 <= Py.round_half_even (Py.fmod x 60 * 1000)).
    { apply round_half_even_lower. change (inject_Z 60000) with (60000 # 1)%Q. lra. }
    assert (H2 : Py.round_half_even (Py.fmod x 60 * 1000) <= 60000).
    { apply round_half_even_upper. change (inject_Z 60000) with (60000 # 1)%Q. lra. }
    lia. }
  rewrite Hr. reflexivity.
Qed.

Lemma seconds_field_rounds_to_sixty_witness :
  _seconds_to_timestamp (1199996 # 10000) = "00:01:60.000".
Proof.
  rewrite (seconds_field_rounds_to_sixty (1199996 # 10000)); reflexivity.
Defined.

Lemma result_is_coherent_witness :
  exists r,
    fst (analyze_video_task (fun e => e) "7c3d" "uploads/7c3d_b.mp4"
           (fresh_world (S := DictStore) one_upload)) = Ok r
    /\ total_issues (summary r) = (length (audio_issues r) + length (video_issues r))%nat.
Proof.
  assert (Hv : exists r, fst (run_stages "7c3d" "uploads/7c3d_b.mp4"
                                (fresh_world (S := DictStore) one_upload)) = Ok r)
    by exact (run_stages_verdict (S := DictStore) "7c3d" "uploads/7c3d_b.mp4"
                (fresh_world one_upload)).
  destruct Hv as [r Hr]. exists r.
  assert (Ht : fst (analyze_video_task (fun e => e) "7c3d" "uploads/7c3d_b.mp4"
                      (fresh_world (S := DictStore) one_upload)) = Ok r).
  { rewrite task_unfold.
    destruct (run_stages "7c3d" "uploads/7c3d_b.mp4" (fresh_world one_upload))
      as [[r'|e] wld']; [exact Hr|discriminate Hr]. }
  split; [exact Ht|].
  apply (result_is_coherent (S := DictStore) (fun e => e) "7c3d" "uploads/7c3d_b.mp4"
           (fresh_world one_upload) r Ht).
Defined.

(** ** Accepted uploads *)

Lemma rsplit1_absent (c : ascii) (s : string) :
  Py.string_forall (Py.differs c) s = true -> rsplit1 c s = None.
Proof.
  induction s as [|a r IH]; cbn; [reflexivity|].
  intros Hs. apply andb_true_iff in Hs as [Ha Hr]. rewrite (IH Hr).
  unfold Py.differs in Ha. now destruct (Ascii.eqb a c).
Qed.

Lemma rsplit1_last (c : ascii) (stem ext : string) :
  Py.string_forall (Py.differs c) ext = true ->
  rsplit1 c (stem +:+ String c ext) = Some (stem, ext).
Proof.
  intros Hext. induction stem as [|a r IH].
  - change (EmptyString +:+ String c ext) with (String c ext). cbn [rsplit1].
    rewrite (rsplit1_absent c ext Hext), Ascii.eqb_refl. reflexivity.
  - change (String a r +:+ String c ext) with (String a (r +:+ String c ext)).
    cbn [rsplit1]. now rewrite IH.
Qed.

Lemma contains_app (c : ascii) (stem ext : string) :
  contains c (stem +:+ String c ext) = true.
Proof.
  unfold contains. induction stem as [|a r IH].
  - change (EmptyString +:+ String c ext) with (String c ext). cbn.
    unfold Py.differs. now rewrite Ascii.eqb_refl.
  - change (String a r +:+ String c ext) with (String a (r +:+ String c ext)).
    cbn [Py.string_forall]. destruct (Py.differs c a); [exact IH|reflexivity].
Qed.

(** X16.  Only what follows the last dot of the name decides: a name
    without a dot is refused, and a name that ends in a dot and an
    extension without dots is accepted exactly when the extension, in
    small letters, is one of the allowed ones, whatever precedes the
    dot, be it empty or itself dotted. *)
Theorem allowed_file_last_extension (allowed : list string) (stem ext : string) :
  Py.string_forall is_ascii ext = true ->
  Py.string_forall (Py.differs ".") ext = true ->
  allowed_file allowed (stem +:+ "." +:+ ext)
  = existsb (String.eqb (str_lower ext)) allowed
  /\ (Py.string_forall (Py.differs ".") stem = true -> allowed_file allowed stem = false).
Proof.
  intros _ Hext. split.
  - unfold allowed_file. change ("." +:+ ext) with (String "." ext).
    now rewrite contains_app, rsplit1_last.
  - intros Hstem. unfold allowed_file, contains. now rewrite Hstem.
Qed.

Lemma allowed_file_last_extension_witness :
  allowed_file ALLOWED_EXTENSIONS ("holiday.final" +:+ "." +:+ "MP4") = true
  /\ allowed_file ALLOWED_EXTENSIONS ("clip.mp4" +:+ "." +:+ "exe") = false.
Proof.
  split.
  - now rewrite (proj1 (allowed_file_last_extension ALLOWED_EXTENSIONS "holiday.final" "MP4"
                          eq_refl eq_refl)).
  - now rewrite (proj1 (allowed_file_last_extension ALLOWED_EXTENSIONS "clip.mp4" "exe"
                          eq_refl eq_refl)).
Defined.

(** X17.  The free deployment accepts a subset of what the other
    deployments accept: every name it accepts is accepted by them, and a
    name with the extension [mkv], [wmv], [flv] or [m4v] is accepted by
    them only. *)
Theorem free_deployment_accepts_fewer (filename stem : string) :
  (allowed_file ALLOWED_EXTENSIONS_free filename = true ->
   allowed_file ALLOWED_EXTENSIONS filename = true)
  /\ Forall (fun ext =>
               allowed_file ALLOWED_EXTENSIONS (stem +:+ "." +:+ ext) = true
               /\ allowed_file ALLOWED_EXTENSIONS_free (stem +:+ "." +:+ ext) = false)
            ["mkv"; "wmv"; "flv"; "m4v"].
Proof.
  split.
  - unfold allowed_file. destruct (contains "." filename); [|discriminate]. cbn [andb].
    destruct (rsplit1 "." filename) as [[before ext]|]; [|discriminate].
    unfold ALLOWED_EXTENSIONS_free, ALLOWED_EXTENSIONS. cbn [existsb].
    destruct (String.eqb (str_lower ext) "mp4"), (String.eqb (str_lower ext) "mov"),
             (String.eqb (str_lower ext) "avi"), (String.eqb (str_lower ext) "webm");
      cbn; intros Hf; try discriminate; rewrite ?orb_true_r; reflexivity.
  - repeat constructor;
      unfold allowed_file; change ("." +:+ ?e) with (String "." e);
      rewrite contains_app, rsplit1_last by reflexivity; reflexivity.
Qed.

Lemma free_deployment_accepts_fewer_witness :
  allowed_file ALLOWED_EXTENSIONS "talk.webm" = true.
Proof.
  apply (proj1 (free_deployment_accepts_fewer "talk.webm" EmptyString)). reflexivity.
Defined.

(** ** Progress streams *)

Section StreamFacts.
Context {S : Type} `{JobStore S}.
Variable stores : nat -> S.

Lemma stream_progress_free_from_shape (job_id : string) (remaining : nat) :
  forall k,
    let events := stream_progress_free_from stores remaining job_id k in
    (length events <= Datatypes.S remaining)%nat
    /\ exists earlier last,
         events = earlier ++ [last]
         /\ Forall goes_on earlier
         /\ closes last
         /\ (last = TimeoutEvent <-> length earlier = remaining)
         /\ forall i e, earlier !! i = Some e ->
                        e = StatusEvent (get_job_status (stores (k + i)) job_id).
Proof.
  induction remaining as [|r IH]; intros k; cbn [stream_progress_free_from].
  - cbv zeta. split; [cbn; lia|]. exists [], TimeoutEvent.
    split; [reflexivity|]. split; [constructor|]. split; [now left|].
    split; [tauto|]. intros i e Hi. discriminate.
  - cbv zeta. destruct (is_final (get_job_status (stores k) job_id)) eqn:Hfin.
    + split; [cbn; lia|]. exists [], (StatusEvent (get_job_status (stores k) job_id)).
      split; [reflexivity|]. split; [constructor|]. split; [right; eauto|].
      split; [split; [discriminate|cbn; lia]|]. intros i e Hi. discriminate.
    + destruct (IH (Datatypes.S k)) as (Hlen & earlier & last & Hev & Hgo & Hclose & Hto & Hat).
      cbv zeta in *. rewrite Hev in *. split; [cbn in *; lia|].
      exists (StatusEvent (get_job_status (stores k) job_id) :: earlier), last.
      split; [reflexivity|]. split.
      { constructor; [|exact Hgo]. eexists. eauto. }
      split; [exact Hclose|]. split.
      { rewrite Hto. cbn [length]. lia. }
      intros [|i] e Hi; cbn in Hi.
      * injection Hi as <-. now rewrite Nat.add_0_r.
      * rewrite (Hat i e Hi). f_equal. f_equal. f_equal. lia.
Qed.

(** X18.  The stream of the free deployment always ends: it yields at
    most 301 events; all but the last are statuses that are not final, in
    the order of the polls; the last is a final status or the timeout
    event, and it is the timeout event exactly when 300 polls went by
    without a final status. *)
Theorem stream_progress_free_ends (job_id : string) :
  let events := stream_progress_free stores job_id in
  (length events <= 301)%nat
  /\ exists earlier last,
       events = earlier ++ [last]
       /\ Forall goes_on earlier
       /\ closes last
       /\ (last = TimeoutEvent <-> length earlier = 300%nat)
       /\ forall i e, earlier !! i = Some e ->
                      e = StatusEvent (get_job_status (stores i) job_id).
Proof.
  exact (stream_progress_free_from_shape job_id max_iterations 0).
Qed.

Lemma stream_progress_finishes (job_id : string) (n : nat) :
  forall k fuel,
    (forall i, (i < n)%nat -> is_final (get_job_status (stores (k + i)) job_id) = false) ->
    is_final (get_job_status (stores (k + n)) job_id) = true ->
    (n < fuel)%nat ->
    stream_progress stores fuel job_id k
    = (map (fun i => StatusEvent (get_job_status (stores i) job_id)) (seq k (Datatypes.S n)),
       true).
Proof.
  induction n as [|n IH]; intros k fuel Hbefore Hfin Hfuel;
    (destruct fuel as [|fuel]; [lia|]); cbn [stream_progress].
  - rewrite Nat.add_0_r in Hfin. now rewrite Hfin.
  - pose proof (Hbefore 0%nat ltac:(lia)) as H0. rewrite Nat.add_0_r in H0. rewrite H0.
    rewrite (IH (Datatypes.S k) fuel).
    + reflexivity.
    + intros i Hi. replace (Datatypes.S k + i)%nat with (k + Datatypes.S i)%nat by lia.
      apply Hbefore. lia.
    + now replace (Datatypes.S k + n)%nat with (k + Datatypes.S n)%nat by lia.
    + lia.
Qed.

Lemma stream_progress_goes_on (job_id : string) (fuel : nat) :
  forall k,
    (forall i, is_final (get_job_status (stores i) job_id) = false) ->
    stream_progress stores fuel job_id k
    = (map (fun i => StatusEvent (get_job_status (stores i) job_id)) (seq k fuel), false).
Proof.
  induction fuel as [|fuel IH]; intros k Hnever; cbn [stream_progress]; [reflexivity|].
  now rewrite Hnever, IH.
Qed.

(** X19.  The stream of [app.py] returns exactly at the first poll that
    finds a final status, after yielding every poll up to it; it has no
    other way out.  For a job that never gets a status it yields the
    NOT_FOUND status at every poll and never returns, whereas the stream
    of [app_simple.py] yields that status once and returns. *)
Theorem stream_progress_returns_on_final_only (job_id : string) :
  (forall n fuel,
     (forall i, (i < n)%nat -> is_final (get_job_status (stores i) job_id) = false) ->
     is_final (get_job_status (stores n) job_id) = true ->
     (n < fuel)%nat ->
     stream_progress stores fuel job_id 0
     = (map (fun i => StatusEvent (get_job_status (stores i) job_id))
            (seq 0 (Datatypes.S n)), true))
  /\ ((forall i, get_status (stores i) job_id = None) ->
      forall fuel,
        stream_progress stores fuel job_id 0
        = (repeat (StatusEvent (not_found_status job_id)) fuel, false)
        /\ stream_progress_simple stores (Datatypes.S fuel) job_id 0
           = ([StatusEvent (not_found_status job_id)], true)).
Proof.
  split.
  - intros n fuel Hbefore Hfin Hfuel. now apply (stream_progress_finishes job_id n 0 fuel).
  - intros Hnone fuel. split.
    + rewrite stream_progress_goes_on.
      * f_equal. generalize 0%nat. induction fuel as [|fuel IH]; intros k; cbn; [reflexivity|].
        unfold get_job_status at 1. rewrite Hnone. now rewrite IH.
      * intros i. unfold get_job_status. now rewrite Hnone.
    + cbn [stream_progress_simple]. now rewrite Hnone.
Qed.

End StreamFacts.

Lemma stream_progress_returns_on_final_only_witness :
  stream_progress (fun _ => empty_store (S := DictStore)) 3 "9a2e" 0
  = (repeat (StatusEvent (not_found_status "9a2e")) 3, false).
Proof.
  apply (stream_progress_returns_on_final_only (S := DictStore) (fun _ => empty_store) "9a2e").
  reflexivity.
Defined.

Section StreamAfterRun.
Context {S : Type} `{JobStoreLaws S} `{!ResultStoreLaws S}.

(** X20.  A client that opens the stream of [app_simple.py] once the
    worker has returned receives a single event, the final status of the
    job, which is DONE or ERROR, and the stream returns. *)
Theorem stream_after_run (job_id path : string) (wld : World S) (fuel : nat) :
  let after := store (snd (analyze_video_sync job_id path wld)) in
  exists st,
    stream_progress_simple (fun _ => after) (Datatypes.S fuel) job_id 0
    = ([StatusEvent st], true)
    /\ st = get_job_status after job_id
    /\ (state st = "DONE" \/ state st = "ERROR").
Proof.
  cbv zeta. rewrite sync_unfold.
  pose proof (run_stages_outcome job_id path wld) as Hout.
  destruct (run_stages job_id path wld) as [[r|e] wld']; cbn [snd store].
  - destruct Hout as (_ & _ & _ & _ & (st & Hst & Hs & _) & _).
    exists st. cbn [stream_progress_simple]. unfold get_job_status. rewrite Hst.
    unfold is_final. rewrite Hs. cbn. auto.
  - eexists. cbn [stream_progress_simple]. unfold get_job_status.
    rewrite get_put_status_eq. unfold is_final. cbn [state]. cbn. auto.
Qed.

End StreamAfterRun.

Lemma stream_after_run_witness :
  exists st,
    stream_progress_simple
      (fun _ => store (snd (analyze_video_sync "7c3d" "uploads/7c3d_b.mp4"
                              (fresh_world (S := DictStore) one_upload)))) 1 "7c3d" 0
    = ([StatusEvent st], true).
Proof.
  destruct (stream_after_run (S := DictStore) "7c3d" "uploads/7c3d_b.mp4"
              (fresh_world one_upload) 0) as (st & Hst & _).
  exists st. exact Hst.
Defined.

(** ** The sampling loop of [test_simple.py] *)

Section SimpleVideoFacts.
Variable repr_float : Q -> string.
Variable video : VideoClip.

Lemma first_frame_issues_counts (count : nat) :
  List.filter is_black (first_frame_issues repr_float video count) = []
  /\ List.filter is_frozen (first_frame_issues repr_float video count) = []
  /\ length (List.filter is_low_resolution (first_frame_issues repr_float video count))
     = (if low_resolution video && (count =? 1)%nat then 1 else 0)%nat
  /\ length (List.filter is_low_framerate (first_frame_issues repr_float video count))
     = (if low_framerate video && (count =? 1)%nat then 1 else 0)%nat.
Proof.
  unfold first_frame_issues.
  destruct (low_resolution video), (low_framerate video), (count =? 1)%nat; cbn; auto.
Qed.

Ltac count_issues :=
  rewrite ?List.filter_app, ?length_app;
  cbn [List.filter is_black is_frozen is_low_resolution is_low_framerate i_type
       simple_frame_error simple_black_issue simple_frozen_issue String.eqb Ascii.eqb
       Bool.eqb length app];
  rewrite ?Nat.add_0_r.

Lemma simple_frame_step_invariant (st : SimpleLoop) (t : Q) :
  counters_agree video st ->
  counters_agree video (simple_frame_step repr_float video st t)
  /\ frame_count (simple_frame_step repr_float video st t)
     = (frame_count st + if decodes video t then 1 else 0)%nat.
Proof.
  intros (Hb & Hf & Hr & Hl & Hp & Hd). unfold simple_frame_step, decodes.
  destruct (get_frame video t) as [gray|e].
  2:{ split; [|cbn; lia]. unfold counters_agree.
      cbn [s_issues s_prev_frame frame_count black_frame_count frozen_frame_count].
      count_issues. do 5 (split; [assumption|]).
      apply Forall_app. split; [exact Hd|]. constructor; [intros Hfz; cbn in Hfz; discriminate Hfz|constructor]. }
  set (black := match mean_brightness gray with
                | Some b =>
                    if Qlt_le_dec b 20
                    then (s_issues st ++ [simple_black_issue t b],
                          Datatypes.S (black_frame_count st))
                    else (s_issues st, black_frame_count st)
                | None => (s_issues st, black_frame_count st)
                end).
  assert (Hblack : exists extra,
             fst black = s_issues st ++ extra
             /\ snd black = (black_frame_count st + length extra)%nat
             /\ List.filter is_black extra = extra
             /\ List.filter is_frozen extra = []
             /\ List.filter is_low_resolution extra = []
             /\ List.filter is_low_framerate extra = []).
  { unfold black. destruct (mean_brightness gray) as [b|].
    - destruct (Qlt_le_dec b 20).
      + exists [simple_black_issue t b]. cbn. repeat split; lia.
      + exists []. cbn. rewrite app_nil_r. repeat split; lia.
    - exists []. cbn. rewrite app_nil_r. repeat split; lia. }
  destruct black as [issues1 black1]. cbn [fst snd] in Hblack.
  destruct Hblack as (extra & -> & -> & Hxb & Hxf & Hxr & Hxl).
  destruct (first_frame_issues_counts (Datatypes.S (frame_count st)))
    as (Hfb & Hff & Hfr & Hfl).
  assert (Hdx : Forall (fun i => is_frozen i = true ->
                                 i_duration i = 2%Q /\ severity i = "medium")
                       (s_issues st ++ extra)).
  { apply Forall_app. split; [exact Hd|]. apply List.Forall_forall. intros i Hi Hfz.
    assert (Hin : In i (List.filter is_frozen extra)) by (apply List.filter_In; auto).
    rewrite Hxf in Hin. destruct Hin. }
  assert (Hdf : Forall (fun i => is_frozen i = true ->
                                 i_duration i = 2%Q /\ severity i = "medium")
                       (first_frame_issues repr_float video (Datatypes.S (frame_count st)))).
  { apply List.Forall_forall. intros i Hi Hfz.
    assert (Hin : In i (List.filter is_frozen
                          (first_frame_issues repr_float video (Datatypes.S (frame_count st)))))
      by (apply List.filter_In; auto).
    rewrite Hff in Hin. destruct Hin. }
  destruct (s_prev_frame st) as [prev|] eqn:Hprev.
  - assert (Hpos : (0 < frame_count st)%nat).
    { destruct (frame_count st); [|lia]. destruct Hp as [_ Hp]. now specialize (Hp eq_refl). }
    destruct (absdiff gray prev) as [frame_diff|e].
    + set (frozen := match Np.mean (map inject_Z frame_diff) with
                     | Some diff_mean =>
                         if Qlt_le_dec diff_mean 2
                         then ((s_issues st ++ extra) ++ [simple_frozen_issue t diff_mean],
                               Datatypes.S (frozen_frame_count st))
                         else (s_issues st ++ extra, frozen_frame_count st)
                     | None => (s_issues st ++ extra, frozen_frame_count st)
                     end).
      assert (Hfrozen : exists more,
                 fst frozen = (s_issues st ++ extra) ++ more
                 /\ snd frozen = (frozen_frame_count st + length more)%nat
                 /\ List.filter is_frozen more = more
                 /\ List.filter is_black more = []
                 /\ List.filter is_low_resolution more = []
                 /\ List.filter is_low_framerate more = []
                 /\ Forall (fun i => i_duration i = 2%Q /\ severity i = "medium") more).
      { unfold frozen. destruct (Np.mean (map inject_Z frame_diff)) as [dm|].
        - destruct (Qlt_le_dec dm 2).
          + exists [simple_frozen_issue t dm]. cbn. repeat split; try lia.
            repeat constructor.
          + exists []. cbn. rewrite app_nil_r. repeat split; try lia. constructor.
        - exists []. cbn. rewrite app_nil_r. repeat split; try lia. constructor. }
      destruct frozen as [issues2 frozen2]. cbn [fst snd] in Hfrozen.
      destruct Hfrozen as (more & -> & -> & Hmf & Hmb & Hmr & Hml & Hmd).
      split; [|cbn; lia]. unfold counters_agree.
      cbn [s_issues s_prev_frame frame_count black_frame_count frozen_frame_count].
      rewrite !List.filter_app, !length_app.
      rewrite Hxb, Hxf, Hxr, Hxl, Hmf, Hmb, Hmr, Hml, Hfb, Hff, Hfr, Hfl.
      replace (Datatypes.S (frame_count st) =? 1)%nat with false
        by (symmetry; apply Nat.eqb_neq; lia).
      rewrite !andb_false_r. cbn [length]. rewrite Hr, Hl.
      replace (0 <? frame_count st)%nat with true by (symmetry; apply Nat.ltb_lt; lia).
      cbn [Nat.ltb Nat.leb].
      split; [lia|]. split; [lia|]. split; [lia|]. split; [lia|].
      split; [split; [discriminate|lia]|].
      apply Forall_app. split; [apply Forall_app; split; [exact Hdx|]|exact Hdf].
      eapply Forall_impl; [exact Hmd|]. cbn. auto.
    + split; [|cbn; lia]. unfold counters_agree.
      cbn [s_issues s_prev_frame frame_count black_frame_count frozen_frame_count].
      rewrite !List.filter_app, !length_app. rewrite Hxb, Hxf, Hxr, Hxl.
      cbn [List.filter is_black is_frozen is_low_resolution is_low_framerate i_type
           simple_frame_error length]. cbn. rewrite Hr, Hl.
      replace (0 <? frame_count st)%nat with true by (symmetry; apply Nat.ltb_lt; lia).
      split; [lia|]. split; [lia|]. split; [lia|]. split; [lia|].
      split; [split; [discriminate|lia]|].
      apply Forall_app. split; [exact Hdx|]. constructor; [intros Hfz; cbn in Hfz; discriminate Hfz|constructor].
  - assert (Hzero : frame_count st = 0%nat) by now apply Hp.
    split; [|cbn; lia]. unfold counters_agree.
    cbn [s_issues s_prev_frame frame_count black_frame_count frozen_frame_count].
    rewrite !List.filter_app, !length_app.
    rewrite Hxb, Hxf, Hxr, Hxl, Hfb, Hff, Hfr, Hfl. cbn [length].
    rewrite Hr, Hl, Hzero. cbn [Nat.ltb Nat.leb Nat.eqb]. rewrite !andb_false_r, !andb_true_r.
    split; [lia|]. split; [lia|]. split; [lia|]. split; [lia|].
    split; [split; [discriminate|lia]|].
    apply Forall_app. split; [exact Hdx|]. rewrite Hzero in Hdf. exact Hdf.
Qed.

Lemma simple_loop_invariant (times : list Q) :
  forall st,
    counters_agree video st ->
    counters_agree video (fold_left (simple_frame_step repr_float video) times st)
    /\ frame_count (fold_left (simple_frame_step repr_float video) times st)
       = (frame_count st + length (List.filter (decodes video) times))%nat.
Proof.
  induction times as [|t r IH]; intros st Hst; cbn [fold_left List.filter].
  - split; [exact Hst|cbn; lia].
  - destruct (simple_frame_step_invariant st t Hst) as [Hinv Hcount].
    destruct (IH _ Hinv) as [Hfinal Hn]. split; [exact Hfinal|].
    rewrite Hn, Hcount. destruct (decodes video t); cbn [length]; lia.
Qed.

(** X21.  The counters of the sampling loop of [analyze_video_simple]
    agree with the issue list: [frames_analyzed] counts the samples that
    decode, [black_frames_detected] and [frozen_frames_detected] count the
    issues of these types, and the low-resolution and low-frame-rate
    issues occur once when the clip is below the limit and a sample decodes,
    and not at all otherwise.  Every frozen-frame issue is of medium
    severity and lasts one sampling interval of two seconds: similar
    samples are reported one by one, not as runs. *)
Theorem simple_video_stage_counters :
  let st := simple_video_stage repr_float video in
  frame_count st
  = length (List.filter (decodes video) (simple_sample_times (duration video)))
  /\ black_frame_count st = length (List.filter is_black (s_issues st))
  /\ frozen_frame_count st = length (List.filter is_frozen (s_issues st))
  /\ length (List.filter is_low_resolution (s_issues st))
     = (if low_resolution video && (0 <? frame_count st)%nat then 1 else 0)%nat
  /\ length (List.filter is_low_framerate (s_issues st))
     = (if low_framerate video && (0 <? frame_count st)%nat then 1 else 0)%nat
  /\ Forall (fun i => is_frozen i = true -> i_duration i = 2%Q /\ severity i = "medium")
            (s_issues st).
Proof.
  cbv zeta. unfold simple_video_stage.
  destruct (simple_loop_invariant (simple_sample_times (duration video))
              (mkSimpleLoop [] None 0 0 0)) as [(Hb & Hf & Hr & Hl & _ & Hd) Hn].
  - unfold counters_agree. cbn. rewrite !andb_false_r.
    repeat split; auto.
  - cbn [frame_count Nat.add] in Hn. auto 10.
Qed.

End SimpleVideoFacts.

(** ** The report of [test_simple.py] *)

Lemma simple_status_values (audio_issues video_issues : list Issue) :
  simple_status audio_issues video_issues <> "ERROR".
Proof.
  unfold simple_status.
  destruct (0 <? _)%nat; [discriminate|]. destruct (_ || _); discriminate.
Qed.

(** X22.  [analyze_video_simple] returns a report for every file.  The
    report has status ERROR exactly when the file is missing, does not
    open, or has height zero; it then shows one issue of high severity in
    its summary while both issue lists are empty and the counters are
    absent, whatever the stages had found.  Any other report counts its
    own two lists and takes its status from them. *)
Theorem analyze_video_simple_report (np_sqrt : Q -> Q) (repr_float : Q -> string)
    (fs : Files) (file_path : string) :
  let report := analyze_video_simple np_sqrt repr_float fs file_path in
  let s := sr_summary report in
  (ss_status s = "ERROR"
   <-> ~ exists file video,
         fs !! file_path = Some file /\ open_clip file = Ok video /\ h video <> 0)
  /\ (ss_status s = "ERROR" ->
      sr_audio_issues report = [] /\ sr_video_issues report = []
      /\ sr_counters report = None
      /\ ss_total_issues s = 1%nat /\ ss_high_severity_issues s = 1%nat
      /\ ss_medium_severity_issues s = None
      /\ sr_error report <> None)
  /\ (ss_status s <> "ERROR" ->
      ss_total_issues s
      = (length (sr_audio_issues report) + length (sr_video_issues report))%nat
      /\ ss_high_severity_issues s
         = length (List.filter is_high (sr_audio_issues report ++ sr_video_issues report))
      /\ ss_status s = simple_status (sr_audio_issues report) (sr_video_issues report)
      /\ sr_counters report <> None
      /\ sr_error report = None).
Proof.
  cbv zeta. unfold analyze_video_simple.
  destruct (fs !! file_path) as [file|] eqn:Hfile.
  2:{ cbn. split; [|split; [intros _; repeat split; discriminate|]];
        [|intros Hne; exfalso; now apply Hne].
      split; [|reflexivity]. intros _ (file & video & Hf & _). discriminate. }
  destruct (open_clip file) as [video|e] eqn:Hopen.
  2:{ cbn. split; [|split; [intros _; repeat split; discriminate|]];
        [|intros Hne; exfalso; now apply Hne].
      split; [|reflexivity]. intros _ (file' & video & Hf & Ho & _). congruence. }
  destruct (Z.eqb_spec (h video) 0) as [Hh|Hh].
  { cbn. split; [|split; [intros _; repeat split; discriminate|]];
        [|intros Hne; exfalso; now apply Hne].
    split; [|reflexivity]. intros _ (file' & video' & Hf & Ho & Hne). congruence. }
  cbn [sr_summary ss_status sr_audio_issues sr_video_issues sr_counters ss_total_issues
       ss_high_severity_issues ss_medium_severity_issues sr_error].
  split; [|split].
  - split.
    + intros Hs. now apply simple_status_values in Hs.
    + intros Hno. exfalso. apply Hno. eauto.
  - intros Hs. now apply simple_status_values in Hs.
  - intros _. repeat split. discriminate.
Qed.

Lemma analyze_video_simple_report_witness :
  let report := analyze_video_simple (fun x => x) (fun _ => "25.0") one_upload
                  "uploads/7c3d_b.mp4" in
  ss_total_issues (sr_summary report)
  = (length (sr_audio_issues report) + length (sr_video_issues report))%nat.
Proof.
  intros report.
  apply (analyze_video_simple_report (fun x => x) (fun _ => "25.0") one_upload
           "uploads/7c3d_b.mp4").
  apply simple_status_values.
Defined.

(** X23.  [create_job] of [test_simple.py] refuses a request without a
    file, with an empty name or with a name that [allowed_file] rejects,
    and then changes neither the jobs nor the upload folder.  Every other
    request is answered with the new job, whose status reads DONE with
    progress 100 even when the stored report has status ERROR; the upload
    stays in the folder, and the other jobs are untouched. *)
Theorem create_job_outcome (np_sqrt : Q -> Q) (repr_float : Q -> string)
    (secure_filename : string -> string) (upload_folder uuid4 : string)
    (video : option (string * MediaFile)) (st : SimpleWorld) :
  let accepted :=
    match video with
    | Some (name, _) => negb (String.eqb name EmptyString)
                        && allowed_file ALLOWED_EXTENSIONS name
    | None => false
    end in
  let '(response, st') :=
    create_job np_sqrt repr_float secure_filename upload_folder uuid4 video st in
  if accepted then
    exists name content job,
      video = Some (name, content)
      /\ response = Created uuid4 (secure_filename name)
      /\ jobs st' !! uuid4 = Some job
      /\ state (simple_job_status st' uuid4) = "DONE"
      /\ progress (simple_job_status st' uuid4) = 100
      /\ sw_disk st' !! sj_file_path job = Some content
      /\ sj_result job
         = Some (Datatypes.S (sw_clock st),
                 analyze_video_simple np_sqrt repr_float (sw_disk st') (sj_file_path job))
      /\ (forall e, open_clip content = Raise e ->
          exists report, sj_result job = Some (Datatypes.S (sw_clock st), report)
                         /\ ss_status (sr_summary report) = "ERROR")
      /\ (forall j, j <> uuid4 -> simple_job_status st' j = simple_job_status st j)
  else (exists reason, response = BadRequest reason) /\ st' = st.
Proof.
  cbv zeta. unfold create_job.
  destruct video as [[name content]|]; [|cbn; eauto].
  destruct (String.eqb name EmptyString); [cbn; eauto|].
  destruct (allowed_file ALLOWED_EXTENSIONS name); [|cbn; eauto].
  cbn [negb andb].
  set (path := upload_folder +:+ "/" +:+ uuid4 +:+ "_" +:+ secure_filename name).
  eexists name, content, _. split; [reflexivity|]. split; [reflexivity|].
  cbn [jobs sw_disk]. split; [apply lookup_insert_eq|].
  unfold simple_job_status. cbn [jobs]. rewrite lookup_insert_eq.
  cbn [state progress sj_status sj_progress sj_file_path sj_result].
  split; [reflexivity|]. split; [reflexivity|].
  split; [apply lookup_insert_eq|]. split; [reflexivity|]. split.
  - intros e Hopen. eexists. split; [reflexivity|].
    unfold analyze_video_simple.
    assert (Hsaved : <[path := content]> (sw_disk st) !! path = Some content)
      by apply lookup_insert_eq.
    rewrite Hsaved, Hopen. reflexivity.
  - intros j Hj. now rewrite lookup_insert_ne by congruence.
Qed.

Lemma create_job_outcome_witness :
  fst (create_job (fun x => x) (fun _ => "25.0") (fun name => name) "uploads" "7c3d"
         (Some ("b.mp4", mkMediaFile (Raise "not a video") 12 (Raise "ffprobe not found")))
         (mkSimpleWorld ∅ ∅ 0))
  = Created "7c3d" "b.mp4".
Proof.
  pose proof (create_job_outcome (fun x => x) (fun _ => "25.0") (fun name => name)
                "uploads" "7c3d"
                (Some ("b.mp4", mkMediaFile (Raise "not a video") 12
                                  (Raise "ffprobe not found")))
                (mkSimpleWorld ∅ ∅ 0)) as Hout.
  cbv zeta in Hout.
  destruct (create_job _ _ _ _ _ _ _) as [response st'].
  change (allowed_file ALLOWED_EXTENSIONS "b.mp4") with true in Hout.
  cbn [negb andb String.eqb] in Hout.
  destruct Hout as (name & content & job & Hv & Hr & _).
  injection Hv as <- <-. exact Hr.
Defined.

(** ** The silence windows of [test_simple.py] *)

Section SimpleWindows.
Variable np_sqrt : Q -> Q.
Variable sr : positive.
Variable window_size : Z.
Variable mono : list Q.
Hypothesis window_positive : 0 < window_size.

Lemma simple_windows_fuel (fuel1 : nat) :
  forall (fuel2 : nat) (i : Z),
    Z.of_nat (length mono) - window_size - i <= Z.of_nat fuel1 * window_size ->
    Z.of_nat (length mono) - window_size - i <= Z.of_nat fuel2 * window_size ->
    simple_windows np_sqrt fuel1 sr window_size i mono
    = simple_windows np_sqrt fuel2 sr window_size i mono.
Proof.
  induction fuel1 as [|fuel1 IH]; intros fuel2 i H1 H2.
  - destruct fuel2 as [|fuel2]; [reflexivity|]. cbn [simple_windows].
    destruct (Z.ltb_spec i (Z.of_nat (length mono) - window_size)); [lia|reflexivity].
  - cbn [simple_windows].
    destruct (Z.ltb_spec i (Z.of_nat (length mono) - window_size)) as [Hlt|Hge].
    + destruct fuel2 as [|fuel2]; [lia|]. cbn [simple_windows].
      destruct (Z.ltb_spec i (Z.of_nat (length mono) - window_size)); [|lia].
      f_equal. apply IH; lia.
    + destruct fuel2 as [|fuel2]; [reflexivity|]. cbn [simple_windows].
      destruct (Z.ltb_spec i (Z.of_nat (length mono) - window_size)); [lia|reflexivity].
Qed.

Lemma simple_windows_inside (fuel : nat) :
  forall k : Z,
    0 <= k ->
    Forall (fun issue =>
              i_type issue = "silence" /\ severity issue = "low"
              /\ exists j, k <= j
                           /\ (j + 1) * window_size < Z.of_nat (length mono)
                           /\ timestamp issue
                              = _seconds_to_timestamp (inject_Z (j * window_size) / rate sr))
           (simple_windows np_sqrt fuel sr window_size (k * window_size) mono).
Proof.
  induction fuel as [|fuel IH]; intros k Hk; cbn [simple_windows]; [constructor|].
  destruct (Z.ltb_spec (k * window_size) (Z.of_nat (length mono) - window_size)) as [Hlt|Hge];
    [|constructor].
  apply Forall_app. split.
  - destruct (Np.mean _) as [ms|]; [|constructor].
    destruct (Qlt_le_dec _ _); [|constructor].
    constructor; [|constructor]. cbn [i_type severity timestamp].
    split; [reflexivity|]. split; [reflexivity|]. exists k. split; [lia|]. split; [lia|].
    reflexivity.
  - replace (k * window_size + window_size) with ((k + 1) * window_size) by lia.
    eapply Forall_impl; [apply IH; lia|].
    cbn. intros issue (Ht & Hs & j & Hj & Hin & Hts).
    split; [exact Ht|]. split; [exact Hs|]. exists j.
    split; [lia|]. split; [exact Hin|exact Hts].
Qed.

(** X24.  The silence scan of [analyze_video_simple] looks at the
    half-second windows that end strictly before the end of the signal:
    every silence issue is of low severity and carries the start time of
    such a window, so the last window is never examined and a signal no
    longer than one window yields no silence issue.  As many iterations as
    there are samples exhaust the loop: more change nothing. *)
Theorem simple_windows_inside_signal (fuel : nat) :
  (length mono <= fuel)%nat ->
  simple_windows np_sqrt fuel sr window_size 0 mono
  = simple_windows np_sqrt (length mono) sr window_size 0 mono
  /\ Forall (fun issue =>
               i_type issue = "silence" /\ severity issue = "low"
               /\ exists j, 0 <= j
                            /\ (j + 1) * window_size < Z.of_nat (length mono)
                            /\ timestamp issue
                               = _seconds_to_timestamp (inject_Z (j * window_size) / rate sr))
            (simple_windows np_sqrt fuel sr window_size 0 mono)
  /\ (Z.of_nat (length mono) <= window_size ->
      simple_windows np_sqrt fuel sr window_size 0 mono = []).
Proof.
  intros Hfuel. split; [|split].
  - apply simple_windows_fuel; nia.
  - exact (simple_windows_inside fuel 0 ltac:(lia)).
  - intros Hshort. destruct fuel as [|fuel]; [reflexivity|]. cbn [simple_windows].
    destruct (Z.ltb_spec 0 (Z.of_nat (length mono) - window_size)); [lia|reflexivity].
Qed.

End SimpleWindows.

Lemma simple_windows_inside_signal_witness :
  simple_windows (fun x => x) 4 2 1 0 [0%Q; 0%Q; 0%Q]
  = simple_windows (fun x => x) 3 2 1 0 [0%Q; 0%Q; 0%Q].
Proof.
  apply (simple_windows_inside_signal (fun x => x) 2 1 [0%Q; 0%Q; 0%Q] ltac:(lia) 4).
  cbn. lia.
Defined.

(** ** The sort key *)

Lemma round_half_even_monotone (x y : Q) :
  (x <= y)%Q -> Py.round_half_even x <= Py.round_half_even y.
Proof.
  intros Hxy. pose proof (Qfloor_resp_le x y Hxy) as Hfloor.
  unfold Py.round_half_even. cbv zeta.
  destruct (Z.eq_dec (Qfloor x) (Qfloor y)) as [Heq|Hne].
  - rewrite <- Heq.
    destruct (Qcompare_spec (x - inject_Z (Qfloor x)) (1 # 2)) as [Hx|Hx|Hx];
      destruct (Qcompare_spec (y - inject_Z (Qfloor x)) (1 # 2)) as [Hy|Hy|Hy];
      try lia; try (exfalso; lra); destruct (Z.even (Qfloor x)); lia.
  - assert (Hlt : Qfloor x + 1 <= Qfloor y) by lia.
    destruct (x - inject_Z (Qfloor x) ?= 1 # 2)%Q, (y - inject_Z (Qfloor y) ?= 1 # 2)%Q;
      try destruct (Z.even (Qfloor x)); try destruct (Z.even (Qfloor y)); lia.
Qed.

(** X25.  The key by which the issue lists are sorted follows the time
    of the issue: every printed timestamp converts back, and a later time
    never gets a smaller key. *)
Theorem timestamp_key_monotone (s1 s2 : Q) :
  (s1 <= s2)%Q ->
  exists k1 k2,
    _timestamp_to_seconds (_seconds_to_timestamp s1) = Some k1
    /\ _timestamp_to_seconds (_seconds_to_timestamp s2) = Some k2
    /\ (k1 <= k2)%Q.
Proof.
  intros Hle.
  destruct (timestamp_roundtrip_value s1) as (k1 & Hk1 & Hv1).
  destruct (timestamp_roundtrip_value s2) as (k2 & Hk2 & Hv2).
  exists k1, k2. split; [exact Hk1|]. split; [exact Hk2|].
  rewrite Hv1, Hv2.
  assert (Hr : Py.round_half_even (s1 * 1000) <= Py.round_half_even (s2 * 1000)).
  { apply round_half_even_monotone. lra. }
  rewrite Zle_Qle in Hr.
  apply Qmult_le_compat_r; [exact Hr|discriminate].
Qed.

Lemma timestamp_key_monotone_witness :
  exists k1 k2,
    _timestamp_to_seconds (_seconds_to_timestamp (3 # 2)) = Some k1
    /\ _timestamp_to_seconds (_seconds_to_timestamp 61) = Some k2
    /\ (k1 <= k2)%Q.
Proof.
  apply (timestamp_key_monotone (3 # 2) 61). discriminate.
Defined.

(** ** Short groups of glitch frames *)

Lemma hop_length_bound (sr : positive) : 0 <= hop_length sr /\ hop_length sr * 100 <= Z.pos sr.
Proof.
  unfold hop_length. pose proof (Z.mul_div_le (Z.pos sr) 100 ltac:(lia)).
  pose proof (Z.div_pos (Z.pos sr) 100 ltac:(lia) ltac:(lia)). lia.
Qed.

(** X26.  A group of glitch frames that spans at most five frames is
    never reported, whatever the sample rate: its duration cannot exceed
    the 50 ms that a report requires.  At a sample rate that is a multiple
    of 100, a group that spans six frames or more is reported, with medium
    severity. *)
Theorem short_glitch_groups_are_dropped (sr : positive) (group : list Z) :
  let span := List.last group 0 - hd 0 group + 1 in
  (span <= 5 -> glitch_issue sr group = None)
  /\ (6 <= span -> Z.pos sr mod 100 = 0 ->
      exists issue, glitch_issue sr group = Some issue
                    /\ i_type issue = "voice_glitch" /\ severity issue = "medium"
                    /\ (i_duration issue == inject_Z span / 100)%Q).
Proof.
  cbv zeta. unfold glitch_issue. cbv zeta.
  set (span := List.last group 0 - hd 0 group + 1).
  destruct (hop_length_bound sr) as [Hhop0 Hhop].
  assert (Hrate : (0 < rate sr)%Q) by reflexivity.
  split.
  - intros Hspan. destruct (Qlt_le_dec _ _) as [Hlong|]; [|reflexivity]. exfalso.
    apply (Qlt_not_le _ _ Hlong). apply Qle_shift_div_r; [exact Hrate|].
    unfold rate, Qle, Qmult, inject_Z. cbn [Qnum Qden]. nia.
  - intros Hspan Hmod.
    assert (Hexact : hop_length sr * 100 = Z.pos sr).
    { unfold hop_length. pose proof (Z.div_mod (Z.pos sr) 100 ltac:(lia)). lia. }
    destruct (Qlt_le_dec _ _) as [|Hshort].
    + eexists. split; [reflexivity|]. cbn [i_type severity i_duration].
      split; [reflexivity|]. split; [reflexivity|].
      unfold rate, Qeq, Qdiv, Qmult, Qinv, inject_Z. cbn [Qnum Qden]. nia.
    + exfalso. apply (Qle_not_lt _ _ Hshort). apply Qlt_shift_div_l; [exact Hrate|].
      unfold rate, Qlt, Qmult, inject_Z. cbn [Qnum Qden]. nia.
Qed.

Lemma short_glitch_groups_are_dropped_witness :
  glitch_issue 44100 [10; 12; 14] = None.
Proof.
  apply (short_glitch_groups_are_dropped 44100 [10; 12; 14]). cbn. lia.
Defined.
